(** * NAB banking API: account acquisition engine

    A shallow embedding of the Go packages [service], [browser],
    [handler] and [config] of the repository and of the start of [main],
    and the properties of the selector resolution loops, the login
    sequence, the text extraction helpers, the mock provider, the
    configuration and the error paths.

    Go strings are byte strings: they are embedded as [string] (a list of
    8-bit [ascii] characters). *)

From Stdlib Require Import List String Ascii Bool Arith ZArith Lia.
From Stdlib Require Import Numbers.DecimalString Numbers.DecimalNat.
Import ListNotations.

Local Open Scope string_scope.
Local Open Scope list_scope.
Local Open Scope bool_scope.

(* ===================================================================== *)
(** * Excerpts of the Go standard library used by the code *)
(* ===================================================================== *)

(** ** Package [strings] *)
Module Strings.

(** [strings.HasPrefix] *)
Definition HasPrefix (s p : string) : bool := String.prefix p s.

Fixpoint drop (n : nat) (s : string) : string :=
  match n, s with
  | S k, String _ t => drop k t
  | _, _ => s
  end.

(** [strings.TrimPrefix]: [s] without the leading [p], or [s] itself. *)
Definition TrimPrefix (s p : string) : string :=
  if HasPrefix s p then drop (String.length p) s else s.

(** [strings.Contains]: [sub] occurs somewhere in [s]. *)
Fixpoint Contains (s sub : string) : bool :=
  HasPrefix s sub ||
  match s with
  | EmptyString => false
  | String _ t => Contains t sub
  end.

(** [strings.ReplaceAll] for a non-empty [old]: a left-to-right scan
    replacing non-overlapping occurrences. [skip] counts the bytes of
    an occurrence that has just been replaced and are still to be
    passed over. *)
Fixpoint replaceFrom (old new : string) (skip : nat) (s : string) : string :=
  match s with
  | EmptyString => EmptyString
  | String c t =>
      match skip with
      | S k => replaceFrom old new k t
      | O =>
          if HasPrefix s old
          then new ++ replaceFrom old new (String.length old - 1) t
          else String c (replaceFrom old new 0 t)
      end
  end.

Definition ReplaceAll (s old new : string) : string := replaceFrom old new 0 s.

Definition isUpper (c : ascii) : bool :=
  (65 <=? nat_of_ascii c)%nat && (nat_of_ascii c <=? 90)%nat.

(** [c += 'a' - 'A'] on an upper-case ASCII letter. *)
Definition lowerByte (c : ascii) : ascii :=
  if isUpper c then ascii_of_nat (nat_of_ascii c + 32) else c.

Fixpoint mapBytes (f : ascii -> ascii) (s : string) : string :=
  match s with
  | EmptyString => EmptyString
  | String c t => String (f c) (mapBytes f t)
  end.

(** No byte is [>= utf8.RuneSelf] (0x80). *)
Fixpoint isASCII (s : string) : bool :=
  match s with
  | EmptyString => true
  | String c t => (nat_of_ascii c <? 128)%nat && isASCII t
  end.

(** [strings.ToLower]. The library lowers an all-ASCII string byte by
    byte; any other string goes through [strings.Map(unicode.ToLower, s)],
    whose Unicode tables are outside this development and are taken as
    the parameter [unicodeLower]. *)
Definition ToLower (unicodeLower : string -> string) (s : string) : string :=
  if isASCII s then mapBytes lowerByte s else unicodeLower s.

(** The bytes of [asciiSpace]: tab, line feed, vertical tab, form feed,
    carriage return and space. *)
Definition asciiSpace (c : ascii) : bool :=
  let n := nat_of_ascii c in
  ((9 <=? n)%nat && (n <=? 13)%nat) || (n =? 32)%nat.

Fixpoint rev_append (s acc : string) : string :=
  match s with
  | EmptyString => acc
  | String c t => rev_append t (String c acc)
  end.

Definition reverse (s : string) : string := rev_append s EmptyString.

(** The second loop of [strings.TrimSpace], on the bytes of [s[start:]]
    read from the end. *)
Fixpoint trimSpaceEnd (unicodeTrimRight : string -> string) (reversed : string) : string :=
  match reversed with
  | EmptyString => EmptyString
  | String c t =>
      if (128 <=? nat_of_ascii c)%nat then unicodeTrimRight (reverse reversed)
      else if asciiSpace c then trimSpaceEnd unicodeTrimRight t
      else reverse reversed
  end.

(** [strings.TrimSpace]. The library trims ASCII space bytes from both
    ends; on meeting a byte [>= utf8.RuneSelf] it hands what is left to
    [TrimFunc(_, unicode.IsSpace)] (from the start) or
    [TrimRightFunc(_, unicode.IsSpace)] (from the end), which are taken
    as the parameters [unicodeTrim] and [unicodeTrimRight]. *)
Fixpoint TrimSpace (unicodeTrim unicodeTrimRight : string -> string) (s : string) : string :=
  match s with
  | EmptyString => EmptyString
  | String c t =>
      if (128 <=? nat_of_ascii c)%nat then unicodeTrim s
      else if asciiSpace c then TrimSpace unicodeTrim unicodeTrimRight t
      else trimSpaceEnd unicodeTrimRight (reverse s)
  end.

(** [strings.Split] for a non-empty [sep]: the pieces of [s] between the
    non-overlapping occurrences of [sep], found left to right. [piece]
    is the piece being read and [skip] counts the bytes of a separator
    still to be passed over. *)
Fixpoint splitFrom (sep : string) (skip : nat) (piece : string) (s : string) : list string :=
  match s with
  | EmptyString => [piece]
  | String c t =>
      match skip with
      | S k => splitFrom sep k piece t
      | O =>
          if HasPrefix s sep
          then piece :: splitFrom sep (String.length sep - 1) EmptyString t
          else splitFrom sep 0 (piece ++ String c EmptyString) t
      end
  end.

Definition Split (s sep : string) : list string := splitFrom sep 0 EmptyString s.

End Strings.

(** ** Package [strconv]: [ParseBool], [None] for its syntax error *)
Definition ParseBool (str : string) : option bool :=
  if existsb (String.eqb str) ["1"; "t"; "T"; "TRUE"; "true"; "True"]%string
  then Some true
  else if existsb (String.eqb str) ["0"; "f"; "F"; "FALSE"; "false"; "False"]%string
  then Some false
  else None.

(** ** Package [fmt]: the [%d] verb on a non-negative [int] *)
Definition itoa (n : nat) : string := NilEmpty.string_of_uint (Nat.to_uint n).

(** ** Package [regexp]

    The patterns of the code are built from literals, concatenation,
    [+] and [{n}] on a character class, [?] and capturing groups.
    Matching is leftmost-first: at a position the engine reports what a
    backtracking matcher finds first, greedy operators trying the longest
    repetition first. *)
Module Regexp.

(** A character class is a list of inclusive ranges. *)
Definition charclass := list (ascii * ascii).

Definition inClass (cl : charclass) (c : ascii) : bool :=
  existsb (fun r => (nat_of_ascii (fst r) <=? nat_of_ascii c)%nat
                    && (nat_of_ascii c <=? nat_of_ascii (snd r))%nat) cl.

Inductive regex :=
| Lit (c : ascii)                    (* a literal byte, e.g. [\$] or [\.] *)
| Cat (r1 r2 : regex)                (* r1 r2 *)
| Plus (cl : charclass)              (* [[...]+], greedy *)
| Repeat (n : nat) (cl : charclass)  (* [[...]{n}] *)
| Quest (r : regex)                  (* r?, greedy *)
| Capture (r : regex).               (* (r) *)

(** One way of matching at the start of the input. *)
Record found := Found {
  whole : string;        (* the text consumed *)
  groups : list string;  (* the text of the capturing groups, in order *)
  rest : string          (* the input left *)
}.

(** The splits of [s] after a non-empty run of class bytes, longest
    run first. *)
Fixpoint spans (cl : charclass) (s : string) : list (string * string) :=
  match s with
  | EmptyString => []
  | String c t =>
      if inClass cl c
      then map (fun p => (String c (fst p), snd p)) (spans cl t) ++ [(String c "", t)]
      else []
  end.

(** Exactly [n] class bytes. *)
Fixpoint exactly (n : nat) (cl : charclass) (s : string) : option (string * string) :=
  match n with
  | O => Some ("", s)
  | S k =>
      match s with
      | EmptyString => None
      | String c t =>
          if inClass cl c
          then match exactly k cl t with
               | Some (a, b) => Some (String c a, b)
               | None => None
               end
          else None
      end
  end.

(** All the ways [r] matches at the start of [s], in the order a
    backtracking matcher tries them. *)
Fixpoint run (r : regex) (s : string) : list found :=
  match r with
  | Lit c =>
      match s with
      | String c' t => if Ascii.eqb c c' then [Found (String c' "") [] t] else []
      | EmptyString => []
      end
  | Cat r1 r2 =>
      flat_map (fun m1 =>
                  map (fun m2 => Found (whole m1 ++ whole m2)
                                       (groups m1 ++ groups m2) (rest m2))
                      (run r2 (rest m1)))
               (run r1 s)
  | Plus cl => map (fun p => Found (fst p) [] (snd p)) (spans cl s)
  | Repeat n cl =>
      match exactly n cl s with
      | Some (a, b) => [Found a [] b]
      | None => []
      end
  | Quest r1 => run r1 s ++ [Found "" [] s]
  | Capture r1 => map (fun m => Found (whole m) (whole m :: groups m) (rest m)) (run r1 s)
  end.

(** The match at the start of [s], if any. *)
Definition matchAt (r : regex) (s : string) : option found := hd_error (run r s).

(** Unanchored search: the match at the leftmost position that has
    one, with the text skipped before it. *)
Fixpoint search (r : regex) (s : string) : option (string * found) :=
  match matchAt r s with
  | Some m => Some ("", m)
  | None =>
      match s with
      | EmptyString => None
      | String c t =>
          match search r t with
          | Some (skipped, m) => Some (String c skipped, m)
          | None => None
          end
      end
  end.

(** [Regexp.FindString]: the text of the leftmost match, empty when
    there is none. *)
Definition FindString (r : regex) (s : string) : string :=
  match search r s with
  | Some (_, m) => whole m
  | None => ""
  end.

(** [Regexp.FindStringSubmatch]: the match followed by its groups,
    [nil] when there is none. *)
Definition FindStringSubmatch (r : regex) (s : string) : list string :=
  match search r s with
  | Some (_, m) => whole m :: groups m
  | None => []
  end.

(** The loop of [Regexp.FindAllString]: search, deliver the
    match, continue at its end. The patterns of the code match no
    empty text, so the library's handling of empty matches is not
    modelled: the loop stops on one. [fuel] bounds the iterations. *)
Fixpoint allMatches (fuel : nat) (r : regex) (s : string) : list string :=
  match fuel with
  | O => []
  | S f =>
      match search r s with
      | None => []
      | Some (_, m) =>
          match whole m with
          | EmptyString => []
          | _ => whole m :: allMatches f r (rest m)
          end
      end
  end.

(** Every iteration consumes a byte: [length s] iterations find all
    the matches, and one more finds that there is none left. *)
Definition FindAllString (r : regex) (s : string) : list string :=
  allMatches (S (String.length s)) r s.

End Regexp.

(* ===================================================================== *)
(** * Package [model] *)
(* ===================================================================== *)

Module Model.

(** An instant, as [time.Now()] reads it. *)
Definition Time := nat.

(** The text [t.AddDate(0, 0, addDays).Format(layout)]; the calendar
    arithmetic of package [time] is not interpreted. *)
Inductive Stamp := Formatted (layout : string) (t : Time) (addDays : Z).

(** The account types are the five string constants of the package,
    [AccountTypeSavings = "savings"] and so on; each stands here for its
    constant and [typeName] below gives the string. *)
Inductive AccountType :=
| AccountTypeSavings
| AccountTypeChecking
| AccountTypeCredit
| AccountTypeLoan
| AccountTypeInvestment.

(** The error types are the five string constants of the package,
    [ErrorTypeInternalError = "INTERNAL_ERROR"] and so on; [errorTypeName]
    below gives the string. *)
Inductive ErrorType :=
| ErrorTypeInternalError
| ErrorTypeInvalidRequest
| ErrorTypeAccountNotFound
| ErrorTypeServiceUnavailable
| ErrorTypeAuthenticationFailed.

(** [Money] represents a monetary amount. *)
Record Money := { Amount : string }.

(** [Account] represents a bank account ([Type_] is the field [Type],
    which the code only ever sets to one of the five constants). A [nil]
    pointer is [None]. *)
Record Account := {
  ID : string;
  Name : string;
  Type_ : AccountType;
  Balance : Money;
  AvailableBalance : option Money;
  AccountNumber : option string;
  BSB : option string;
  LastUpdated : option Time
}.

(** [Transaction] represents a bank transaction ([TxID], [TxAmount] and
    [TxBalance] are its fields [ID], [Amount] and [Balance]; [Date] is the
    formatted date). *)
Record Transaction := {
  TxID : string;
  Date : Stamp;
  Description : string;
  TxAmount : Money;
  TxBalance : Money;
  Category : option string;
  Merchant : option string
}.

(** [AccountDetails] extends [Account] with transaction information
    ([DetailsAccount] is the embedded [Account]). *)
Record AccountDetails := {
  DetailsAccount : Account;
  Transactions : list Transaction;
  RecentTransactionCount : nat
}.

Definition withLastUpdated (a : Account) (now : Time) : Account :=
  {| ID := ID a; Name := Name a; Type_ := Type_ a; Balance := Balance a;
     AvailableBalance := AvailableBalance a; AccountNumber := AccountNumber a;
     BSB := BSB a; LastUpdated := Some now |}.

(** The values of the constants. *)
Definition typeName (t : AccountType) : string :=
  match t with
  | AccountTypeSavings => "savings"
  | AccountTypeChecking => "checking"
  | AccountTypeCredit => "credit"
  | AccountTypeLoan => "loan"
  | AccountTypeInvestment => "investment"
  end.

Definition errorTypeName (t : ErrorType) : string :=
  match t with
  | ErrorTypeAuthenticationFailed => "AUTHENTICATION_FAILED"
  | ErrorTypeAccountNotFound => "ACCOUNT_NOT_FOUND"
  | ErrorTypeServiceUnavailable => "SERVICE_UNAVAILABLE"
  | ErrorTypeInternalError => "INTERNAL_ERROR"
  | ErrorTypeInvalidRequest => "INVALID_REQUEST"
  end.

End Model.
Import Model.

(* ===================================================================== *)
(** * Errors, the outside world and the effects of the code *)
(* ===================================================================== *)

(** A Go [error] value. The three sentinels are the package-level
    variables of [service]; [==] on errors, as in the handler's [switch],
    is identity, which is equality of constructors here. *)
Inductive error :=
| ErrAccountNotFound
| ErrServiceUnavailable
| ErrAuthenticationFailed
| External (msg : string)                         (* made by the browser engine or the context *)
| Errorf (msg : string)                           (* [fmt.Errorf] of a plain message *)
| ErrorfW (format : string) (cause : error).      (* [fmt.Errorf] with the operand of its [%w] *)

(** What a call returns with its [error]. *)
Inductive result (A : Type) :=
| Ok (a : A)
| Err (e : error).
Arguments Ok {A} a.
Arguments Err {A} e.

(** The requests the code makes to the browser engine (chromedp). *)
Inductive action :=
| Allocate (headless : bool) (userAgent : string)  (* [chromedp.Run] starting the browser *)
| Navigate (url : string)
| WaitVisible (sel : string)
| Click (sel : string)
| SendKeys (sel v : string)
| Sleep (seconds : nat)
| OuterHTML (sel : string)
| CaptureScreenshot.

(** The engine's answer; [payload] is the markup read by [OuterHTML]. *)
Inductive reply :=
| Succeeded (payload : string)
| Failed (e : error).

Inductive logarg :=
| LStr (s : string)
| LInt (n : nat)
| LErr (e : error)
| LStamp (s : Stamp).

(** What the code does that is visible from outside, oldest first. *)
Inductive event :=
| Did (a : action) (r : reply)               (* an engine request and its answer *)
| Now (t : Time)                             (* a reading of [time.Now()] *)
| Log (format : string) (args : list logarg) (* a [logger.Printf]/[Println] *)
| Cancel (ctx : string).                     (* a deferred [cancel()] *)

(** The outside world: how the engine and the clock answer given all
    that happened so far, and the record of what happened. *)
Record World := {
  engine : list event -> action -> reply;
  clock : list event -> Time;
  trace : list event
}.

(** Computations with effects on the world. *)
Definition M (A : Type) : Type := World -> A * World.

Definition ret {A} (a : A) : M A := fun w => (a, w).

Definition bind {A B} (m : M A) (k : A -> M B) : M B :=
  fun w => let (a, w') := m w in k a w'.

Notation "x <- m ;; k" := (bind m (fun x => k))
  (at level 61, m at next level, right associativity).
Notation "m ;;; k" := (bind m (fun _ => k))
  (at level 61, right associativity).

Definition emit (e : event) : M unit :=
  fun w => (tt, {| engine := engine w; clock := clock w; trace := trace w ++ [e] |}).

(** [a.Do(ctx)] for an engine action. *)
Definition perform (a : action) : M reply :=
  fun w => let r := engine w (trace w) a in
           (r, {| engine := engine w; clock := clock w; trace := trace w ++ [Did a r] |}).

(** The [error] of an answer, [nil] on success. *)
Definition errorOf (r : reply) : option error :=
  match r with Succeeded _ => None | Failed e => Some e end.

(** [a.Do(ctx)] seen as its [error] result. *)
Definition do (a : action) : M (option error) :=
  r <- perform a ;;
  ret (errorOf r).

Definition timeNow : M Time :=
  fun w => let t := clock w (trace w) in
           (t, {| engine := engine w; clock := clock w; trace := trace w ++ [Now t] |}).

Definition logf (format : string) (args : list logarg) : M unit := emit (Log format args).

(** The events a computation adds to the trace. *)
Definition isProbe (e : event) : option (string * bool) :=
  match e with
  | Did (WaitVisible sel) (Succeeded _) => Some (sel, true)
  | Did (WaitVisible sel) (Failed _) => Some (sel, false)
  | _ => None
  end.

Definition isClick (e : event) : option string :=
  match e with
  | Did (Click sel) _ => Some sel
  | _ => None
  end.

Definition isCapture (e : event) : bool :=
  match e with
  | Did CaptureScreenshot _ => true
  | _ => false
  end.

Fixpoint collect {A B} (f : A -> option B) (l : list A) : list B :=
  match l with
  | [] => []
  | x :: t => match f x with Some y => y :: collect f t | None => collect f t end
  end.

(** The visibility probes of a trace with their outcomes, the selectors
    clicked, and the number of screenshot captures. *)
Definition probes (tr : list event) : list (string * bool) := collect isProbe tr.
Definition clicks (tr : list event) : list string := collect isClick tr.
Definition captures (tr : list event) : nat := List.length (filter isCapture tr).

(* ===================================================================== *)
(** * Package [service] *)
(* ===================================================================== *)

Module Service.

(** [NABClient] defines the interface for interacting with NAB's
    website. *)
Class NABClient (C : Type) := {
  GetAccounts : C -> M (result (list Account));
  GetAccountTransactions : C -> string -> M (result (list Transaction))
}.

(** [AccountService] defines the interface for account operations. *)
Class AccountService (S : Type) := {
  GetAllAccounts : S -> M (result (list Account));
  GetAccountDetails : S -> string -> M (result AccountDetails)
}.

(** [accountService] implements [AccountService]. *)
Record accountService (C : Type) := { nabClient : C }.
Arguments nabClient {C} _.

Definition NewAccountService {C} (c : C) : accountService C := {| nabClient := c |}.

Section AccountServiceImpl.
Context {C : Type} `{NABClient C}.

Definition accountService_GetAllAccounts (s : accountService C)
  : M (result (list Account)) :=
  r <- GetAccounts (nabClient s) ;;
  match r with
  | Err err => ret (Err err)
  | Ok accounts =>
      (* Update last updated timestamp *)
      now <- timeNow ;;
      ret (Ok (map (fun a => withLastUpdated a now) accounts))
  end.

(** The [range] loop of [GetAccountDetails]: the first account whose
    ID is the requested one, [nil] when there is none. *)
Fixpoint findTarget (accounts : list Account) (accountID : string) : option Account :=
  match accounts with
  | [] => None
  | account :: more =>
      if String.eqb (ID account) accountID then Some account
      else findTarget more accountID
  end.

Definition accountService_GetAccountDetails (s : accountService C) (accountID : string)
  : M (result AccountDetails) :=
  (* First get all accounts to find the requested one *)
  r <- GetAccounts (nabClient s) ;;
  match r with
  | Err err => ret (Err err)
  | Ok accounts =>
      match findTarget accounts accountID with
      | None => ret (Err ErrAccountNotFound)
      | Some targetAccount =>
          (* Get transactions for this account *)
          r' <- GetAccountTransactions (nabClient s) accountID ;;
          match r' with
          | Err err => ret (Err err)
          | Ok transactions =>
              now <- timeNow ;;
              ret (Ok {| DetailsAccount := withLastUpdated targetAccount now;
                         Transactions := transactions;
                         RecentTransactionCount := List.length transactions |})
          end
      end
  end.

#[export] Instance accountService_AccountService : AccountService (accountService C) := {
  GetAllAccounts := accountService_GetAllAccounts;
  GetAccountDetails := accountService_GetAccountDetails
}.
End AccountServiceImpl.

(** [MockNABClient] is a mock implementation of [NABClient] for
    testing. *)
Inductive MockNABClient : Set := mockNABClient.

Definition NewMockNABClient : MockNABClient := mockNABClient.

Definition stringPtr (s : string) : option string := Some s.

Definition MockNABClient_GetAccounts (m : MockNABClient) : M (result (list Account)) :=
  let mockAccounts := [
    {| ID := "12345678";
       Name := "Complete Access Account";
       Type_ := AccountTypeSavings;
       Balance := {| Amount := "2543.67" |};
       AvailableBalance := Some {| Amount := "2543.67" |};
       AccountNumber := stringPtr "****5678";
       BSB := stringPtr "084001";
       LastUpdated := None |};
    {| ID := "87654321";
       Name := "NAB Classic Banking Account";
       Type_ := AccountTypeChecking;
       Balance := {| Amount := "847.23" |};
       AvailableBalance := Some {| Amount := "847.23" |};
       AccountNumber := stringPtr "****4321";
       BSB := stringPtr "084001";
       LastUpdated := None |};
    {| ID := "11223344";
       Name := "NAB Reward Saver";
       Type_ := AccountTypeSavings;
       Balance := {| Amount := "15420.89" |};
       AvailableBalance := Some {| Amount := "15420.89" |};
       AccountNumber := stringPtr "****3344";
       BSB := stringPtr "084001";
       LastUpdated := None |}
  ] in
  ret (Ok mockAccounts).

Definition MockNABClient_GetAccountTransactions (m : MockNABClient) (accountID : string)
  : M (result (list Transaction)) :=
  (* Generate some mock transactions based on account ID *)
  t1 <- timeNow ;;
  t2 <- timeNow ;;
  t3 <- timeNow ;;
  let mockTransactions := [
    {| TxID := "txn_001_" ++ accountID;
       Date := Formatted "2006-01-02" t1 (-1);
       Description := "EFTPOS Purchase - COLES SUPERMARKET";
       TxAmount := {| Amount := "-85.67" |};
       TxBalance := {| Amount := "2543.67" |};
       Category := stringPtr "Groceries";
       Merchant := stringPtr "COLES SUPERMARKET" |};
    {| TxID := "txn_002_" ++ accountID;
       Date := Formatted "2006-01-02" t2 (-2);
       Description := "Direct Credit - SALARY PAYMENT";
       TxAmount := {| Amount := "2500.00" |};
       TxBalance := {| Amount := "2629.34" |};
       Category := stringPtr "Income";
       Merchant := stringPtr "EMPLOYER PTY LTD" |};
    {| TxID := "txn_003_" ++ accountID;
       Date := Formatted "2006-01-02" t3 (-3);
       Description := "ATM Withdrawal - NAB ATM";
       TxAmount := {| Amount := "-100.00" |};
       TxBalance := {| Amount := "129.34" |};
       Category := stringPtr "Cash";
       Merchant := stringPtr "NAB ATM" |}
  ] in
  ret (Ok mockTransactions).

#[export] Instance MockNABClient_NABClient : NABClient MockNABClient := {
  GetAccounts := MockNABClient_GetAccounts;
  GetAccountTransactions := MockNABClient_GetAccountTransactions
}.

End Service.

(* ===================================================================== *)
(** * Package [config] *)
(* ===================================================================== *)

Module Config.

(** [NABConfig] holds NAB-specific configuration. *)
Record NABConfig := {
  Username : string;
  Password : string;
  BaseURL : string;
  LoginURL : string;
  AccountsURL : string;
  BrowserTimeout : nat;
  BrowserHeadless : bool;
  ScreenshotPath : string;
  UserAgent : string
}.

(** [ServerConfig] holds server-related configuration. *)
Record ServerConfig := { Port : string }.

(** [Config] holds all application configuration. *)
Record Config := {
  Server : ServerConfig;
  NAB : NABConfig
}.

(** The environment as [os.Getenv] reads it: the value of a variable,
    empty when it is not set. *)
Definition Environment := string -> string.

(** [time.Second], a [time.Duration] being a number of nanoseconds. *)
Definition Second : nat := 1000000000.

Section Loading.
Variable Getenv : Environment.
(** [time.ParseDuration], [None] for its error; the durations read are
    taken to be non-negative. *)
Variable ParseDuration : string -> option nat.

(** [getEnvOrDefault] gets environment variable value or returns
    default. *)
Definition getEnvOrDefault (key defaultValue : string) : string :=
  let value := Getenv key in
  if negb (String.eqb value "") then value else defaultValue.

(** [parseDurationOrDefault] parses duration from env var or returns
    default. *)
Definition parseDurationOrDefault (key : string) (defaultValue : nat) : nat :=
  let value := Getenv key in
  if negb (String.eqb value "") then
    match ParseDuration value with
    | Some duration => duration
    | None => defaultValue
    end
  else defaultValue.

(** [parseBoolOrDefault] parses boolean from env var or returns
    default. *)
Definition parseBoolOrDefault (key : string) (defaultValue : bool) : bool :=
  let value := Getenv key in
  if negb (String.eqb value "") then
    match ParseBool value with
    | Some boolean => boolean
    | None => defaultValue
    end
  else defaultValue.

(** [LoadConfig] loads configuration from environment variables. *)
Definition LoadConfig : result Config :=
  let config :=
    {| Server := {| Port := getEnvOrDefault "PORT" "8080" |};
       NAB :=
         {| Username := Getenv "NAB_USERNAME";
            Password := Getenv "NAB_PASSWORD";
            BaseURL := getEnvOrDefault "NAB_BASE_URL" "https://www.nab.com.au";
            LoginURL := getEnvOrDefault "NAB_LOGIN_URL"
              "https://www.nab.com.au/personal/online-banking/nab-internet-banking";
            AccountsURL := getEnvOrDefault "NAB_ACCOUNTS_URL"
              "/internetbanking/AccountBalance.jsp";
            BrowserTimeout := parseDurationOrDefault "BROWSER_TIMEOUT" (30 * Second);
            BrowserHeadless := parseBoolOrDefault "BROWSER_HEADLESS" true;
            ScreenshotPath := getEnvOrDefault "BROWSER_SCREENSHOT_PATH" "/app/screenshots";
            UserAgent := getEnvOrDefault "BROWSER_USER_AGENT"
              "Mozilla/5.0 (X11; Linux x86_64) AppleWebKit/537.36 (KHTML, like Gecko) Chrome/91.0.4472.124 Safari/537.36" |} |} in
  (* Validate required fields *)
  if String.eqb (Username (NAB config)) "" then
    Err (Errorf "NAB_USERNAME environment variable is required")
  else if String.eqb (Password (NAB config)) "" then
    Err (Errorf "NAB_PASSWORD environment variable is required")
  else
    Ok config.

End Loading.

End Config.
Import Config.

(* ===================================================================== *)
(** * Package [browser] *)
(* ===================================================================== *)

Module Browser.
Import Strings Regexp.
Local Open Scope string_scope.

(** [NABClient] implements the [NABClient] interface using chromedp;
    what its logger prints goes to the trace. *)
Record NABClient := { config : NABConfig }.

Definition NewNABClient (cfg : NABConfig) : NABClient := {| config := cfg |}.

(** [takeScreenshot] captures a screenshot for debugging. The file name
    joins the screenshot path, the suffix and the timestamp; it is
    logged by its three parts. *)
Definition takeScreenshot (c : NABClient) (suffix : string) : M unit :=
  t <- timeNow ;;
  let timestamp := Formatted "20060102_150405" t 0 in
  err <- do CaptureScreenshot ;;
  match err with
  | None => logf "Screenshot captured: %s"
                 [LStr (ScreenshotPath (config c)); LStr suffix; LStamp timestamp]
  | Some _ => ret tt
  end.

(** A double quote, and the attribute test [[name op "value"]] of a
    selector. *)
Definition dquote : string := String (ascii_of_nat 34) EmptyString.

Definition attr (name op value : string) : string :=
  "[" ++ name ++ op ++ dquote ++ value ++ dquote ++ "]".

(** The [range] loop shared by [clickLoginButton] and
    [selectInternetBanking]: probe each selector in turn and click the
    first one that becomes visible. [Some r] is the loop returning [r]
    from the action, [None] the loop running to its end. *)
Fixpoint clickFirstVisible (foundFormat failedFormat : string) (selectors : list string)
  : M (option (option error)) :=
  match selectors with
  | [] => ret None
  | selector :: more =>
      err <- do (WaitVisible selector) ;;
      match err with
      | None =>
          logf foundFormat [LStr selector] ;;;
          r <- do (Click selector) ;;
          ret (Some r)
      | Some e =>
          logf failedFormat [LStr selector; LErr e] ;;;
          clickFirstVisible foundFormat failedFormat more
      end
  end.

(** Common selectors for the Login button. *)
Definition loginButtonSelectors : list string := [
  "button" ++ attr "class" "*=" "login";
  "a" ++ attr "class" "*=" "login";
  attr "role" "=" "button" ++ attr "class" "*=" "login";
  "button" ++ attr "title" "*=" "Login";
  "a" ++ attr "title" "*=" "Login";
  ".header button";
  ".navigation button";
  "button";
  "a" ++ attr "href" "*=" "login"
].

(** [clickLoginButton] clicks the Login button in the header. *)
Definition clickLoginButton (c : NABClient) : M (option error) :=
  logf "Clicking Login button..." [] ;;;
  (* Try each selector to find the login button *)
  r <- clickFirstVisible "Found login button with selector: %s"
                         "Selector failed: %s - %v" loginButtonSelectors ;;
  match r with
  | Some res => ret res
  | None =>
      (* Take screenshot for debugging *)
      takeScreenshot c "login_button_not_found" ;;;
      ret (Some (Errorf "could not find login button"))
  end.

(** Common selectors for Internet Banking link. *)
Definition internetBankingSelectors : list string := [
  "a" ++ attr "href" "*=" "internet-banking";
  "a" ++ attr "href" "*=" "internetbanking";
  "a" ++ attr "title" "*=" "Internet Banking";
  attr "role" "=" "menuitem" ++ attr "href" "*=" "banking";
  ".dropdown a" ++ attr "href" "*=" "banking";
  ".menu a" ++ attr "href" "*=" "banking";
  "a" ++ attr "href" "*=" "personal/online-banking"
].

(** [selectInternetBanking] selects Internet Banking from the dropdown
    menu. *)
Definition selectInternetBanking (c : NABClient) : M (option error) :=
  logf "Selecting Internet Banking from dropdown..." [] ;;;
  (* Wait for dropdown menu to appear *)
  do (Sleep 1) ;;;
  r <- clickFirstVisible "Found Internet Banking link with selector: %s"
                         "Internet Banking selector failed: %s - %v"
                         internetBankingSelectors ;;
  match r with
  | Some res => ret res
  | None =>
      takeScreenshot c "internet_banking_not_found" ;;;
      ret (Some (Errorf "could not find Internet Banking link in dropdown"))
  end.

(** The three [range] loops of [performLogin]: the first selector that
    becomes visible, the empty string when none does. *)
Fixpoint firstVisible (selectors : list string) : M string :=
  match selectors with
  | [] => ret ""
  | selector :: more =>
      err <- do (WaitVisible selector) ;;
      match err with
      | None => ret selector
      | Some _ => firstVisible more
      end
  end.

Definition loginSelectors : list string := [
  "input" ++ attr "name" "=" "userid";
  "input" ++ attr "id" "=" "userid";
  "input" ++ attr "type" "=" "text" ++ attr "placeholder" "*=" "ID";
  "input" ++ attr "type" "=" "text" ++ attr "placeholder" "*=" "username"
].

Definition passwordSelectors : list string := [
  "input" ++ attr "name" "=" "password";
  "input" ++ attr "id" "=" "password";
  "input" ++ attr "type" "=" "password"
].

Definition submitSelectors : list string := [
  "input" ++ attr "type" "=" "submit";
  "button" ++ attr "type" "=" "submit";
  "button" ++ attr "class" "*=" "submit";
  "input" ++ attr "value" "*=" "Log";
  "button" ++ attr "class" "*=" "login"
].

(** [chromedp.Tasks.Do] for actions that only return an error. *)
Fixpoint doAll (actions : list action) : M (option error) :=
  match actions with
  | [] => ret None
  | a :: more =>
      err <- do a ;;
      match err with
      | Some e => ret (Some e)
      | None => doAll more
      end
  end.

(** [performLogin] performs the login sequence. *)
Definition performLogin (c : NABClient) : M (option error) :=
  (* Find username field *)
  usernameSelector <- firstVisible loginSelectors ;;
  if String.eqb usernameSelector "" then
    ret (Some (Errorf "could not find username input field"))
  else
  (* Find password field *)
  passwordSelector <- firstVisible passwordSelectors ;;
  if String.eqb passwordSelector "" then
    ret (Some (Errorf "could not find password input field"))
  else
  (* Find submit button *)
  submitSelector <- firstVisible submitSelectors ;;
  if String.eqb submitSelector "" then
    ret (Some (Errorf "could not find submit button"))
  else
  (* Perform login *)
  doAll [ SendKeys usernameSelector (Username (config c));
          SendKeys passwordSelector (Password (config c));
          Click submitSelector ].

Definition digits : charclass := [("0", "9")]%char.
Definition digitsOrComma : charclass := [("0", "9"); (",", ",")]%char.

(** [\$[\d,]+\.[\d]{2}] *)
Definition balanceRegex : regex :=
  Cat (Lit "$") (Cat (Plus digitsOrComma) (Cat (Lit ".") (Repeat 2 digits))).

(** The [range] loop of [extractAccountsGeneric] from index [i] on. *)
Fixpoint accountsFrom (i : nat) (balances : list string) : list Account :=
  match balances with
  | [] => []
  | balance :: more =>
      (* Clean up balance string *)
      let cleanBalance := ReplaceAll (TrimPrefix balance "$") "," "" in
      {| ID := "account_" ++ itoa (i + 1);
         Name := "NAB Account " ++ itoa (i + 1);
         Type_ := AccountTypeSavings;
         Balance := {| Amount := cleanBalance |};
         AvailableBalance := Some {| Amount := cleanBalance |};
         AccountNumber := None;
         BSB := None;
         LastUpdated := None |}
      :: accountsFrom (S i) more
  end.

(** What [extractAccountsGeneric] makes of the page source. *)
Definition accountsOfSource (pageSource : string) : list Account :=
  let balances := FindAllString balanceRegex pageSource in
  accountsFrom 0 balances.

(** [extractAccountsGeneric] tries to extract accounts using a more
    general approach. The error of reading the markup is dropped and
    [pageSource] is then still empty. *)
Definition extractAccountsGeneric (c : NABClient) : M (list Account) :=
  r <- perform (OuterHTML "html") ;;
  let pageSource := match r with Succeeded html => html | Failed _ => "" end in
  ret (accountsOfSource pageSource).

(** An action of the [chromedp.Run] sequence in [GetAccounts]; it may
    assign the local variable [accounts] it has a pointer to. *)
Definition Task := list Account -> M (option error * list Account).

Definition task (m : M (option error)) : Task :=
  fun accounts => err <- m ;; ret (err, accounts).

(** [scrapeAccounts] extracts account information from the page. *)
Definition scrapeAccounts (c : NABClient) : Task :=
  fun _ =>
    (* Wait a moment for the page to load after login *)
    do (Sleep 3) ;;;
    logf "Extracting accounts from page source..." [] ;;;
    foundAccounts <- extractAccountsGeneric c ;;
    ret (None, foundAccounts).

(** [chromedp.Tasks.Do]: the actions in order, up to the first error. *)
Fixpoint runTasks (tasks : list Task) (accounts : list Account)
  : M (option error * list Account) :=
  match tasks with
  | [] => ret (None, accounts)
  | t :: more =>
      r <- t accounts ;;
      match fst r with
      | Some e => ret (Some e, snd r)
      | None => runTasks more (snd r)
      end
  end.

(** [chromedp.Run]: start the browser of the context, then do the
    actions. *)
Definition Run (c : NABClient) (tasks : list Task) (accounts : list Account)
  : M (option error * list Account) :=
  err <- do (Allocate (BrowserHeadless (config c)) (UserAgent (config c))) ;;
  match err with
  | Some e => ret (Some e, accounts)
  | None => runTasks tasks accounts
  end.

(** The deferred [cancel()] calls of [GetAccounts], last deferred
    first. *)
Definition deferred : M unit :=
  emit (Cancel "timeoutCtx") ;;; emit (Cancel "browserCtx") ;;; emit (Cancel "allocCtx").

(** [GetAccounts] scrapes account information from NAB website. *)
Definition GetAccounts (c : NABClient) : M (result (list Account)) :=
  logf "Starting NAB account scraping..." [] ;;;
  (* Perform login and scraping *)
  r <- Run c [
         (* Navigate to NAB homepage *)
         task (do (Navigate (BaseURL (config c))));
         task (do (WaitVisible "body"));
         (* Click Login button in header *)
         task (clickLoginButton c);
         (* Select Internet Banking from dropdown *)
         task (selectInternetBanking c);
         (* Perform login *)
         task (performLogin c);
         (* Wait for successful login and navigate to accounts *)
         task (do (WaitVisible "body"));
         task (do (Sleep 3));
         (* Navigate to accounts page or scrape from dashboard *)
         scrapeAccounts c
       ] [] ;;
  match fst r with
  | Some err =>
      (* Take screenshot for debugging *)
      takeScreenshot c "error" ;;;
      deferred ;;;
      ret (Err (ErrorfW "failed to scrape NAB accounts: %w" err))
  | None =>
      logf "Successfully scraped %d accounts" [LInt (List.length (snd r))] ;;;
      deferred ;;;
      ret (Ok (snd r))
  end.

(** [GetAccountTransactions] scrapes transaction data for a specific
    account. *)
Definition GetAccountTransactions (c : NABClient) (accountID : string)
  : M (result (list Transaction)) :=
  logf "Scraping transactions for account %s..." [LStr accountID] ;;;
  (* For now, return empty transactions *)
  ret (Ok []).

#[export] Instance NABClient_NABClient : Service.NABClient NABClient := {
  Service.GetAccounts := GetAccounts;
  Service.GetAccountTransactions := GetAccountTransactions
}.

(** ** Helper functions for extracting specific data from text *)

Section Extractors.
(** [strings.Map(unicode.ToLower, s)], see [Strings.ToLower]. *)
Variable unicodeLower : string -> string.

Definition extractAccountType (text : string) : AccountType :=
  let textLower := ToLower unicodeLower text in
  if Contains textLower "saver" || Contains textLower "savings" then
    AccountTypeSavings
  else if Contains textLower "credit" then
    AccountTypeCredit
  else if Contains textLower "loan" then
    AccountTypeLoan
  else if Contains textLower "investment" then
    AccountTypeInvestment
  else
    AccountTypeChecking. (* Default *)
End Extractors.

(** [\$?([\d,]+\.[\d]{2})] *)
Definition amountRegex : regex :=
  Cat (Quest (Lit "$"))
      (Capture (Cat (Plus digitsOrComma) (Cat (Lit ".") (Repeat 2 digits)))).

Definition extractBalance (text : string) : string :=
  (* Look for currency amounts *)
  let matches := FindStringSubmatch amountRegex text in
  if (1 <? List.length matches)%nat then
    ReplaceAll (nth 1 matches "") "," ""
  else
    "".

(** [\*{4}(\d{4})] *)
Definition maskedRegex : regex :=
  Cat (Repeat 4 [("*", "*")]%char) (Capture (Repeat 4 digits)).

Definition extractAccountNumber (text : string) : string :=
  (* Look for masked account numbers *)
  let matches := FindStringSubmatch maskedRegex text in
  if (1 <? List.length matches)%nat then
    "****" ++ nth 1 matches ""
  else
    "".

(** [(\d{3})-?(\d{3})] *)
Definition bsbRegex : regex :=
  Cat (Capture (Repeat 3 digits)) (Cat (Quest (Lit "-")) (Capture (Repeat 3 digits))).

Definition extractBSB (text : string) : string :=
  (* Look for BSB patterns (6 digits, often with hyphen) *)
  let matches := FindStringSubmatch bsbRegex text in
  if (2 <? List.length matches)%nat then
    nth 1 matches "" ++ nth 2 matches ""
  else
    "".

(** [\d{6}-\d{8}], [\d{8}] and [\d{10}]: the NAB format, a simple
    8-digit number and a 10-digit number. *)
Definition accountIDPatterns : list regex := [
  Cat (Repeat 6 digits) (Cat (Lit "-") (Repeat 8 digits));
  Repeat 8 digits;
  Repeat 10 digits
].

(** The [range] loop of [extractAccountID]: the match of the first
    pattern that has one. *)
Fixpoint firstPatternMatch (patterns : list regex) (text fallback : string) : string :=
  match patterns with
  | [] => fallback
  | re :: more =>
      let found := FindString re text in
      if negb (String.eqb found "") then found
      else firstPatternMatch more text fallback
  end.

Definition extractAccountID (text fallback : string) : string :=
  (* Look for account number patterns *)
  firstPatternMatch accountIDPatterns text fallback.

(** Common NAB account name patterns. *)
Definition accountNames : list string := [
  "Complete Access Account";
  "NAB Classic Banking";
  "NAB Reward Saver";
  "Premium Cash Management";
  "Business Banking Account"
].

(** The line feed, the separator of the lines. *)
Definition newline : string := String (ascii_of_nat 10) EmptyString.

Section NameExtractor.
(** [strings.Map(unicode.ToLower, s)], see [Strings.ToLower], and the
    Unicode paths of [Strings.TrimSpace]. *)
Variable unicodeLower : string -> string.
Variables unicodeTrim unicodeTrimRight : string -> string.

(** The first [range] loop of [extractAccountName]. *)
Fixpoint knownName (names : list string) (textLower : string) : option string :=
  match names with
  | [] => None
  | name :: more =>
      if Contains textLower (ToLower unicodeLower name) then Some name
      else knownName more textLower
  end.

(** The second [range] loop of [extractAccountName]. *)
Fixpoint accountLine (lines : list string) : option string :=
  match lines with
  | [] => None
  | line :: more =>
      let line := TrimSpace unicodeTrim unicodeTrimRight line in
      if (5 <? String.length line)%nat && (String.length line <? 50)%nat
         && Contains (ToLower unicodeLower line) "account"
      then Some line
      else accountLine more
  end.

Definition extractAccountName (text : string) : string :=
  let textLower := ToLower unicodeLower text in
  match knownName accountNames textLower with
  | Some name => name
  | None =>
      (* Generic extraction *)
      let lines := Split text newline in
      match accountLine lines with
      | Some line => line
      | None => "NAB Account"
      end
  end.

End NameExtractor.

End Browser.


(* ===================================================================== *)
(** * Package [handler] *)
(* ===================================================================== *)

Module Handler.
Import Service.
Local Open Scope string_scope.

(** [AccountsHandler] handles account-related HTTP requests; what its
    logger prints goes to the trace. *)
Record AccountsHandler (S : Type) := { accountService : S }.
Arguments accountService {S} _.

Definition NewAccountsHandler {S} (s : S) : AccountsHandler S := {| accountService := s |}.

(** What the handlers read of a request: the method, the path and the
    [accountId] route variable (empty when the route has none). *)
Record Request := {
  Method : string;
  Path : string;
  accountId : string
}.

(** The response bodies of package [model]: [AccountsResponse],
    [AccountDetailsResponse] and [ErrorResponse]. *)
Inductive Body :=
| AccountsResponse (Accounts : list Account) (RetrievedAt : Time) (Count : nat)
| AccountDetailsResponse (Account : AccountDetails)
| ErrorResponse (Error : ErrorType) (Message : string) (Details : option error)
                (Timestamp : Time).

(** What is written to the [http.ResponseWriter]: the status code and
    the value encoded as JSON. *)
Record Response := {
  StatusCode : nat;
  Data : Body
}.

Definition StatusOK := 200.
Definition StatusBadRequest := 400.
Definition StatusUnauthorized := 401.
Definition StatusNotFound := 404.
Definition StatusInternalServerError := 500.
Definition StatusServiceUnavailable := 503.

(** [writeJSONResponse] writes a JSON response. *)
Definition writeJSONResponse (statusCode : nat) (data : Body) : M Response :=
  ret {| StatusCode := statusCode; Data := data |}.

(** [writeErrorResponse] writes an error response. *)
Definition writeErrorResponse (statusCode : nat) (errorType : ErrorType)
           (message : string) (details : option error) : M Response :=
  now <- timeNow ;;
  writeJSONResponse statusCode (ErrorResponse errorType message details now).

Section Handlers.
Context {S : Type} `{AccountService S}.

(** [ListAccounts] handles GET /api/v1/accounts. *)
Definition ListAccounts (h : AccountsHandler S) (r : Request) : M Response :=
  logf "ListAccounts: %s %s" [LStr (Method r); LStr (Path r)] ;;;
  res <- GetAllAccounts (accountService h) ;;
  match res with
  | Err err =>
      logf "Failed to get accounts: %v" [LErr err] ;;;
      writeErrorResponse StatusInternalServerError ErrorTypeInternalError
                         "Failed to retrieve accounts" (Some err)
  | Ok accounts =>
      now <- timeNow ;;
      writeJSONResponse StatusOK (AccountsResponse accounts now (List.length accounts))
  end.

(** [GetAccount] handles GET /api/v1/accounts/{accountId}. *)
Definition GetAccount (h : AccountsHandler S) (r : Request) : M Response :=
  let accountID := accountId r in
  logf "GetAccount: %s %s (ID: %s)" [LStr (Method r); LStr (Path r); LStr accountID] ;;;
  if String.eqb accountID "" then
    writeErrorResponse StatusBadRequest ErrorTypeInvalidRequest
                       "Account ID is required" None
  else
  res <- GetAccountDetails (accountService h) accountID ;;
  match res with
  | Err err =>
      match err with
      | ErrAccountNotFound =>
          writeErrorResponse StatusNotFound ErrorTypeAccountNotFound
                             "Account not found" None
      | ErrServiceUnavailable =>
          writeErrorResponse StatusServiceUnavailable ErrorTypeServiceUnavailable
                             "Service temporarily unavailable" (Some err)
      | ErrAuthenticationFailed =>
          writeErrorResponse StatusUnauthorized ErrorTypeAuthenticationFailed
                             "Authentication failed" None
      | _ =>
          logf "Failed to get account details: %v" [LErr err] ;;;
          writeErrorResponse StatusInternalServerError ErrorTypeInternalError
                             "Failed to retrieve account details" (Some err)
      end
  | Ok accountDetails =>
      writeJSONResponse StatusOK (AccountDetailsResponse accountDetails)
  end.

End Handlers.

End Handler.


(* ===================================================================== *)
(** * The server program *)
(* ===================================================================== *)

Module Main.
Import Service Handler.
Local Open Scope string_scope.

(** The value of the interface variable [nabClient]: one of the two
    implementations, to which the calls are dispatched. *)
Inductive client :=
| UseMock (m : MockNABClient)
| UseBrowser (c : Browser.NABClient).

#[export] Instance client_NABClient : NABClient client := {
  GetAccounts c :=
    match c with
    | UseMock m => MockNABClient_GetAccounts m
    | UseBrowser b => Browser.GetAccounts b
    end;
  GetAccountTransactions c accountID :=
    match c with
    | UseMock m => MockNABClient_GetAccountTransactions m accountID
    | UseBrowser b => Browser.GetAccountTransactions b accountID
    end
}.

(** Choose client based on environment. *)
Definition chooseClient (cfg : Config) : M client :=
  if String.eqb (Username (NAB cfg)) "test" && String.eqb (Password (NAB cfg)) "test" then
    (* Use mock client for testing *)
    logf "Using mock NAB client for testing" [] ;;;
    ret (UseMock NewMockNABClient)
  else
    (* Use real browser client *)
    logf "Using real NAB browser client" [] ;;;
    ret (UseBrowser (Browser.NewNABClient (NAB cfg))).

(** The start of [main]: the configuration is loaded, the client chosen
    and the handler built on the service; [Err] is [log.Fatalf] ending
    the program. *)
Definition startup (Getenv : Environment) (ParseDuration : string -> option nat)
  : M (result (AccountsHandler (Service.accountService client))) :=
  match LoadConfig Getenv ParseDuration with
  | Err err =>
      logf "Failed to load configuration: %v" [LErr err] ;;;
      ret (Err err)
  | Ok cfg =>
      nabClient <- chooseClient cfg ;;
      let accountService := NewAccountService nabClient in
      let accountsHandler := NewAccountsHandler accountService in
      logf "Server starting on port %s" [LStr (Port (Server cfg))] ;;;
      logf "API endpoints:" [] ;;;
      logf "  GET /health - Health check" [] ;;;
      logf "  GET /api/v1/accounts - List all accounts" [] ;;;
      logf "  GET /api/v1/accounts/{id} - Get account details" [] ;;;
      ret (Ok accountsHandler)
  end.

End Main.

(* ===================================================================== *)
(** * Vocabulary of the statements *)
(* ===================================================================== *)

(** The world after the events [new] have happened. *)
Definition after (w : World) (new : list event) : World :=
  {| engine := engine w; clock := clock w; trace := trace w ++ new |}.

(** [yields m w a new]: started in [w], the computation [m] returns [a],
    and what it did is exactly [new]. *)
Definition yields {A} (m : M A) (w : World) (a : A) (new : list event) : Prop :=
  m w = (a, after w new).

(** The engine requests of a trace, in order. *)
Definition isRequest (e : event) : option action :=
  match e with
  | Did a _ => Some a
  | _ => None
  end.

Definition requests (tr : list event) : list action := collect isRequest tr.

(** The [n]-th candidate, when there is one. *)
Definition candidate (selectors : list string) (n : nat) : option string :=
  nth_error selectors n.

(** What the probes of a resolution over [selectors] look like when it
    stops at index [n]: the first [n] candidates failed, and the [n]-th,
    if there is one, succeeded. *)
Definition stopsAt (selectors : list string) (n : nat) (new : list event) : Prop :=
  n <= List.length selectors /\
  probes new = map (fun s => (s, false)) (firstn n selectors)
               ++ match candidate selectors n with
                  | Some s => [(s, true)]
                  | None => []
                  end.

(** Every visibility probe of the trace failed. *)
Definition allFailed (tr : list event) : bool :=
  forallb (fun p => negb (snd p)) (probes tr).

(** The engine always carries out the request [a]. *)
Definition alwaysDone (w : World) (a : action) : Prop :=
  forall tr, exists p, engine w tr a = Succeeded p.

(** A task of the [chromedp.Run] sequence that captures at most one
    screenshot, and none when it succeeds. *)
Definition quietTask (t : Browser.Task) : Prop :=
  forall accounts w, exists r new,
    yields (t accounts) w r new /\
    captures new <= 1 /\
    (fst r = None -> captures new = 0).

(** The site lets the session start: the browser starts, the base URL
    loads, the document body shows, and clicks go through. *)
Definition reachable (w : World) (c : Browser.NABClient) : Prop :=
  alwaysDone w (Allocate (BrowserHeadless (Browser.config c)) (UserAgent (Browser.config c))) /\
  alwaysDone w (Navigate (BaseURL (Browser.config c))) /\
  alwaysDone w (WaitVisible "body") /\
  forall sel, alwaysDone w (Click sel).

(** The engine always shows one of [selectors]. *)
Definition shows (w : World) (selectors : list string) : Prop :=
  exists sel, In sel selectors /\ alwaysDone w (WaitVisible sel).

(** The engine never shows any of [selectors], whatever happened before. *)
Definition neverVisible (w : World) (selectors : list string) : Prop :=
  forall tr sel, In sel selectors -> exists e, engine w tr (WaitVisible sel) = Failed e.

(** One of the error values declared by package [service]. *)
Definition declaredKind (e : error) : Prop :=
  e = ErrAccountNotFound \/ e = ErrServiceUnavailable \/ e = ErrAuthenticationFailed.

(** ** The classification of the specification

    "A fixed ordered keyword table (savings-related terms, then credit,
    then loan, then investment); first table match wins; absence of any
    match defaults to checking." *)
Definition keywordTable : list (list string * AccountType) :=
  [ (["saver"; "savings"]%string, AccountTypeSavings);
    (["credit"]%string, AccountTypeCredit);
    (["loan"]%string, AccountTypeLoan);
    (["investment"]%string, AccountTypeInvestment) ].

Fixpoint classifyByTable (table : list (list string * AccountType)) (lowered : string)
  : AccountType :=
  match table with
  | [] => AccountTypeChecking
  | (keywords, type) :: more =>
      if existsb (Strings.Contains lowered) keywords then type
      else classifyByTable more lowered
  end.

(** ** Currency amounts *)

Definition isDigit (c : ascii) : bool := Regexp.inClass Browser.digits c.
Definition isDigitOrComma (c : ascii) : bool := Regexp.inClass Browser.digitsOrComma c.

Fixpoint allBytes (p : ascii -> bool) (s : string) : bool :=
  match s with
  | EmptyString => true
  | String c t => p c && allBytes p t
  end.

(** The two digits after the decimal point. *)
Definition cents (d1 d2 : ascii) : string := String d1 (String d2 EmptyString).

(** An occurrence of the currency-amount pattern of the page scan: the
    dollar sign, one or more digits or commas, a dot and two digits. *)
Definition isAmount (m : string) : Prop :=
  exists body d1 d2,
    m = ("$" ++ body ++ "." ++ cents d1 d2)%string /\
    body <> EmptyString /\
    allBytes isDigitOrComma body = true /\
    isDigit d1 = true /\ isDigit d2 = true.

(** An occurrence starts the text [s]. *)
Definition amountPrefix (m s : string) : Prop :=
  isAmount m /\ exists post, s = (m ++ post)%string.

(** [Occurrences s ms]: [ms] are the occurrences of the pattern in [s]
    in the order they occur, each the leftmost one in what follows the
    one before. *)
Inductive Occurrences : string -> list string -> Prop :=
| occ_none s :
    (forall pre t m, s = (pre ++ t)%string -> ~ amountPrefix m t) ->
    Occurrences s []
| occ_next s pre m post ms :
    s = (pre ++ m ++ post)%string ->
    isAmount m ->
    (forall pre1 pre2 m',
        pre = (pre1 ++ pre2)%string -> pre2 <> EmptyString ->
        ~ amountPrefix m' (pre2 ++ m ++ post)%string) ->
    Occurrences post ms ->
    Occurrences s (m :: ms).

(** The longest run of class bytes at the start of [s], and what
    follows it. *)
Fixpoint spanClass (cl : Regexp.charclass) (s : string) : string * string :=
  match s with
  | EmptyString => (EmptyString, EmptyString)
  | String c t =>
      if Regexp.inClass cl c
      then (String c (fst (spanClass cl t)), snd (spanClass cl t))
      else (EmptyString, s)
  end.

(** A dot and two digits at the start of [s]. *)
Definition fractionAt (s : string) : option (string * string) :=
  match s with
  | String dot (String d1 (String d2 rest)) =>
      if Ascii.eqb "."%char dot && isDigit d1 && isDigit d2
      then Some (String dot (cents d1 d2), rest)
      else None
  | _ => None
  end.

(** Digits or commas, a dot and two digits at the start of [s]. *)
Definition numberAt (s : string) : option (string * string) :=
  match spanClass Browser.digitsOrComma s with
  | (String c body, after_body) =>
      match fractionAt after_body with
      | Some (fraction, rest) => Some ((String c body ++ fraction)%string, rest)
      | None => None
      end
  | (EmptyString, _) => None
  end.

(** ** Events of a trace *)

(** The keys typed, with the selector they were typed into. *)
Definition isTyped (e : event) : option (string * string) :=
  match e with
  | Did (SendKeys sel v) _ => Some (sel, v)
  | _ => None
  end.

Definition typed (tr : list event) : list (string * string) := collect isTyped tr.

(** The strings among the arguments of a log call, and the strings an
    event gives to the logger. *)
Definition strings (args : list logarg) : list string :=
  collect (fun a => match a with LStr s => Some s | _ => None end) args.

Definition logged (e : event) : list string :=
  match e with
  | Log _ args => strings args
  | _ => []
  end.

(** The event gives the logger only strings of [allowed]. *)
Definition logsOnly (allowed : list string) (e : event) : Prop :=
  incl (logged e) allowed.

Definition isCancel (e : event) : bool :=
  match e with
  | Cancel _ => true
  | _ => false
  end.

(** Whatever the world, every event of the computation satisfies [P]. *)
Definition always {A} (P : event -> Prop) (m : M A) : Prop :=
  forall w, exists a new, yields m w a new /\ Forall P new.

(** The strings the scraping client may give to its logger: candidate
    selectors, the tags of the screenshots and the screenshot path. *)
Definition loggable (c : Browser.NABClient) : list string :=
  Browser.loginButtonSelectors ++ Browser.internetBankingSelectors
  ++ [ScreenshotPath (Browser.config c);
      "login_button_not_found"; "internet_banking_not_found"; "error"]%string.

(** A site on which the whole login sequence goes through. *)
Definition cooperative (w : World) (c : Browser.NABClient) : Prop :=
  reachable w c /\
  shows w Browser.loginButtonSelectors /\
  shows w Browser.internetBankingSelectors /\
  shows w Browser.loginSelectors /\
  shows w Browser.passwordSelectors /\
  shows w Browser.submitSelectors /\
  (forall sel v, alwaysDone w (SendKeys sel v)) /\
  alwaysDone w (Sleep 3).

(** The first number (digits or commas, a dot, two digits) of a text,
    reading from the left. *)
Fixpoint firstNumber (s : string) : option string :=
  match numberAt s with
  | Some (n, _) => Some n
  | None =>
      match s with
      | EmptyString => None
      | String _ t => firstNumber t
      end
  end.

(** ** Digits and occurrences *)

(** [n] digits. *)
Definition digitsOf (n : nat) (d : string) : Prop :=
  String.length d = n /\ allBytes isDigit d = true.

(** [sub] occurs in [s]. *)
Definition occursIn (sub s : string) : Prop :=
  exists pre post, s = (pre ++ sub ++ post)%string.

(** The event is no request to the browser engine. *)
Definition noRequest (e : event) : Prop := isRequest e = None.

(** ** Order of the login sequence *)

(** The trace holds a successful load of [url], and a successful click
    on one of [selectors]. *)
Definition navigated (url : string) (tr : list event) : Prop :=
  exists p, In (Did (Navigate url) (Succeeded p)) tr.

Definition clicked (selectors : list string) (tr : list event) : Prop :=
  exists sel p, In sel selectors /\ In (Did (Click sel) (Succeeded p)) tr.

(** A task of the [chromedp.Run] sequence that types nothing and, when
    it passes, leaves a trace with [H]. *)
Definition passes (t : Browser.Task) (H : list event -> Prop) : Prop :=
  forall accounts w, exists r new,
    yields (t accounts) w r new /\ typed new = [] /\ (fst r = None -> H new).

(** All the typing of the trace is in one stretch, and what comes
    before that stretch has [G]. *)
Definition typedAfter (G : list event -> Prop) (new : list event) : Prop :=
  typed new = [] \/
  exists before login rest,
    new = before ++ login ++ rest /\ typed before = [] /\ typed rest = [] /\ G before.

(** The requests of the scraping client's script: starting the browser
    as configured, loading the base URL, probing, clicking and typing,
    sleeping one or three seconds, reading the markup of the [html]
    element and capturing a screenshot. *)
Definition scrapingRequest (c : Browser.NABClient) (a : action) : Prop :=
  match a with
  | Allocate headless userAgent =>
      headless = BrowserHeadless (Browser.config c) /\
      userAgent = UserAgent (Browser.config c)
  | Navigate url => url = BaseURL (Browser.config c)
  | Sleep seconds => seconds = 1 \/ seconds = 3
  | OuterHTML sel => sel = "html"
  | _ => True
  end.

(** ** Resolution of a role *)

(** The probes of a resolution over [selectors] that stops at index [n]:
    the first [n] candidates failed, and the [n]-th, if there is one,
    succeeded. *)
Definition resolution (selectors : list string) (n : nat) : list (string * bool) :=
  map (fun s => (s, false)) (firstn n selectors)
  ++ match candidate selectors n with
     | Some s => [(s, true)]
     | None => []
     end.

(** The engine requests of a trace with their outcomes. *)
Definition isOutcome (e : event) : option (action * bool) :=
  match e with
  | Did a (Succeeded _) => Some (a, true)
  | Did a (Failed _) => Some (a, false)
  | _ => None
  end.

Definition outcomes (tr : list event) : list (action * bool) := collect isOutcome tr.

(** The outcomes of [chromedp.Tasks.Do] over [actions] whose first [m]
    actions went through: the next one, if there is one, failed. *)
Definition attempts (actions : list action) (m : nat) : list (action * bool) :=
  map (fun a => (a, true)) (firstn m actions)
  ++ match nth_error actions m with
     | Some a => [(a, false)]
     | None => []
     end.

(** ** Sample configurations and worlds *)

Module Sample.
Import Service.
Local Open Scope string_scope.

Definition cfg : NABConfig :=
  {| Username := "user"; Password := "secret";
     BaseURL := "https://www.nab.com.au";
     LoginURL := "https://www.nab.com.au/personal/online-banking/nab-internet-banking";
     AccountsURL := "/internetbanking/AccountBalance.jsp";
     BrowserTimeout := 30; BrowserHeadless := true;
     ScreenshotPath := "/app/screenshots"; UserAgent := "Mozilla/5.0" |}.

Definition client : Browser.NABClient := Browser.NewNABClient cfg.

Definition world (eng : list event -> action -> reply) : World :=
  {| engine := eng; clock := fun tr => List.length tr; trace := [] |}.

(** A site on which only the document body ever becomes visible. *)
Definition bodyOnly : list event -> action -> reply :=
  fun _ a =>
    match a with
    | WaitVisible sel => if String.eqb sel "body" then Succeeded ""
                         else Failed (External "context deadline exceeded")
    | _ => Succeeded ""
    end.

(** A site on which everything is visible and whose page is [html]. *)
Definition site (html : string) : list event -> action -> reply :=
  fun _ a =>
    match a with
    | OuterHTML _ => Succeeded html
    | _ => Succeeded ""
    end.

(** A site on which everything is visible but whose markup cannot be
    read. *)
Definition unreadable : list event -> action -> reply :=
  fun _ a =>
    match a with
    | OuterHTML _ => Failed (External "could not read the document")
    | _ => Succeeded ""
    end.

(** A site whose browser cannot be started. *)
Definition noBrowser : list event -> action -> reply :=
  fun _ a =>
    match a with
    | Allocate _ _ => Failed (External "exec: chrome not found")
    | _ => Succeeded ""
    end.

(** A site whose login form has no input field. *)
Definition noInputs : list event -> action -> reply :=
  fun _ a =>
    match a with
    | WaitVisible sel => if String.prefix "input" sel
                         then Failed (External "context deadline exceeded")
                         else Succeeded ""
    | _ => Succeeded ""
    end.

(** The handler of the server started with the mock provider. *)
Definition mockHandler : Handler.AccountsHandler (Service.accountService MockNABClient) :=
  Handler.NewAccountsHandler (NewAccountService NewMockNABClient).

Definition request (id : string) : Handler.Request :=
  {| Handler.Method := "GET"; Handler.Path := "/api/v1/accounts/" ++ id;
     Handler.accountId := id |}.

End Sample.

(** An environment with credentials and a value for BROWSER_HEADLESS,
    and a [time.ParseDuration] that is never asked. *)
Definition sampleEnv (headless : string) : Environment :=
  fun key =>
    if String.eqb key "NAB_USERNAME" then "user"
    else if String.eqb key "NAB_PASSWORD" then "secret"
    else if String.eqb key "BROWSER_HEADLESS" then headless
    else "".

Definition noDuration : string -> option nat := fun _ => None.

(* ===================================================================== *)
(** * Reasoning about computations *)
(* ===================================================================== *)

Lemma after_nil w : after w [] = w.
Proof. destruct w; unfold after; simpl. now rewrite app_nil_r. Qed.

Lemma after_after w n1 n2 : after (after w n1) n2 = after w (n1 ++ n2).
Proof. unfold after; simpl. now rewrite app_assoc. Qed.

Lemma yields_ret {A} (a : A) w : yields (ret a) w a [].
Proof. unfold yields, ret. now rewrite after_nil. Qed.

Lemma yields_bind {A B} (m : M A) (k : A -> M B) w a n1 b n2 :
  yields m w a n1 -> yields (k a) (after w n1) b n2 ->
  yields (bind m k) w b (n1 ++ n2).
Proof.
  unfold yields, bind. intros -> ->. now rewrite after_after.
Qed.

Lemma yields_emit e w : yields (emit e) w tt [e].
Proof. reflexivity. Qed.

Lemma yields_logf f args w : yields (logf f args) w tt [Log f args].
Proof. reflexivity. Qed.

Lemma yields_perform a w :
  yields (perform a) w (engine w (trace w) a) [Did a (engine w (trace w) a)].
Proof. reflexivity. Qed.

Lemma yields_timeNow w :
  yields timeNow w (clock w (trace w)) [Now (clock w (trace w))].
Proof. reflexivity. Qed.

Lemma yields_do a w :
  yields (do a) w (errorOf (engine w (trace w) a)) [Did a (engine w (trace w) a)].
Proof. reflexivity. Qed.

Lemma yields_fun {A} (m : M A) w a a' n n' :
  yields m w a n -> yields m w a' n' -> a = a' /\ n = n'.
Proof.
  unfold yields, after. intros H1 H2. rewrite H1 in H2.
  injection H2 as -> H. split; [reflexivity|]. now apply app_inv_head in H.
Qed.

Lemma collect_app {A B} (f : A -> option B) l1 l2 :
  collect f (l1 ++ l2) = collect f l1 ++ collect f l2.
Proof.
  induction l1 as [|x l1 IH]; simpl; [reflexivity|].
  destruct (f x); simpl; now rewrite IH.
Qed.

Lemma probes_app l1 l2 : probes (l1 ++ l2) = probes l1 ++ probes l2.
Proof. apply collect_app. Qed.

Lemma clicks_app l1 l2 : clicks (l1 ++ l2) = clicks l1 ++ clicks l2.
Proof. apply collect_app. Qed.

Lemma requests_app l1 l2 : requests (l1 ++ l2) = requests l1 ++ requests l2.
Proof. apply collect_app. Qed.

Lemma captures_app l1 l2 : captures (l1 ++ l2) = captures l1 + captures l2.
Proof. unfold captures. now rewrite filter_app, length_app. Qed.

(* ===================================================================== *)
(** * Selector resolution *)
(* ===================================================================== *)

Section Resolution.
Import Browser.

Lemma firstVisible_spec (selectors : list string) : forall w, exists n new,
  yields (firstVisible selectors) w
         (match candidate selectors n with Some s => s | None => "" end) new /\
  stopsAt selectors n new /\
  requests new = map WaitVisible (firstn (S n) selectors) /\
  captures new = 0.
Proof.
  induction selectors as [|sel more IH]; intros w.
  - exists 0, []. repeat split; try reflexivity. apply yields_ret.
  - destruct (engine w (trace w) (WaitVisible sel)) as [p|e] eqn:E.
    + exists 0, [Did (WaitVisible sel) (Succeeded p)].
      repeat split; simpl; try lia.
      unfold yields. simpl. unfold bind, do, bind, perform, ret. now rewrite E.
    + destruct (IH (after w [Did (WaitVisible sel) (Failed e)]))
        as (n & new & Hy & [Hn Hp] & Hr & Hc).
      exists (S n), (Did (WaitVisible sel) (Failed e) :: new).
      repeat split; simpl; try lia; try exact Hc.
      * unfold yields in *. simpl. unfold bind at 1. unfold do, bind, perform, ret.
        rewrite E. simpl. fold (after w [Did (WaitVisible sel) (Failed e)]).
        rewrite Hy. now rewrite after_after.
      * unfold probes in *. simpl. f_equal. exact Hp.
      * unfold requests in *. simpl. f_equal. exact Hr.
Qed.

Lemma clickFirstVisible_spec (found failed : string) (selectors : list string) :
  forall w, exists n new r,
  yields (clickFirstVisible found failed selectors) w r new /\
  stopsAt selectors n new /\
  requests new = map WaitVisible (firstn (S n) selectors)
                 ++ match candidate selectors n with
                    | Some s => [Click s]
                    | None => []
                    end /\
  (r = None <-> candidate selectors n = None) /\
  captures new = 0.
Proof.
  induction selectors as [|sel more IH]; intros w.
  - exists 0, [], None. repeat split; try reflexivity. apply yields_ret.
  - destruct (engine w (trace w) (WaitVisible sel)) as [p|e] eqn:E.
    + set (e1 := Did (WaitVisible sel) (Succeeded p)).
      set (e2 := Log found [LStr sel]).
      set (rc := engine w (trace (after w [e1; e2])) (Click sel)).
      exists 0, [e1; e2; Did (Click sel) rc], (Some (errorOf rc)).
      repeat split; simpl; try lia; try discriminate.
      unfold yields. simpl. unfold bind, do, bind, perform, logf, emit, ret.
      rewrite E. simpl. unfold after. simpl. subst rc e1 e2. simpl.
      now rewrite <- !app_assoc.
    + set (e1 := Did (WaitVisible sel) (Failed e)).
      set (e2 := Log failed [LStr sel; LErr e]).
      destruct (IH (after w [e1; e2])) as (n & new & r & Hy & [Hn Hp] & Hr & Hnone & Hc).
      exists (S n), (e1 :: e2 :: new), r.
      repeat split; simpl; try lia; try apply Hnone.
      * unfold yields in *. simpl. unfold bind at 1. unfold do, bind, perform, ret.
        rewrite E. simpl. unfold logf, emit. simpl.
        replace {| engine := engine w; clock := clock w;
                   trace := (trace w ++ [Did (WaitVisible sel) (Failed e)])
                            ++ [Log failed [LStr sel; LErr e]] |}
          with (after w [e1; e2]).
        -- rewrite Hy. now rewrite after_after.
        -- unfold after. subst e1 e2. now rewrite <- app_assoc.
      * unfold probes in *. simpl. f_equal. exact Hp.
      * unfold requests in *. simpl. f_equal. exact Hr.
      * exact Hc.
Qed.

(** ** C1 *)

End Resolution.

(* ===================================================================== *)
(** * Diagnostics: screenshot captures of the steps *)
(* ===================================================================== *)

Section Diagnostics.
Import Browser.

Lemma takeScreenshot_spec c suffix w : exists new,
  yields (takeScreenshot c suffix) w tt new /\
  captures new = 1 /\ probes new = [] /\ requests new = [CaptureScreenshot].
Proof.
  unfold takeScreenshot.
  set (t := clock w (trace w)).
  destruct (engine w (trace w ++ [Now t]) CaptureScreenshot) as [p|e] eqn:E.
  - exists [Now t; Did CaptureScreenshot (Succeeded p);
            Log "Screenshot captured: %s"
                [LStr (ScreenshotPath (config c)); LStr suffix;
                 LStamp (Formatted "20060102_150405" t 0)]].
    repeat split.
    unfold yields, bind, timeNow, do, bind, perform, ret, logf, emit. simpl.
    fold t. rewrite E. simpl.
    unfold after. simpl. now rewrite <- !app_assoc.
  - exists [Now t; Did CaptureScreenshot (Failed e)].
    repeat split.
    unfold yields, bind, timeNow, do, bind, perform, ret. simpl.
    fold t. rewrite E. simpl.
    unfold after. simpl. now rewrite <- !app_assoc.
Qed.

Lemma allFailed_app l1 l2 : allFailed (l1 ++ l2) = allFailed l1 && allFailed l2.
Proof. unfold allFailed. now rewrite probes_app, forallb_app. Qed.

Lemma stopsAt_allFailed selectors n new :
  stopsAt selectors n new -> allFailed new = true ->
  candidate selectors n = None /\ map fst (probes new) = selectors.
Proof.
  intros [Hn Hp] Hall. unfold allFailed in Hall. rewrite Hp in *.
  rewrite forallb_app in Hall. apply andb_true_iff in Hall as [_ Hall].
  destruct (candidate selectors n) as [s|] eqn:E; [discriminate|].
  split; [reflexivity|].
  apply nth_error_None in E. rewrite firstn_all2 by exact E.
  rewrite app_nil_r, map_map. simpl. apply map_id.
Qed.

(** The end of [clickLoginButton] and [selectInternetBanking]: the loop,
    then the screenshot and the error when it ran to its end. *)
Lemma click_step_spec found failed selectors c tag msg w : exists r new,
  yields (r0 <- clickFirstVisible found failed selectors ;;
          match r0 with
          | Some res => ret res
          | None => takeScreenshot c tag ;;; ret (Some (Errorf msg))
          end) w r new /\
  captures new <= 1 /\
  (r = None -> captures new = 0) /\
  (allFailed new = true ->
   r = Some (Errorf msg) /\ captures new = 1 /\ map fst (probes new) = selectors).
Proof.
  destruct (clickFirstVisible_spec found failed selectors w)
    as (n & new1 & r0 & Hy & Hstop & Hr & Hnone & Hc).
  destruct r0 as [res|].
  - exists res, (new1 ++ []). split; [|split; [|split]].
    + eapply yields_bind; [exact Hy|apply yields_ret].
    + rewrite app_nil_r. lia.
    + intros _. now rewrite app_nil_r.
    + rewrite app_nil_r. intros Hall.
      destruct (stopsAt_allFailed _ _ _ Hstop Hall) as [Hcand _].
      apply Hnone in Hcand. discriminate.
  - destruct (takeScreenshot_spec c tag (after w new1)) as (new2 & Hy2 & Hc2 & Hp2 & _).
    exists (Some (Errorf msg)), (new1 ++ (new2 ++ [])). split; [|split; [|split]].
    + eapply yields_bind; [exact Hy|].
      eapply yields_bind; [exact Hy2|apply yields_ret].
    + rewrite app_nil_r, captures_app. lia.
    + discriminate.
    + rewrite app_nil_r. intros Hall. split; [reflexivity|].
      split; [rewrite captures_app; lia|].
      rewrite allFailed_app in Hall. apply andb_true_iff in Hall as [Hall _].
      destruct (stopsAt_allFailed _ _ _ Hstop Hall) as [_ Hsel].
      now rewrite probes_app, Hp2, app_nil_r.
Qed.

Lemma clickLoginButton_spec c w : exists r new,
  yields (clickLoginButton c) w r new /\
  captures new <= 1 /\
  (r = None -> captures new = 0) /\
  (allFailed new = true ->
   r = Some (Errorf "could not find login button") /\ captures new = 1 /\
   map fst (probes new) = loginButtonSelectors).
Proof.
  set (e0 := Log "Clicking Login button..." []).
  destruct (click_step_spec "Found login button with selector: %s"
              "Selector failed: %s - %v" loginButtonSelectors c
              "login_button_not_found" "could not find login button" (after w [e0]))
    as (r & new & Hy & Hc & Hnone & Hall).
  exists r, ([e0] ++ new). split; [|split; [|split]].
  - unfold clickLoginButton. eapply yields_bind; [apply yields_logf|exact Hy].
  - rewrite captures_app. simpl. exact Hc.
  - rewrite captures_app. simpl. exact Hnone.
  - rewrite allFailed_app, captures_app, probes_app. simpl. exact Hall.
Qed.

Lemma selectInternetBanking_spec c w : exists r new,
  yields (selectInternetBanking c) w r new /\
  captures new <= 1 /\
  (r = None -> captures new = 0) /\
  (allFailed new = true ->
   r = Some (Errorf "could not find Internet Banking link in dropdown") /\
   captures new = 1 /\
   map fst (probes new) = internetBankingSelectors).
Proof.
  set (e0 := Log "Selecting Internet Banking from dropdown..." []).
  set (w1 := after w [e0]).
  set (e1 := Did (Sleep 1) (engine w1 (trace w1) (Sleep 1))).
  destruct (click_step_spec "Found Internet Banking link with selector: %s"
              "Internet Banking selector failed: %s - %v" internetBankingSelectors c
              "internet_banking_not_found"
              "could not find Internet Banking link in dropdown" (after w1 [e1]))
    as (r & new & Hy & Hc & Hnone & Hall).
  exists r, ([e0] ++ [e1] ++ new). split; [|split; [|split]].
  - unfold selectInternetBanking.
    eapply yields_bind; [apply yields_logf|].
    eapply yields_bind; [apply yields_do|exact Hy].
  - rewrite !captures_app. simpl. exact Hc.
  - rewrite !captures_app. simpl. exact Hnone.
  - rewrite !allFailed_app, !captures_app, !probes_app. simpl. exact Hall.
Qed.


Lemma captures_did a r : a <> CaptureScreenshot -> captures [Did a r] = 0.
Proof. destruct a; intros H; try reflexivity; congruence. Qed.

Lemma doAll_spec (actions : list action) :
  Forall (fun a => a <> CaptureScreenshot) actions ->
  forall w, exists r new, yields (doAll actions) w r new /\ captures new = 0.
Proof.
  induction 1 as [|a more Ha _ IH]; intros w.
  - exists None, []. split; [apply yields_ret|reflexivity].
  - set (e := Did a (engine w (trace w) a)).
    destruct (errorOf (engine w (trace w) a)) as [err|] eqn:E.
    + exists (Some err), ([e] ++ []). split.
      * simpl doAll. eapply yields_bind; [apply yields_do|].
        rewrite E. apply yields_ret.
      * subst e. rewrite captures_app, (captures_did _ _ Ha). reflexivity.
    + destruct (IH (after w [e])) as (r & new & Hy & Hc).
      exists r, ([e] ++ new). split.
      * simpl doAll. eapply yields_bind; [apply yields_do|].
        rewrite E. exact Hy.
      * subst e. rewrite captures_app, (captures_did _ _ Ha), Hc. reflexivity.
Qed.

Lemma performLogin_spec c w : exists r new,
  yields (performLogin c) w r new /\ captures new = 0.
Proof.
  unfold performLogin.
  destruct (firstVisible_spec loginSelectors w) as (n1 & new1 & Hy1 & _ & _ & Hc1).
  set (u := match candidate loginSelectors n1 with Some s => s | None => "" end) in *.
  destruct (String.eqb u "") eqn:Eu.
  { exists (Some (Errorf "could not find username input field")), (new1 ++ []).
    split; [|now rewrite app_nil_r].
    eapply yields_bind; [exact Hy1|]. rewrite Eu. apply yields_ret. }
  destruct (firstVisible_spec passwordSelectors (after w new1))
    as (n2 & new2 & Hy2 & _ & _ & Hc2).
  set (p := match candidate passwordSelectors n2 with Some s => s | None => "" end) in *.
  destruct (String.eqb p "") eqn:Ep.
  { exists (Some (Errorf "could not find password input field")), (new1 ++ new2 ++ []).
    split; [|rewrite app_nil_r, captures_app; lia].
    eapply yields_bind; [exact Hy1|]. rewrite Eu.
    eapply yields_bind; [exact Hy2|]. rewrite Ep. apply yields_ret. }
  destruct (firstVisible_spec submitSelectors (after (after w new1) new2))
    as (n3 & new3 & Hy3 & _ & _ & Hc3).
  set (b := match candidate submitSelectors n3 with Some s => s | None => "" end) in *.
  destruct (String.eqb b "") eqn:Eb.
  { exists (Some (Errorf "could not find submit button")), (new1 ++ new2 ++ new3 ++ []).
    split; [|rewrite app_nil_r, !captures_app; lia].
    eapply yields_bind; [exact Hy1|]. rewrite Eu.
    eapply yields_bind; [exact Hy2|]. rewrite Ep.
    eapply yields_bind; [exact Hy3|]. rewrite Eb. apply yields_ret. }
  destruct (doAll_spec [SendKeys u (Username (config c));
                        SendKeys p (Password (config c)); Click b]
              ltac:(repeat constructor; discriminate)
              (after (after (after w new1) new2) new3)) as (r & new4 & Hy4 & Hc4).
  exists r, (new1 ++ new2 ++ new3 ++ new4).
  split; [|rewrite !captures_app; lia].
  eapply yields_bind; [exact Hy1|]. rewrite Eu.
  eapply yields_bind; [exact Hy2|]. rewrite Ep.
  eapply yields_bind; [exact Hy3|]. rewrite Eb. exact Hy4.
Qed.

Lemma task_quiet (m : M (option error)) :
  (forall w, exists r new,
      yields m w r new /\ captures new <= 1 /\ (r = None -> captures new = 0)) ->
  quietTask (task m).
Proof.
  intros Hm accounts w. destruct (Hm w) as (r & new & Hy & Hc & Hnone).
  exists (r, accounts), (new ++ []). rewrite app_nil_r. repeat split; auto.
  unfold task. rewrite <- (app_nil_r new).
  eapply yields_bind; [exact Hy|apply yields_ret].
Qed.

Lemma do_quiet a : a <> CaptureScreenshot -> quietTask (task (do a)).
Proof.
  intros Ha. apply task_quiet. intros w.
  exists (errorOf (engine w (trace w) a)), [Did a (engine w (trace w) a)].
  rewrite (captures_did _ _ Ha). split; [apply yields_do|split; auto].
Qed.

Lemma scrapeAccounts_spec c accounts w : exists html new,
  yields (scrapeAccounts c accounts) w (None, accountsOfSource html) new /\
  captures new = 0 /\
  (engine w (trace w ++ removelast new) (OuterHTML "html") = Succeeded html \/
   html = "" /\ exists e, engine w (trace w ++ removelast new) (OuterHTML "html") = Failed e).
Proof.
  set (e1 := Did (Sleep 3) (engine w (trace w) (Sleep 3))).
  set (e2 := Log "Extracting accounts from page source..." []).
  set (r := engine w (trace w ++ [e1; e2]) (OuterHTML "html")).
  exists (match r with Succeeded html => html | Failed _ => "" end),
         [e1; e2; Did (OuterHTML "html") r].
  split; [|split].
  - unfold yields, scrapeAccounts, extractAccountsGeneric, bind, do, bind, perform,
      logf, emit, ret. simpl. fold e1. fold e2.
    rewrite <- !app_assoc. simpl. fold r. reflexivity.
  - reflexivity.
  - simpl removelast. fold r. destruct r; eauto.
Qed.

Lemma scrapeAccounts_quiet c : quietTask (scrapeAccounts c).
Proof.
  intros accounts w.
  destruct (scrapeAccounts_spec c accounts w) as (html & new & Hy & Hc & _).
  exists (None, accountsOfSource html), new. repeat split; auto. lia.
Qed.

Lemma runTasks_quiet (tasks : list Task) :
  Forall quietTask tasks ->
  forall accounts w, exists r new,
    yields (runTasks tasks accounts) w r new /\
    captures new <= 1 /\
    (fst r = None -> captures new = 0).
Proof.
  induction 1 as [|t more Ht _ IH]; intros accounts w.
  - exists (None, accounts), []. repeat split; auto. apply yields_ret.
  - destruct (Ht accounts w) as (r1 & new1 & Hy1 & Hc1 & Hnone1).
    destruct (fst r1) as [e|] eqn:E.
    + exists (Some e, snd r1), (new1 ++ []). rewrite app_nil_r.
      split; [|split; [exact Hc1|discriminate]].
      simpl runTasks. rewrite <- (app_nil_r new1).
      eapply yields_bind; [exact Hy1|]. rewrite E. apply yields_ret.
    + destruct (IH (snd r1) (after w new1)) as (r & new & Hy & Hc & Hnone).
      exists r, (new1 ++ new). rewrite captures_app, (Hnone1 eq_refl).
      split; [|split; [exact Hc|exact Hnone]].
      simpl runTasks. eapply yields_bind; [exact Hy1|]. rewrite E. exact Hy.
Qed.

Lemma tasks_quiet c :
  Forall quietTask
    [ task (do (Navigate (BaseURL (config c))));
      task (do (WaitVisible "body"));
      task (clickLoginButton c);
      task (selectInternetBanking c);
      task (performLogin c);
      task (do (WaitVisible "body"));
      task (do (Sleep 3));
      scrapeAccounts c ].
Proof.
  repeat constructor; try (apply do_quiet; discriminate).
  - apply task_quiet. intros w.
    destruct (clickLoginButton_spec c w) as (r & new & Hy & Hc & Hnone & _). eauto.
  - apply task_quiet. intros w.
    destruct (selectInternetBanking_spec c w) as (r & new & Hy & Hc & Hnone & _). eauto.
  - apply task_quiet. intros w.
    destruct (performLogin_spec c w) as (r & new & Hy & Hc).
    exists r, new. repeat split; auto. lia.
  - apply scrapeAccounts_quiet.
Qed.

Lemma deferred_spec w : exists new, yields deferred w tt new /\ captures new = 0.
Proof.
  exists [Cancel "timeoutCtx"; Cancel "browserCtx"; Cancel "allocCtx"].
  split; [|reflexivity].
  unfold yields, deferred, bind, emit, after. simpl. now rewrite <- !app_assoc.
Qed.

Lemma Run_spec c tasks accounts w :
  Forall quietTask tasks ->
  exists r new,
    yields (Run c tasks accounts) w r new /\
    captures new <= 1 /\
    (fst r = None -> captures new = 0).
Proof.
  intros Hq. unfold Run.
  set (a := Allocate (BrowserHeadless (config c)) (UserAgent (config c))).
  set (e := Did a (engine w (trace w) a)).
  assert (Ha : captures [e] = 0) by reflexivity.
  destruct (errorOf (engine w (trace w) a)) as [err|] eqn:E.
  - exists (Some err, accounts), ([e] ++ []). split; [|split].
    + eapply yields_bind; [apply yields_do|]. rewrite E. apply yields_ret.
    + simpl. lia.
    + discriminate.
  - destruct (runTasks_quiet tasks Hq accounts (after w [e])) as (r & new & Hy & Hc & Hnone).
    exists r, ([e] ++ new). rewrite captures_app, Ha. split; [|split; auto].
    eapply yields_bind; [apply yields_do|]. rewrite E. exact Hy.
Qed.

(** What [GetAccounts] returns and how many screenshots it attempts: none
    when it succeeds; when it fails, one of its own after at most one by
    the step that failed, and the error is the step's error wrapped. *)
Lemma GetAccounts_spec c w : exists r new,
  yields (GetAccounts c) w r new /\
  match r with
  | Ok _ => captures new = 0
  | Err e =>
      (captures new = 1 \/ captures new = 2) /\
      exists cause, e = ErrorfW "failed to scrape NAB accounts: %w" cause
  end.
Proof.
  unfold GetAccounts.
  set (e0 := Log "Starting NAB account scraping..." []).
  destruct (Run_spec c _ [] (after w [e0]) (tasks_quiet c))
    as (r & new1 & Hy1 & Hc1 & Hnone1).
  destruct (fst r) as [err|] eqn:E.
  - destruct (takeScreenshot_spec c "error" (after (after w [e0]) new1))
      as (new2 & Hy2 & Hc2 & _).
    destruct (deferred_spec (after (after (after w [e0]) new1) new2))
      as (new3 & Hy3 & Hc3).
    exists (Err (ErrorfW "failed to scrape NAB accounts: %w" err)),
           ([e0] ++ new1 ++ new2 ++ new3 ++ []).
    split.
    + eapply yields_bind; [apply yields_logf|].
      eapply yields_bind; [exact Hy1|]. rewrite E.
      eapply yields_bind; [exact Hy2|].
      eapply yields_bind; [exact Hy3|apply yields_ret].
    + rewrite app_nil_r, !captures_app, Hc2, Hc3. simpl.
      split; [lia|eauto].
  - set (e1 := Log "Successfully scraped %d accounts" [LInt (List.length (snd r))]).
    destruct (deferred_spec (after (after (after w [e0]) new1) [e1]))
      as (new3 & Hy3 & Hc3).
    exists (Ok (snd r)), ([e0] ++ new1 ++ [e1] ++ new3 ++ []).
    split.
    + eapply yields_bind; [apply yields_logf|].
      eapply yields_bind; [exact Hy1|]. rewrite E.
      eapply yields_bind; [apply yields_logf|].
      eapply yields_bind; [exact Hy3|apply yields_ret].
    + rewrite app_nil_r, !captures_app, Hc3, (Hnone1 eq_refl). reflexivity.
Qed.

End Diagnostics.

(* ===================================================================== *)
(** * The sequence when a role cannot be resolved *)
(* ===================================================================== *)

Section Roles.
Import Browser.

Lemma do_done a w :
  alwaysDone w a -> exists p, yields (do a) w None [Did a (Succeeded p)].
Proof.
  intros H. destruct (H (trace w)) as [p Hp]. exists p.
  unfold yields, do, bind, perform, ret. now rewrite Hp.
Qed.

Lemma firstVisible_never selectors : forall w,
  neverVisible w selectors ->
  exists new, yields (firstVisible selectors) w "" new /\ captures new = 0.
Proof.
  induction selectors as [|sel more IH]; intros w Hnever.
  - exists []. split; [apply yields_ret|reflexivity].
  - destruct (Hnever (trace w) sel (or_introl eq_refl)) as [e He].
    set (ev := Did (WaitVisible sel) (Failed e)).
    destruct (IH (after w [ev])) as (new & Hy & Hc).
    { intros tr s Hs. apply (Hnever tr s). now right. }
    exists ([ev] ++ new). split; [|now rewrite captures_app, Hc].
    simpl firstVisible. eapply yields_bind.
    { unfold yields, do, bind, perform, ret. rewrite He. reflexivity. }
    exact Hy.
Qed.

Lemma firstVisible_shown selectors : forall w,
  shows w selectors ->
  exists sel new, yields (firstVisible selectors) w sel new /\
                  In sel selectors /\ captures new = 0.
Proof.
  induction selectors as [|sel more IH]; intros w (u & Hin & Hu).
  - destruct Hin.
  - destruct (engine w (trace w) (WaitVisible sel)) as [p|e] eqn:E.
    + exists sel, [Did (WaitVisible sel) (Succeeded p)].
      split; [|split; [now left|reflexivity]].
      unfold yields. simpl. unfold bind, do, bind, perform, ret. now rewrite E.
    + destruct Hin as [->|Hin].
      { destruct (Hu (trace w)) as [p Hp]. congruence. }
      set (ev := Did (WaitVisible sel) (Failed e)).
      destruct (IH (after w [ev])) as (s & new & Hy & Hs & Hc).
      { exists u. split; [exact Hin|exact Hu]. }
      exists s, ([ev] ++ new). split; [|split; [now right|now rewrite captures_app, Hc]].
      simpl firstVisible. eapply yields_bind.
      { unfold yields, do, bind, perform, ret. rewrite E. reflexivity. }
      exact Hy.
Qed.

Lemma clickFirstVisible_never found failed selectors : forall w,
  neverVisible w selectors ->
  exists new, yields (clickFirstVisible found failed selectors) w None new /\
              captures new = 0.
Proof.
  induction selectors as [|sel more IH]; intros w Hnever.
  - exists []. split; [apply yields_ret|reflexivity].
  - destruct (Hnever (trace w) sel (or_introl eq_refl)) as [e He].
    set (e1 := Did (WaitVisible sel) (Failed e)).
    set (e2 := Log failed [LStr sel; LErr e]).
    destruct (IH (after (after w [e1]) [e2])) as (new & Hy & Hc).
    { intros tr s Hs. apply (Hnever tr s). now right. }
    exists ([e1] ++ [e2] ++ new). split; [|now rewrite !captures_app, Hc].
    simpl clickFirstVisible. eapply yields_bind.
    { unfold yields, do, bind, perform, ret. rewrite He. reflexivity. }
    eapply yields_bind; [apply yields_logf|exact Hy].
Qed.

Lemma clickFirstVisible_shown found failed selectors : forall w,
  shows w selectors -> (forall sel, alwaysDone w (Click sel)) ->
  exists new, yields (clickFirstVisible found failed selectors) w (Some None) new /\
              captures new = 0.
Proof.
  induction selectors as [|sel more IH]; intros w (u & Hin & Hu) Hclick.
  - destruct Hin.
  - destruct (engine w (trace w) (WaitVisible sel)) as [p|e] eqn:E.
    + set (e1 := Did (WaitVisible sel) (Succeeded p)).
      set (e2 := Log found [LStr sel]).
      destruct (do_done (Click sel) (after (after w [e1]) [e2]) (Hclick sel))
        as (p' & Hy).
      exists ([e1] ++ [e2] ++ [Did (Click sel) (Succeeded p')] ++ []). split.
      * simpl clickFirstVisible. eapply yields_bind.
        { unfold yields, do, bind, perform, ret. rewrite E. reflexivity. }
        eapply yields_bind; [apply yields_logf|].
        eapply yields_bind; [exact Hy|apply yields_ret].
      * reflexivity.
    + destruct Hin as [->|Hin].
      { destruct (Hu (trace w)) as [p Hp]. congruence. }
      set (e1 := Did (WaitVisible sel) (Failed e)).
      set (e2 := Log failed [LStr sel; LErr e]).
      destruct (IH (after (after w [e1]) [e2])) as (new & Hy & Hc).
      { exists u. split; [exact Hin|exact Hu]. }
      { exact Hclick. }
      exists ([e1] ++ [e2] ++ new). split; [|now rewrite !captures_app, Hc].
      simpl clickFirstVisible. eapply yields_bind.
      { unfold yields, do, bind, perform, ret. rewrite E. reflexivity. }
      eapply yields_bind; [apply yields_logf|exact Hy].
Qed.


(** ** The steps of the sequence when a role cannot, or can, be resolved *)

Lemma clickLoginButton_never c w :
  neverVisible w loginButtonSelectors ->
  exists new, yields (clickLoginButton c) w
                     (Some (Errorf "could not find login button")) new /\
              captures new = 1.
Proof.
  intros Hnever.
  set (e0 := Log "Clicking Login button..." []).
  destruct (clickFirstVisible_never "Found login button with selector: %s"
              "Selector failed: %s - %v" loginButtonSelectors (after w [e0]) Hnever)
    as (new1 & Hy1 & Hc1).
  destruct (takeScreenshot_spec c "login_button_not_found" (after (after w [e0]) new1))
    as (new2 & Hy2 & Hc2 & _).
  exists ([e0] ++ new1 ++ new2 ++ []). split.
  - unfold clickLoginButton. eapply yields_bind; [apply yields_logf|].
    eapply yields_bind; [exact Hy1|].
    eapply yields_bind; [exact Hy2|apply yields_ret].
  - rewrite app_nil_r, !captures_app, Hc1, Hc2. reflexivity.
Qed.

Lemma clickLoginButton_shown c w :
  shows w loginButtonSelectors -> (forall sel, alwaysDone w (Click sel)) ->
  exists new, yields (clickLoginButton c) w None new /\ captures new = 0.
Proof.
  intros Hshown Hclick.
  set (e0 := Log "Clicking Login button..." []).
  destruct (clickFirstVisible_shown "Found login button with selector: %s"
              "Selector failed: %s - %v" loginButtonSelectors (after w [e0])
              Hshown Hclick) as (new1 & Hy1 & Hc1).
  exists ([e0] ++ new1 ++ []). split.
  - unfold clickLoginButton. eapply yields_bind; [apply yields_logf|].
    eapply yields_bind; [exact Hy1|apply yields_ret].
  - rewrite app_nil_r, !captures_app, Hc1. reflexivity.
Qed.

Lemma selectInternetBanking_never c w :
  neverVisible w internetBankingSelectors ->
  exists new, yields (selectInternetBanking c) w
                     (Some (Errorf "could not find Internet Banking link in dropdown")) new /\
              captures new = 1.
Proof.
  intros Hnever.
  set (e0 := Log "Selecting Internet Banking from dropdown..." []).
  set (w1 := after w [e0]).
  set (e1 := Did (Sleep 1) (engine w1 (trace w1) (Sleep 1))).
  destruct (clickFirstVisible_never "Found Internet Banking link with selector: %s"
              "Internet Banking selector failed: %s - %v" internetBankingSelectors
              (after w1 [e1]) Hnever) as (new1 & Hy1 & Hc1).
  destruct (takeScreenshot_spec c "internet_banking_not_found" (after (after w1 [e1]) new1))
    as (new2 & Hy2 & Hc2 & _).
  exists ([e0] ++ [e1] ++ new1 ++ new2 ++ []). split.
  - unfold selectInternetBanking. eapply yields_bind; [apply yields_logf|].
    eapply yields_bind; [apply yields_do|].
    eapply yields_bind; [exact Hy1|].
    eapply yields_bind; [exact Hy2|apply yields_ret].
  - rewrite app_nil_r, !captures_app, Hc1, Hc2. reflexivity.
Qed.

Lemma selectInternetBanking_shown c w :
  shows w internetBankingSelectors -> (forall sel, alwaysDone w (Click sel)) ->
  exists new, yields (selectInternetBanking c) w None new /\ captures new = 0.
Proof.
  intros Hshown Hclick.
  set (e0 := Log "Selecting Internet Banking from dropdown..." []).
  set (w1 := after w [e0]).
  set (e1 := Did (Sleep 1) (engine w1 (trace w1) (Sleep 1))).
  destruct (clickFirstVisible_shown "Found Internet Banking link with selector: %s"
              "Internet Banking selector failed: %s - %v" internetBankingSelectors
              (after w1 [e1]) Hshown Hclick) as (new1 & Hy1 & Hc1).
  exists ([e0] ++ [e1] ++ new1 ++ []). split.
  - unfold selectInternetBanking. eapply yields_bind; [apply yields_logf|].
    eapply yields_bind; [apply yields_do|].
    eapply yields_bind; [exact Hy1|apply yields_ret].
  - rewrite app_nil_r, !captures_app, Hc1. reflexivity.
Qed.

Lemma nonempty_selector (selectors : list string) sel :
  forallb (fun s => negb (String.eqb s "")) selectors = true ->
  In sel selectors -> String.eqb sel "" = false.
Proof.
  intros Hall Hin. rewrite forallb_forall in Hall.
  specialize (Hall sel Hin). now apply negb_true_iff in Hall.
Qed.

Lemma performLogin_username c w :
  neverVisible w loginSelectors ->
  exists new, yields (performLogin c) w
                     (Some (Errorf "could not find username input field")) new /\
              captures new = 0.
Proof.
  intros Hnever.
  destruct (firstVisible_never loginSelectors w Hnever) as (new1 & Hy1 & Hc1).
  exists (new1 ++ []). split; [|now rewrite app_nil_r].
  unfold performLogin. eapply yields_bind; [exact Hy1|]. apply yields_ret.
Qed.

Lemma performLogin_password c w :
  shows w loginSelectors -> neverVisible w passwordSelectors ->
  exists new, yields (performLogin c) w
                     (Some (Errorf "could not find password input field")) new /\
              captures new = 0.
Proof.
  intros Hshown Hnever.
  destruct (firstVisible_shown loginSelectors w Hshown) as (u & new1 & Hy1 & Hu & Hc1).
  destruct (firstVisible_never passwordSelectors (after w new1) Hnever)
    as (new2 & Hy2 & Hc2).
  exists (new1 ++ new2 ++ []). split; [|rewrite app_nil_r, captures_app; lia].
  unfold performLogin. eapply yields_bind; [exact Hy1|].
  rewrite (nonempty_selector loginSelectors u eq_refl Hu).
  eapply yields_bind; [exact Hy2|]. apply yields_ret.
Qed.

Lemma performLogin_submit c w :
  shows w loginSelectors -> shows w passwordSelectors ->
  neverVisible w submitSelectors ->
  exists new, yields (performLogin c) w
                     (Some (Errorf "could not find submit button")) new /\
              captures new = 0.
Proof.
  intros Hshown1 Hshown2 Hnever.
  destruct (firstVisible_shown loginSelectors w Hshown1) as (u & new1 & Hy1 & Hu & Hc1).
  destruct (firstVisible_shown passwordSelectors (after w new1) Hshown2)
    as (p & new2 & Hy2 & Hp & Hc2).
  destruct (firstVisible_never submitSelectors (after (after w new1) new2) Hnever)
    as (new3 & Hy3 & Hc3).
  exists (new1 ++ new2 ++ new3 ++ []). split; [|rewrite app_nil_r, !captures_app; lia].
  unfold performLogin. eapply yields_bind; [exact Hy1|].
  rewrite (nonempty_selector loginSelectors u eq_refl Hu).
  eapply yields_bind; [exact Hy2|].
  rewrite (nonempty_selector passwordSelectors p eq_refl Hp).
  eapply yields_bind; [exact Hy3|]. apply yields_ret.
Qed.

(** ** Chaining the tasks of [chromedp.Run] *)

Lemma task_passes (m : M (option error)) accounts w :
  (exists new, yields m w None new /\ captures new = 0) ->
  exists new, yields (task m accounts) w (None, accounts) new /\ captures new = 0.
Proof.
  intros (new & Hy & Hc). exists (new ++ []). rewrite app_nil_r. split; [|exact Hc].
  unfold task. rewrite <- (app_nil_r new).
  eapply yields_bind; [exact Hy|apply yields_ret].
Qed.

Lemma task_fails (m : M (option error)) accounts w e k :
  (exists new, yields m w (Some e) new /\ captures new = k) ->
  exists new, yields (task m accounts) w (Some e, accounts) new /\ captures new = k.
Proof.
  intros (new & Hy & Hc). exists (new ++ []). rewrite app_nil_r. split; [|exact Hc].
  unfold task. rewrite <- (app_nil_r new).
  eapply yields_bind; [exact Hy|apply yields_ret].
Qed.

Lemma do_passes a accounts w :
  alwaysDone w a -> a <> CaptureScreenshot ->
  exists new, yields (task (do a) accounts) w (None, accounts) new /\ captures new = 0.
Proof.
  intros Ha Hne. apply task_passes. destruct (do_done a w Ha) as (p & Hy).
  exists [Did a (Succeeded p)]. split; [exact Hy|now apply captures_did].
Qed.

Lemma runTasks_pass (t : Task) more accounts w e k :
  (exists new, yields (t accounts) w (None, accounts) new /\ captures new = 0) ->
  (forall pre, exists new,
      yields (runTasks more accounts) (after w pre) (Some e, accounts) new /\
      captures new = k) ->
  exists new, yields (runTasks (t :: more) accounts) w (Some e, accounts) new /\
              captures new = k.
Proof.
  intros (new1 & Hy1 & Hc1) Hrest. destruct (Hrest new1) as (new2 & Hy2 & Hc2).
  exists (new1 ++ new2). split; [|rewrite captures_app; lia].
  simpl runTasks. eapply yields_bind; [exact Hy1|exact Hy2].
Qed.

Lemma runTasks_fail (t : Task) more accounts w e k :
  (exists new, yields (t accounts) w (Some e, accounts) new /\ captures new = k) ->
  exists new, yields (runTasks (t :: more) accounts) w (Some e, accounts) new /\
              captures new = k.
Proof.
  intros (new1 & Hy1 & Hc1). exists (new1 ++ []). rewrite app_nil_r.
  split; [|exact Hc1]. simpl runTasks. rewrite <- (app_nil_r new1).
  eapply yields_bind; [exact Hy1|apply yields_ret].
Qed.

Lemma Run_pass c tasks accounts w e k :
  alwaysDone w (Allocate (BrowserHeadless (config c)) (UserAgent (config c))) ->
  (forall pre, exists new,
      yields (runTasks tasks accounts) (after w pre) (Some e, accounts) new /\
      captures new = k) ->
  exists new, yields (Run c tasks accounts) w (Some e, accounts) new /\ captures new = k.
Proof.
  intros Ha Hrest. destruct (do_done _ w Ha) as (p & Hy1).
  destruct (Hrest [Did (Allocate (BrowserHeadless (config c)) (UserAgent (config c)))
                       (Succeeded p)]) as (new2 & Hy2 & Hc2).
  eexists (_ ++ new2). split.
  - unfold Run. eapply yields_bind; [exact Hy1|exact Hy2].
  - rewrite captures_app, Hc2. reflexivity.
Qed.

Lemma GetAccounts_failing c w e k :
  (forall pre, exists new,
      yields (Run c [ task (do (Navigate (BaseURL (config c))));
                      task (do (WaitVisible "body"));
                      task (clickLoginButton c);
                      task (selectInternetBanking c);
                      task (performLogin c);
                      task (do (WaitVisible "body"));
                      task (do (Sleep 3));
                      scrapeAccounts c ] [])
             (after w pre) (Some e, []) new /\
      captures new = k) ->
  exists new, yields (GetAccounts c) w
                     (Err (ErrorfW "failed to scrape NAB accounts: %w" e)) new /\
              captures new = S k.
Proof.
  intros Hrun.
  set (e0 := Log "Starting NAB account scraping..." []).
  destruct (Hrun [e0]) as (new1 & Hy1 & Hc1).
  destruct (takeScreenshot_spec c "error" (after (after w [e0]) new1))
    as (new2 & Hy2 & Hc2 & _).
  destruct (deferred_spec (after (after (after w [e0]) new1) new2))
    as (new3 & Hy3 & Hc3).
  exists ([e0] ++ new1 ++ new2 ++ new3 ++ []). split.
  - unfold GetAccounts. eapply yields_bind; [apply yields_logf|].
    eapply yields_bind; [exact Hy1|]. simpl fst.
    eapply yields_bind; [exact Hy2|].
    eapply yields_bind; [exact Hy3|apply yields_ret].
  - rewrite app_nil_r, !captures_app, Hc1, Hc2, Hc3. simpl. lia.
Qed.

(** ** The whole call, role by role *)

Ltac through_site :=
  apply GetAccounts_failing; intros ?;
  apply Run_pass; [assumption|intros ?];
  apply runTasks_pass; [apply do_passes; [assumption|discriminate]|intros ?];
  apply runTasks_pass; [apply do_passes; [assumption|discriminate]|intros ?].

Lemma GetAccounts_no_login_button c w :
  reachable w c -> neverVisible w loginButtonSelectors ->
  exists new, yields (GetAccounts c) w
      (Err (ErrorfW "failed to scrape NAB accounts: %w"
                    (Errorf "could not find login button"))) new /\
    captures new = 2.
Proof.
  intros (Ha & Hn & Hb & Hc) Hnever. through_site.
  apply runTasks_fail, task_fails. now apply clickLoginButton_never.
Qed.

Lemma GetAccounts_no_internet_banking c w :
  reachable w c -> shows w loginButtonSelectors ->
  neverVisible w internetBankingSelectors ->
  exists new, yields (GetAccounts c) w
      (Err (ErrorfW "failed to scrape NAB accounts: %w"
                    (Errorf "could not find Internet Banking link in dropdown"))) new /\
    captures new = 2.
Proof.
  intros (Ha & Hn & Hb & Hc) Hs1 Hnever. through_site.
  apply runTasks_pass; [apply task_passes; now apply clickLoginButton_shown|intros ?].
  apply runTasks_fail, task_fails. now apply selectInternetBanking_never.
Qed.

Lemma GetAccounts_no_username c w :
  reachable w c -> shows w loginButtonSelectors -> shows w internetBankingSelectors ->
  neverVisible w loginSelectors ->
  exists new, yields (GetAccounts c) w
      (Err (ErrorfW "failed to scrape NAB accounts: %w"
                    (Errorf "could not find username input field"))) new /\
    captures new = 1.
Proof.
  intros (Ha & Hn & Hb & Hc) Hs1 Hs2 Hnever. through_site.
  apply runTasks_pass; [apply task_passes; now apply clickLoginButton_shown|intros ?].
  apply runTasks_pass; [apply task_passes; now apply selectInternetBanking_shown|intros ?].
  apply runTasks_fail, task_fails. now apply performLogin_username.
Qed.

Lemma GetAccounts_no_password c w :
  reachable w c -> shows w loginButtonSelectors -> shows w internetBankingSelectors ->
  shows w loginSelectors -> neverVisible w passwordSelectors ->
  exists new, yields (GetAccounts c) w
      (Err (ErrorfW "failed to scrape NAB accounts: %w"
                    (Errorf "could not find password input field"))) new /\
    captures new = 1.
Proof.
  intros (Ha & Hn & Hb & Hc) Hs1 Hs2 Hs3 Hnever. through_site.
  apply runTasks_pass; [apply task_passes; now apply clickLoginButton_shown|intros ?].
  apply runTasks_pass; [apply task_passes; now apply selectInternetBanking_shown|intros ?].
  apply runTasks_fail, task_fails. now apply performLogin_password.
Qed.

Lemma GetAccounts_no_submit c w :
  reachable w c -> shows w loginButtonSelectors -> shows w internetBankingSelectors ->
  shows w loginSelectors -> shows w passwordSelectors ->
  neverVisible w submitSelectors ->
  exists new, yields (GetAccounts c) w
      (Err (ErrorfW "failed to scrape NAB accounts: %w"
                    (Errorf "could not find submit button"))) new /\
    captures new = 1.
Proof.
  intros (Ha & Hn & Hb & Hc) Hs1 Hs2 Hs3 Hs4 Hnever. through_site.
  apply runTasks_pass; [apply task_passes; now apply clickLoginButton_shown|intros ?].
  apply runTasks_pass; [apply task_passes; now apply selectInternetBanking_shown|intros ?].
  apply runTasks_fail, task_fails. now apply performLogin_submit.
Qed.

End Roles.

(* ===================================================================== *)
(** * Failures of the scraping call: diagnostics and error kinds *)
(* ===================================================================== *)

Section FailureKinds.
Import Service Browser Handler.

(** ** C3 *)

(** C3 (as stated, refuted). On a site where no login-button candidate
    ever becomes visible, the call fails with the error that names the
    role, and the screenshot capture has been attempted twice, not once:
    by [clickLoginButton] and again by [GetAccounts]. *)
Lemma login_button_not_found_captures_twice :
  let r := Browser.GetAccounts Sample.client (Sample.world Sample.bodyOnly) in
  fst r = Err (ErrorfW "failed to scrape NAB accounts: %w"
                       (Errorf "could not find login button")) /\
  probes (trace (snd r))
  = ("body", true) :: map (fun sel => (sel, false)) loginButtonSelectors /\
  captures (trace (snd r)) = 2.
Proof. vm_compute. repeat split. Qed.

(** C3 (amended). When no candidate of a role ever becomes visible, the
    call fails with an error that names the role, wrapped by
    [GetAccounts]; the screenshot capture is attempted twice when the
    role is the login button or the Internet Banking link (once by the
    step, once by [GetAccounts]) and once when it is the username field,
    the password field or the submit button. Whatever the site does, a
    successful call attempts no capture and a failed one attempts one or
    two. *)
Theorem captures_per_unresolved_role :
  forall (c : Browser.NABClient) (w : World),
    (exists r new,
        yields (Browser.GetAccounts c) w r new /\
        match r with
        | Ok _ => captures new = 0
        | Err _ => captures new = 1 \/ captures new = 2
        end)
    /\
    (reachable w c -> neverVisible w loginButtonSelectors ->
     exists new,
       yields (Browser.GetAccounts c) w
              (Err (ErrorfW "failed to scrape NAB accounts: %w"
                            (Errorf "could not find login button"))) new /\
       captures new = 2)
    /\
    (reachable w c -> shows w loginButtonSelectors ->
     neverVisible w internetBankingSelectors ->
     exists new,
       yields (Browser.GetAccounts c) w
              (Err (ErrorfW "failed to scrape NAB accounts: %w"
                            (Errorf "could not find Internet Banking link in dropdown"))) new /\
       captures new = 2)
    /\
    (reachable w c -> shows w loginButtonSelectors ->
     shows w internetBankingSelectors -> neverVisible w loginSelectors ->
     exists new,
       yields (Browser.GetAccounts c) w
              (Err (ErrorfW "failed to scrape NAB accounts: %w"
                            (Errorf "could not find username input field"))) new /\
       captures new = 1)
    /\
    (reachable w c -> shows w loginButtonSelectors ->
     shows w internetBankingSelectors -> shows w loginSelectors ->
     neverVisible w passwordSelectors ->
     exists new,
       yields (Browser.GetAccounts c) w
              (Err (ErrorfW "failed to scrape NAB accounts: %w"
                            (Errorf "could not find password input field"))) new /\
       captures new = 1)
    /\
    (reachable w c -> shows w loginButtonSelectors ->
     shows w internetBankingSelectors -> shows w loginSelectors ->
     shows w passwordSelectors -> neverVisible w submitSelectors ->
     exists new,
       yields (Browser.GetAccounts c) w
              (Err (ErrorfW "failed to scrape NAB accounts: %w"
                            (Errorf "could not find submit button"))) new /\
       captures new = 1).
Proof.
  intros c w. split; [|split; [|split; [|split; [|split]]]].
  - destruct (GetAccounts_spec c w) as (r & new & Hy & Hr).
    exists r, new. split; [exact Hy|]. destruct r; [exact Hr|apply Hr].
  - apply GetAccounts_no_login_button.
  - apply GetAccounts_no_internet_banking.
  - apply GetAccounts_no_username.
  - apply GetAccounts_no_password.
  - apply GetAccounts_no_submit.
Qed.

Lemma bodyOnly_reachable : reachable (Sample.world Sample.bodyOnly) Sample.client.
Proof. repeat split; intros ?; try intros ?; eexists; reflexivity. Defined.

Lemma bodyOnly_neverVisible :
  neverVisible (Sample.world Sample.bodyOnly) loginButtonSelectors.
Proof.
  intros tr sel Hin. simpl in Hin.
  repeat (destruct Hin as [<-|Hin]; [eexists; reflexivity|]). destruct Hin.
Defined.

Lemma noInputs_reachable : reachable (Sample.world Sample.noInputs) Sample.client.
Proof. repeat split; intros ?; try intros ?; eexists; reflexivity. Defined.

Lemma noInputs_shows_login :
  shows (Sample.world Sample.noInputs) loginButtonSelectors.
Proof. eexists. split; [left; reflexivity|]. intros tr. eexists. reflexivity. Defined.

Lemma noInputs_shows_banking :
  shows (Sample.world Sample.noInputs) internetBankingSelectors.
Proof. eexists. split; [left; reflexivity|]. intros tr. eexists. reflexivity. Defined.

Lemma noInputs_neverVisible :
  neverVisible (Sample.world Sample.noInputs) loginSelectors.
Proof.
  intros tr sel Hin. simpl in Hin.
  repeat (destruct Hin as [<-|Hin]; [eexists; reflexivity|]). destruct Hin.
Defined.

(** The amended C3 at two sample sites: one with no login button, one
    whose login form has no input field. *)
Lemma captures_per_unresolved_role_witness :
  (exists new,
      yields (Browser.GetAccounts Sample.client) (Sample.world Sample.bodyOnly)
             (Err (ErrorfW "failed to scrape NAB accounts: %w"
                           (Errorf "could not find login button"))) new /\
      captures new = 2) /\
  (exists new,
      yields (Browser.GetAccounts Sample.client) (Sample.world Sample.noInputs)
             (Err (ErrorfW "failed to scrape NAB accounts: %w"
                           (Errorf "could not find username input field"))) new /\
      captures new = 1).
Proof.
  split.
  - apply (proj1 (proj2 (captures_per_unresolved_role
                           Sample.client (Sample.world Sample.bodyOnly)))).
    + exact bodyOnly_reachable.
    + exact bodyOnly_neverVisible.
  - apply (proj1 (proj2 (proj2 (proj2 (captures_per_unresolved_role
                           Sample.client (Sample.world Sample.noInputs)))))).
    + exact noInputs_reachable.
    + exact noInputs_shows_login.
    + exact noInputs_shows_banking.
    + exact noInputs_neverVisible.
Defined.

(** ** C2 *)

Lemma declaredKind_wrapped format cause : ~ declaredKind (ErrorfW format cause).
Proof. intros [H|[H|H]]; discriminate. Qed.

(** C2 (as stated, refuted). On a site with no login button the call
    returns an error that is none of the declared kinds: the wrapped
    step error. The service passes it on as it is, and the handler
    answers with the generic internal error, status 500. *)
Lemma scrape_failure_not_classified :
  let w := Sample.world Sample.bodyOnly in
  let e := ErrorfW "failed to scrape NAB accounts: %w"
                   (Errorf "could not find login button") in
  fst (Browser.GetAccounts Sample.client w) = Err e /\
  ~ declaredKind e /\
  fst (GetAccountDetails (NewAccountService Sample.client) "account_1" w) = Err e /\
  fst (GetAccount (NewAccountsHandler (NewAccountService Sample.client))
                  (Sample.request "account_1") w)
  = {| StatusCode := 500;
       Data := ErrorResponse ErrorTypeInternalError
                 "Failed to retrieve account details" (Some e) 34 |}.
Proof.
  split; [vm_compute; reflexivity|].
  split; [apply declaredKind_wrapped|].
  split; vm_compute; reflexivity.
Qed.

(** C2 (amended). Every failure inside [GetAccounts] comes back as one
    generic error, the underlying error wrapped under the message
    "failed to scrape NAB accounts"; it is never one of the declared
    kinds. [GetAccountDetails] returns it unchanged and the handler
    answers it with status 500 and the internal-error label. *)
Theorem scrape_failure_is_wrapped :
  forall (c : Browser.NABClient) (req : Request) (w w' : World) (e : error),
    let entry := Log "GetAccount: %s %s (ID: %s)"
                     [LStr (Method req); LStr (Path req); LStr (accountId req)] in
    accountId req <> "" ->
    Browser.GetAccounts c (after w [entry]) = (Err e, w') ->
    (exists cause, e = ErrorfW "failed to scrape NAB accounts: %w" cause) /\
    ~ declaredKind e /\
    GetAccountDetails (NewAccountService c) (accountId req) (after w [entry]) = (Err e, w') /\
    exists t,
      fst (GetAccount (NewAccountsHandler (NewAccountService c)) req w)
      = {| StatusCode := StatusInternalServerError;
           Data := ErrorResponse ErrorTypeInternalError
                     "Failed to retrieve account details" (Some e) t |}.
Proof.
  intros c req w w' e entry Hid Hget.
  assert (Hw : exists cause, e = ErrorfW "failed to scrape NAB accounts: %w" cause).
  { destruct (GetAccounts_spec c (after w [entry])) as (r & new & Hy & Hr).
    unfold yields in Hy. rewrite Hget in Hy. injection Hy as <- _. apply Hr. }
  destruct Hw as [cause ->].
  split; [eauto|]. split; [apply declaredKind_wrapped|].
  assert (Hdetails :
            GetAccountDetails (NewAccountService c) (accountId req) (after w [entry])
            = (Err (ErrorfW "failed to scrape NAB accounts: %w" cause), w')).
  { simpl. unfold accountService_GetAccountDetails, bind. simpl.
    simpl in Hget. rewrite Hget. reflexivity. }
  split; [exact Hdetails|].
  apply String.eqb_neq in Hid.
  unfold GetAccount. unfold bind at 1. unfold logf, emit.
  fold entry. fold (after w [entry]). rewrite Hid.
  unfold bind at 1. simpl accountService. rewrite Hdetails.
  eexists. reflexivity.
Qed.

Lemma scrape_failure_is_wrapped_witness :
  (exists cause,
      ErrorfW "failed to scrape NAB accounts: %w" (Errorf "could not find login button")
      = ErrorfW "failed to scrape NAB accounts: %w" cause) /\
  exists t,
    fst (GetAccount (NewAccountsHandler (NewAccountService Sample.client))
                    (Sample.request "account_1") (Sample.world Sample.bodyOnly))
    = {| StatusCode := 500;
         Data := ErrorResponse ErrorTypeInternalError
                   "Failed to retrieve account details"
                   (Some (ErrorfW "failed to scrape NAB accounts: %w"
                                  (Errorf "could not find login button"))) t |}.
Proof.
  assert (Hid : accountId (Sample.request "account_1") <> "") by discriminate.
  set (w1 := after (Sample.world Sample.bodyOnly)
                   [Log "GetAccount: %s %s (ID: %s)"
                        [LStr (Method (Sample.request "account_1"));
                         LStr (Path (Sample.request "account_1"));
                         LStr (accountId (Sample.request "account_1"))]]).
  assert (Hget : Browser.GetAccounts Sample.client w1
                 = (Err (ErrorfW "failed to scrape NAB accounts: %w"
                                 (Errorf "could not find login button")),
                    snd (Browser.GetAccounts Sample.client w1)))
    by (vm_compute; reflexivity).
  destruct (scrape_failure_is_wrapped Sample.client (Sample.request "account_1")
              (Sample.world Sample.bodyOnly) _ _ Hid Hget) as (H1 & _ & _ & H2).
  split; [exact H1|exact H2].
Defined.

End FailureKinds.

(* ===================================================================== *)
(** * The account service and the mock provider *)
(* ===================================================================== *)

Section ServiceClaims.
Import Service.

Lemma findTarget_absent (accounts : list Account) (accountID : string) :
  (forall a, In a accounts -> ID a <> accountID) ->
  findTarget accounts accountID = None.
Proof.
  induction accounts as [|a more IH]; intros Habsent; [reflexivity|].
  simpl. destruct (String.eqb_spec (ID a) accountID) as [Heq|_].
  - exfalso. apply (Habsent a); [now left|exact Heq].
  - apply IH. intros b Hb. apply Habsent. now right.
Qed.

(** ** C7 *)

(** C7. Whatever the client behind the service, when the listing
    succeeds and holds no account with the requested identifier,
    [GetAccountDetails] returns the [ErrAccountNotFound] value itself, and
    the world is left as the listing left it: nothing else was done, so
    [GetAccountTransactions] was not called. On the mock provider, asking
    for "doesnotexist" changes nothing at all. *)
Theorem absent_account_is_not_found :
  forall (C : Type) `{NABClient C} (c : C) (accountID : string)
         (accounts : list Account) (w w1 : World),
    GetAccounts c w = (Ok accounts, w1) ->
    (forall a, In a accounts -> ID a <> accountID) ->
    GetAccountDetails (NewAccountService c) accountID w = (Err ErrAccountNotFound, w1).
Proof.
  intros C HC c accountID accounts w w1 Hlist Habsent.
  simpl. unfold accountService_GetAccountDetails, bind. simpl.
  rewrite Hlist, (findTarget_absent _ _ Habsent). reflexivity.
Qed.

Lemma absent_account_is_not_found_witness :
  GetAccountDetails (NewAccountService NewMockNABClient) "doesnotexist"
                    (Sample.world (Sample.site ""))
  = (Err ErrAccountNotFound, Sample.world (Sample.site "")).
Proof.
  eapply absent_account_is_not_found.
  - reflexivity.
  - intros a Hin. simpl in Hin.
    repeat (destruct Hin as [<-|Hin]; [discriminate|]). destruct Hin.
Defined.

(** ** C8 *)

(** C8. In every world the mock provider lists the same three accounts,
    12345678, 87654321 and 11223344 with balances 2543.67, 847.23 and
    15420.89, in that order, and does nothing else; through the service
    the same three come back, stamped with the time of the call. *)
Theorem mock_lists_three_accounts :
  forall (m : MockNABClient) (w : World),
    exists accounts,
      GetAccounts m w = (Ok accounts, w) /\
      List.length accounts = 3 /\
      map ID accounts = ["12345678"; "87654321"; "11223344"] /\
      map (fun a => Amount (Balance a)) accounts = ["2543.67"; "847.23"; "15420.89"] /\
      exists now,
        GetAllAccounts (NewAccountService m) w
        = (Ok (map (fun a => withLastUpdated a now) accounts), after w [Now now]).
Proof.
  intros m w. eexists. split; [reflexivity|].
  repeat split. exists (clock w (trace w)). reflexivity.
Qed.

(** ** C9 *)

(** C9. In every world, the details of account 87654321 on the mock
    provider are the account with that identifier and three
    transactions, whose identifiers are txn_001, txn_002 and txn_003
    followed by the suffix _87654321. *)
Theorem mock_details_of_87654321 :
  forall (w : World),
    exists details w',
      GetAccountDetails (NewAccountService NewMockNABClient) "87654321" w
      = (Ok details, w') /\
      ID (DetailsAccount details) = "87654321" /\
      List.length (Transactions details) = 3 /\
      RecentTransactionCount details = 3 /\
      map TxID (Transactions details)
      = ["txn_001" ++ "_87654321"; "txn_002" ++ "_87654321";
         "txn_003" ++ "_87654321"]%string /\
      Forall (fun t => exists prefix, TxID t = (prefix ++ "_87654321")%string)
             (Transactions details).
Proof.
  intros w. eexists. eexists. split; [reflexivity|].
  repeat split.
  repeat constructor; simpl; [exists "txn_001"|exists "txn_002"|exists "txn_003"];
    reflexivity.
Qed.

End ServiceClaims.

(* ===================================================================== *)
(** * Text extraction: strings *)
(* ===================================================================== *)

Section StringFacts.
Import Strings.

Lemma HasPrefix_app s p :
  HasPrefix s p = true <-> exists post, s = (p ++ post)%string.
Proof.
  unfold HasPrefix. revert s. induction p as [|c p IH]; intros s.
  - destruct s; simpl; (split; [intros _; eexists; reflexivity|reflexivity]).
  - destruct s as [|d s]; simpl; [split; [discriminate|intros [post H]; discriminate]|].
    destruct (ascii_dec c d) as [->|Hne].
    + rewrite IH. split; intros [post H]; exists post; [now rewrite H|now injection H].
    + split; [discriminate|]. intros [post H]. injection H as H _. congruence.
Qed.

Local Arguments HasPrefix : simpl never.

Lemma Contains_app s sub :
  Contains s sub = true <-> exists pre post, s = (pre ++ sub ++ post)%string.
Proof.
  induction s as [|c s IH]; simpl; rewrite orb_true_iff, HasPrefix_app.
  - split.
    + intros [[post H]|H]; [|discriminate]. exists "", post. exact H.
    + intros (pre & post & H). left. destruct pre; [now exists post|discriminate].
  - rewrite IH. split.
    + intros [[post H]|(pre & post & H)].
      * exists "", post. exact H.
      * exists (String c pre), post. simpl. now rewrite H.
    + intros (pre & post & H). destruct pre as [|d pre].
      * left. now exists post.
      * right. injection H as _ H. now exists pre, post.
Qed.

Lemma string_app_assoc (a b c : string) : ((a ++ b) ++ c = a ++ (b ++ c))%string.
Proof. induction a as [|x a IH]; simpl; [reflexivity|now rewrite IH]. Qed.

(** A text that contains a phrase contains every part of the phrase. *)
Lemma Contains_part s a b c :
  Contains s (a ++ b ++ c)%string = true -> Contains s b = true.
Proof.
  rewrite !Contains_app. intros (pre & post & H).
  exists (pre ++ a)%string, (c ++ post)%string.
  now rewrite H, !string_app_assoc.
Qed.

End StringFacts.

Section Classification.
Import Strings Browser.

(** ** C5 *)

(** C5. The account type is found by looking for keywords in the
    lower-cased text in a fixed order: it is what the first matching row
    of the table (saver or savings, then credit, then loan, then
    investment) says, and checking when no row matches. So a text with
    "reward saver" in it is a savings account, a text with "credit card"
    and no savings word is a credit account, and a text with none of the
    keywords is a checking account. Lower-casing is byte by byte on ASCII
    text, so there the case of the letters does not matter. *)
Theorem account_type_by_ordered_keywords :
  forall (unicodeLower : string -> string) (text : string),
    let lowered := ToLower unicodeLower text in
    extractAccountType unicodeLower text = classifyByTable keywordTable lowered /\
    (Contains lowered "reward saver" = true ->
     extractAccountType unicodeLower text = AccountTypeSavings) /\
    (Contains lowered "credit card" = true ->
     Contains lowered "saver" = false -> Contains lowered "savings" = false ->
     extractAccountType unicodeLower text = AccountTypeCredit) /\
    (Contains lowered "saver" = false -> Contains lowered "savings" = false ->
     Contains lowered "credit" = false -> Contains lowered "loan" = false ->
     Contains lowered "investment" = false ->
     extractAccountType unicodeLower text = AccountTypeChecking) /\
    (forall text', isASCII text = true -> isASCII text' = true ->
                   mapBytes lowerByte text = mapBytes lowerByte text' ->
                   extractAccountType unicodeLower text
                   = extractAccountType unicodeLower text').
Proof.
  intros unicodeLower text lowered.
  assert (Hspec : extractAccountType unicodeLower text
                  = classifyByTable keywordTable lowered).
  { unfold extractAccountType. fold lowered. simpl.
    destruct (Contains lowered "saver"), (Contains lowered "savings"),
      (Contains lowered "credit"), (Contains lowered "loan"),
      (Contains lowered "investment"); reflexivity. }
  split; [exact Hspec|].
  split; [|split; [|split]].
  - intros H. rewrite Hspec. simpl.
    rewrite (Contains_part lowered "reward " "saver" "" H). reflexivity.
  - intros H Hs1 Hs2. rewrite Hspec. simpl. rewrite Hs1, Hs2. simpl.
    rewrite (Contains_part lowered "" "credit" " card" H). reflexivity.
  - intros H1 H2 H3 H4 H5. rewrite Hspec. simpl.
    rewrite H1, H2, H3, H4, H5. reflexivity.
  - intros text' Ha Ha' Heq. unfold extractAccountType, ToLower.
    rewrite Ha, Ha', Heq. reflexivity.
Qed.

Lemma account_type_by_ordered_keywords_witness :
  extractAccountType (fun s => s) "NAB Reward Saver" = AccountTypeSavings /\
  extractAccountType (fun s => s) "credit card" = AccountTypeCredit /\
  extractAccountType (fun s => s) "Everyday Account" = AccountTypeChecking /\
  extractAccountType (fun s => s) "CREDIT CARD"
  = extractAccountType (fun s => s) "credit card".
Proof.
  split; [|split; [|split]].
  - apply (proj1 (proj2 (account_type_by_ordered_keywords
                           (fun s => s) "NAB Reward Saver"))).
    reflexivity.
  - apply (proj1 (proj2 (proj2 (account_type_by_ordered_keywords
                                  (fun s => s) "credit card")))); reflexivity.
  - apply (proj1 (proj2 (proj2 (proj2 (account_type_by_ordered_keywords
                                         (fun s => s) "Everyday Account")))));
      reflexivity.
  - apply (proj2 (proj2 (proj2 (proj2 (account_type_by_ordered_keywords
                                         (fun s => s) "CREDIT CARD")))));
      reflexivity.
Defined.

End Classification.

(* ===================================================================== *)
(** * Text extraction: the currency patterns *)
(* ===================================================================== *)

Section Patterns.
Import Strings Regexp Browser.

(** How [run] joins the match of the first part of a concatenation with
    a match of the second, and a match extended by a leading byte. *)
Local Notation "m1 >+> m2" :=
  (Found (whole m1 ++ whole m2) (groups m1 ++ groups m2) (rest m2)) (at level 60).
Local Notation "c >: m" := (Found (String c (whole m)) (groups m) (rest m)) (at level 60).

Local Arguments inClass : simpl never.
Local Arguments Ascii.eqb : simpl never.

Lemma run_fraction s :
  run (Cat (Lit ".") (Repeat 2 digits)) s
  = match fractionAt s with
    | Some (m, post) => [Found m [] post]
    | None => []
    end.
Proof.
  unfold fractionAt, isDigit.
  destruct s as [|dot [|d1 [|d2 post]]]; simpl; try reflexivity;
    destruct (Ascii.eqb "." dot); simpl; try reflexivity;
    repeat match goal with
           | |- context [inClass digits ?d] => destruct (inClass digits d); simpl
           end; reflexivity.
Qed.

Lemma fractionAt_class c t : isDigitOrComma c = true -> fractionAt (String c t) = None.
Proof.
  intros Hc. unfold fractionAt.
  destruct t as [|d1 [|d2 post]]; try reflexivity.
  destruct (Ascii.eqb_spec "."%char c) as [<-|Hne]; [discriminate Hc|reflexivity].
Qed.

Lemma spanClass_stops cl s : fst (spanClass cl s) = "" -> snd (spanClass cl s) = s.
Proof.
  destruct s as [|c t]; simpl; [reflexivity|].
  destruct (inClass cl c); [discriminate|reflexivity].
Qed.

Lemma spanClass_starts cl s c a :
  fst (spanClass cl s) = String c a -> exists t, s = String c t /\ inClass cl c = true.
Proof.
  destruct s as [|d t]; simpl; [discriminate|].
  destruct (inClass cl d) eqn:E; simpl; [|discriminate].
  intros H. injection H as -> _. eauto.
Qed.

Lemma spanClass_app cl s : s = (fst (spanClass cl s) ++ snd (spanClass cl s))%string.
Proof.
  induction s as [|c t IH]; simpl; [reflexivity|].
  destruct (inClass cl c); simpl; [now rewrite <- IH|reflexivity].
Qed.

Lemma spanClass_all cl s : allBytes (inClass cl) (fst (spanClass cl s)) = true.
Proof.
  induction s as [|c t IH]; simpl; [reflexivity|].
  destruct (inClass cl c) eqn:E; simpl; [now rewrite E|reflexivity].
Qed.

(** A run of class bytes followed by a byte outside the class is the
    longest run. *)
Lemma spanClass_run cl a c t :
  allBytes (inClass cl) a = true -> inClass cl c = false ->
  spanClass cl (a ++ String c t)%string = (a, String c t).
Proof.
  intros Ha Hc. induction a as [|x a IH]; simpl in *.
  - now rewrite Hc.
  - apply andb_true_iff in Ha as [Hx Ha]. rewrite Hx, (IH Ha). reflexivity.
Qed.

Lemma flat_map_spans_push (K : string -> list found) c (l : list (string * string)) :
  flat_map (fun m1 => map (fun m2 => m1 >+> m2) (K (rest m1)))
           (map (fun p => Found (fst p) [] (snd p))
                (map (fun p => (String c (fst p), snd p)) l))
  = map (fun m => c >: m)
        (flat_map (fun m1 => map (fun m2 => m1 >+> m2) (K (rest m1)))
                  (map (fun p => Found (fst p) [] (snd p)) l)).
Proof.
  induction l as [|p l IH]; simpl; [reflexivity|].
  rewrite map_app, IH, map_map. reflexivity.
Qed.

(** A greedy run of class bytes followed by something that cannot start
    with a class byte: only the longest run can lead to a match. *)
Lemma run_plus_then (K : string -> list found) cl s :
  (forall c t, inClass cl c = true -> K (String c t) = []) ->
  flat_map (fun m1 => map (fun m2 => m1 >+> m2) (K (rest m1))) (run (Plus cl) s)
  = match fst (spanClass cl s) with
    | String c a =>
        map (fun m2 => Found (String c a ++ whole m2) (groups m2) (rest m2))
            (K (snd (spanClass cl s)))
    | EmptyString => []
    end.
Proof.
  intros HK. induction s as [|c t IH]; [reflexivity|].
  simpl run in *. simpl spans. simpl spanClass.
  destruct (inClass cl c) eqn:Ec; [|reflexivity].
  rewrite map_app, flat_map_app, flat_map_spans_push, IH. simpl.
  rewrite app_nil_r.
  destruct (fst (spanClass cl t)) as [|c' a] eqn:Ef.
  - simpl. now rewrite (spanClass_stops _ _ Ef).
  - destruct (spanClass_starts _ _ _ _ Ef) as (t' & -> & Hc').
    rewrite (HK c' t' Hc'), app_nil_r, map_map. reflexivity.
Qed.

Lemma run_number s :
  run (Cat (Plus digitsOrComma) (Cat (Lit ".") (Repeat 2 digits))) s
  = match numberAt s with
    | Some (m, post) => [Found m [] post]
    | None => []
    end.
Proof.
  change (run (Cat (Plus digitsOrComma) (Cat (Lit ".") (Repeat 2 digits))) s)
    with (flat_map (fun m1 => map (fun m2 => m1 >+> m2)
                                  (run (Cat (Lit ".") (Repeat 2 digits)) (rest m1)))
                   (run (Plus digitsOrComma) s)).
  rewrite run_plus_then.
  - unfold numberAt. rewrite (surjective_pairing (spanClass digitsOrComma s)).
    destruct (fst (spanClass digitsOrComma s)) as [|c a]; [reflexivity|].
    rewrite run_fraction. simpl.
    destruct (fractionAt (snd (spanClass digitsOrComma s))) as [[m post]|]; reflexivity.
  - intros c t Hc. rewrite run_fraction, (fractionAt_class c t Hc). reflexivity.
Qed.


Lemma string_length_app (a b : string) :
  String.length (a ++ b)%string = String.length a + String.length b.
Proof. induction a as [|c a IH]; simpl; [reflexivity|now rewrite IH]. Qed.

Lemma fractionAt_sound s m post :
  fractionAt s = Some (m, post) ->
  exists d1 d2, m = ("." ++ cents d1 d2)%string /\ s = (m ++ post)%string /\
                isDigit d1 = true /\ isDigit d2 = true.
Proof.
  unfold fractionAt. destruct s as [|dot [|d1 [|d2 t]]]; try discriminate.
  destruct (Ascii.eqb_spec "."%char dot) as [<-|]; [|discriminate].
  destruct (isDigit d1) eqn:E1; [|discriminate].
  destruct (isDigit d2) eqn:E2; [|discriminate].
  simpl. intros H. injection H as <- <-. exists d1, d2. auto.
Qed.

Lemma fractionAt_complete d1 d2 post :
  isDigit d1 = true -> isDigit d2 = true ->
  fractionAt ("." ++ cents d1 d2 ++ post)%string = Some (("." ++ cents d1 d2)%string, post).
Proof. intros H1 H2. simpl. now rewrite H1, H2. Qed.

Lemma numberAt_sound s m post :
  numberAt s = Some (m, post) ->
  s = (m ++ post)%string /\
  exists body d1 d2,
    m = (body ++ "." ++ cents d1 d2)%string /\ body <> "" /\
    allBytes isDigitOrComma body = true /\ isDigit d1 = true /\ isDigit d2 = true.
Proof.
  unfold numberAt. rewrite (surjective_pairing (spanClass digitsOrComma s)).
  pose proof (spanClass_app digitsOrComma s) as Happ.
  pose proof (spanClass_all digitsOrComma s) as Hall.
  destruct (fst (spanClass digitsOrComma s)) as [|c body]; [discriminate|].
  destruct (fractionAt (snd (spanClass digitsOrComma s))) as [[f t]|] eqn:Ef;
    [|discriminate].
  intros H. injection H as <- <-.
  destruct (fractionAt_sound _ _ _ Ef) as (d1 & d2 & -> & Hs & H1 & H2).
  split.
  - rewrite Happ at 1. rewrite Hs. simpl. f_equal. symmetry.
    apply (string_app_assoc body ("." ++ cents d1 d2) t).
  - exists (String c body), d1, d2. repeat split; auto. discriminate.
Qed.

Lemma numberAt_complete body d1 d2 post :
  body <> "" -> allBytes isDigitOrComma body = true ->
  isDigit d1 = true -> isDigit d2 = true ->
  numberAt (body ++ "." ++ cents d1 d2 ++ post)%string
  = Some ((body ++ "." ++ cents d1 d2)%string, post).
Proof.
  intros Hne Hall H1 H2. unfold numberAt.
  change (body ++ "." ++ cents d1 d2 ++ post)%string
    with (body ++ String "." (cents d1 d2 ++ post))%string.
  rewrite (spanClass_run digitsOrComma body "." _ Hall eq_refl).
  destruct body as [|c body]; [congruence|].
  change (String "." (cents d1 d2 ++ post)) with ("." ++ cents d1 d2 ++ post)%string.
  rewrite (fractionAt_complete _ _ _ H1 H2). reflexivity.
Qed.

Lemma run_lit a c t :
  run (Lit a) (String c t) = if Ascii.eqb a c then [Found (String c "") [] t] else [].
Proof. reflexivity. Qed.

Lemma run_balanceRegex s :
  run balanceRegex s
  = match s with
    | String c t =>
        if Ascii.eqb "$" c then
          match numberAt t with
          | Some (m, post) => [Found (String c m) [] post]
          | None => []
          end
        else []
    | EmptyString => []
    end.
Proof.
  unfold balanceRegex.
  change (run (Cat (Lit "$") (Cat (Plus digitsOrComma) (Cat (Lit ".") (Repeat 2 digits)))) s)
    with (flat_map (fun m1 => map (fun m2 => m1 >+> m2)
              (run (Cat (Plus digitsOrComma) (Cat (Lit ".") (Repeat 2 digits))) (rest m1)))
            (run (Lit "$") s)).
  destruct s as [|c t]; [reflexivity|]. rewrite run_lit.
  destruct (Ascii.eqb "$" c); [|reflexivity].
  cbn [flat_map rest]. rewrite run_number, app_nil_r.
  destruct (numberAt t) as [[m post]|]; reflexivity.
Qed.

Lemma run_amountRegex s :
  run amountRegex s
  = match s with
    | String c t =>
        if Ascii.eqb "$" c then
          match numberAt t with
          | Some (m, post) => [Found (String c m) [m] post]
          | None => []
          end
        else []
    | EmptyString => []
    end
    ++ match numberAt s with
       | Some (m, post) => [Found m [m] post]
       | None => []
       end.
Proof.
  unfold amountRegex.
  change (run (Cat (Quest (Lit "$"))
                   (Capture (Cat (Plus digitsOrComma) (Cat (Lit ".") (Repeat 2 digits))))) s)
    with (flat_map
            (fun m1 => map (fun m2 => m1 >+> m2)
               (map (fun m => Found (whole m) (whole m :: groups m) (rest m))
                    (run (Cat (Plus digitsOrComma) (Cat (Lit ".") (Repeat 2 digits)))
                         (rest m1))))
            (run (Lit "$") s ++ [Found "" [] s])).
  rewrite flat_map_app. f_equal.
  - destruct s as [|c t]; [reflexivity|]. rewrite run_lit.
    destruct (Ascii.eqb "$" c); [|reflexivity].
    cbn [flat_map rest]. rewrite run_number, app_nil_r.
    destruct (numberAt t) as [[m post]|]; reflexivity.
  - cbn [flat_map rest]. rewrite run_number, app_nil_r.
    destruct (numberAt s) as [[m post]|]; reflexivity.
Qed.

(** What the page pattern finds at the start of a text is an occurrence
    of the pattern, and it finds one whenever one starts the text. *)
Lemma matchAt_balance_some s m :
  matchAt balanceRegex s = Some m ->
  isAmount (whole m) /\ s = (whole m ++ rest m)%string.
Proof.
  unfold matchAt. rewrite run_balanceRegex.
  destruct s as [|c t]; [discriminate|].
  destruct (Ascii.eqb_spec "$"%char c) as [<-|]; [|discriminate].
  destruct (numberAt t) as [[n post]|] eqn:En; [|discriminate].
  intros H. injection H as <-. simpl.
  destruct (numberAt_sound _ _ _ En) as (-> & body & d1 & d2 & -> & Hne & Hall & H1 & H2).
  split; [|reflexivity]. exists body, d1, d2. auto.
Qed.

Lemma matchAt_balance_none s :
  matchAt balanceRegex s = None -> forall m, ~ amountPrefix m s.
Proof.
  unfold matchAt. rewrite run_balanceRegex.
  intros Hnone m [(body & d1 & d2 & -> & Hne & Hall & H1 & H2) [post ->]].
  replace (("$" ++ body ++ "." ++ cents d1 d2) ++ post)%string
    with (String "$" (body ++ "." ++ cents d1 d2 ++ post)%string) in Hnone.
  - rewrite Ascii.eqb_refl,
      (numberAt_complete body d1 d2 post Hne Hall H1 H2) in Hnone. discriminate.
  - simpl. f_equal. symmetry. apply (string_app_assoc body ("." ++ cents d1 d2) post).
Qed.

(** ** The search and the find-all loop *)

Lemma search_some r s pre m :
  search r s = Some (pre, m) ->
  exists t, s = (pre ++ t)%string /\ matchAt r t = Some m /\
            forall pre1 pre2, pre = (pre1 ++ pre2)%string -> pre2 <> "" ->
                              matchAt r (pre2 ++ t)%string = None.
Proof.
  revert pre. induction s as [|c s IH]; intros pre; simpl.
  - destruct (matchAt r "") as [m0|] eqn:E; [|discriminate].
    intros H. injection H as <- <-. exists "". repeat split; auto.
    intros pre1 pre2 H. destruct pre1, pre2; try discriminate. congruence.
  - destruct (matchAt r (String c s)) as [m0|] eqn:E.
    + intros H. injection H as <- <-. exists (String c s). repeat split; auto.
      intros pre1 pre2 H. destruct pre1, pre2; try discriminate. congruence.
    + destruct (search r s) as [[skipped m0]|] eqn:Es; [|discriminate].
      intros H. injection H as <- <-.
      destruct (IH skipped eq_refl) as (t & -> & Hm & Hearlier).
      exists t. repeat split; auto.
      intros pre1 pre2 H Hne. destruct pre1 as [|x pre1]; simpl in H.
      * subst pre2. exact E.
      * injection H as _ H. now apply (Hearlier pre1).
Qed.

Lemma search_none r s :
  search r s = None -> forall pre t, s = (pre ++ t)%string -> matchAt r t = None.
Proof.
  induction s as [|c s IH]; simpl.
  - destruct (matchAt r "") eqn:E; [discriminate|].
    intros _ pre t H. destruct pre, t; try discriminate. exact E.
  - destruct (matchAt r (String c s)) eqn:E; [discriminate|].
    destruct (search r s) as [[skipped m0]|] eqn:Es; [discriminate|].
    intros _ pre t H. destruct pre as [|x pre]; simpl in H.
    + now subst t.
    + injection H as _ H. now apply (IH eq_refl pre).
Qed.

Lemma isAmount_nonempty m : isAmount m -> exists c t, m = String c t.
Proof. intros (body & d1 & d2 & -> & _). simpl. eauto. Qed.

Lemma allMatches_occurrences fuel : forall s,
  String.length s < fuel -> Occurrences s (allMatches fuel balanceRegex s).
Proof.
  induction fuel as [|fuel IH]; intros s Hlen; [lia|].
  simpl. destruct (search balanceRegex s) as [[pre m]|] eqn:Es.
  - destruct (search_some _ _ _ _ Es) as (t & -> & Hm & Hearlier).
    destruct (matchAt_balance_some _ _ Hm) as [Ham ->].
    destruct (isAmount_nonempty _ Ham) as (c & body & Hw). rewrite Hw.
    rewrite <- Hw. apply occ_next with (pre := pre) (post := rest m); auto.
    + intros pre1 pre2 m' Hpre Hne.
      apply matchAt_balance_none. now apply (Hearlier pre1).
    + apply IH. rewrite !string_length_app in Hlen. rewrite Hw in Hlen.
      simpl in Hlen. lia.
  - apply occ_none. intros pre t m Hs.
    apply matchAt_balance_none. now apply (search_none _ _ Es pre).
Qed.

Lemma FindAllString_occurrences s : Occurrences s (FindAllString balanceRegex s).
Proof. apply allMatches_occurrences. lia. Qed.

Lemma Occurrences_amounts s ms : Occurrences s ms -> Forall isAmount ms.
Proof. induction 1; constructor; auto. Qed.


(** ** Cleaning a balance *)

Lemma HasPrefix_empty s : HasPrefix s "" = true.
Proof. destruct s; reflexivity. Qed.

Lemma TrimPrefix_dollar s : TrimPrefix (String "$" s) "$" = s.
Proof. unfold TrimPrefix, HasPrefix. simpl. destruct s; reflexivity. Qed.

Lemma ReplaceAll_comma_cons c t :
  ReplaceAll (String c t) "," ""
  = if Ascii.eqb "," c then ReplaceAll t "," "" else String c (ReplaceAll t "," "").
Proof.
  unfold ReplaceAll. cbn [replaceFrom]. unfold HasPrefix. cbn [prefix].
  destruct (Ascii.eqb_spec ","%char c) as [<-|Hne].
  - simpl. destruct t; reflexivity.
  - destruct (ascii_dec "," c); [contradiction|reflexivity].
Qed.

Lemma ReplaceAll_comma_app a b :
  ReplaceAll (a ++ b)%string "," "" = (ReplaceAll a "," "" ++ ReplaceAll b "," "")%string.
Proof.
  induction a as [|c a IH]; [reflexivity|].
  change (String c a ++ b)%string with (String c (a ++ b)%string).
  rewrite !ReplaceAll_comma_cons, IH. destruct (Ascii.eqb "," c); reflexivity.
Qed.

Lemma isDigit_not_comma c : isDigit c = true -> Ascii.eqb "," c = false.
Proof.
  intros H. destruct (Ascii.eqb_spec ","%char c) as [<-|]; [discriminate H|reflexivity].
Qed.

Lemma isDigit_not_dollar c : isDigit c = true -> Ascii.eqb "$" c = false.
Proof.
  intros H. destruct (Ascii.eqb_spec "$"%char c) as [<-|]; [discriminate H|reflexivity].
Qed.

Lemma isDigitOrComma_cases c :
  isDigitOrComma c = true -> isDigit c = true \/ c = ","%char.
Proof.
  unfold isDigitOrComma, isDigit, inClass, digitsOrComma, digits.
  cbn [existsb fst snd]. rewrite !orb_false_r. intros H.
  apply orb_true_iff in H. destruct H as [H|H]; [now left|right].
  apply andb_true_iff in H as [H1 H2]. apply Nat.leb_le in H1, H2.
  change (nat_of_ascii ",") with 44 in *.
  assert (Hc : nat_of_ascii c = 44) by lia.
  rewrite <- (ascii_nat_embedding c), Hc. reflexivity.
Qed.

Lemma isDigit_isDigitOrComma c : isDigit c = true -> isDigitOrComma c = true.
Proof.
  unfold isDigitOrComma, isDigit, inClass, digitsOrComma, digits.
  cbn [existsb fst snd]. rewrite !orb_false_r. intros ->. reflexivity.
Qed.

Lemma allBytes_digits_class s :
  allBytes isDigit s = true -> allBytes isDigitOrComma s = true.
Proof.
  induction s as [|c s IH]; simpl; [reflexivity|].
  rewrite !andb_true_iff. intros [Hc Hs]. split; [now apply isDigit_isDigitOrComma|auto].
Qed.

Lemma ReplaceAll_digits s : allBytes isDigit s = true -> ReplaceAll s "," "" = s.
Proof.
  induction s as [|c s IH]; [reflexivity|]. simpl allBytes.
  rewrite andb_true_iff. intros [Hc Hs].
  now rewrite ReplaceAll_comma_cons, (isDigit_not_comma c Hc), (IH Hs).
Qed.

Lemma ReplaceAll_body s :
  allBytes isDigitOrComma s = true -> allBytes isDigit (ReplaceAll s "," "") = true.
Proof.
  induction s as [|c s IH]; [reflexivity|]. simpl allBytes.
  rewrite andb_true_iff. intros [Hc Hs]. rewrite ReplaceAll_comma_cons.
  destruct (isDigitOrComma_cases c Hc) as [Hd| ->].
  - rewrite (isDigit_not_comma c Hd). simpl. now rewrite Hd, (IH Hs).
  - simpl. now apply IH.
Qed.

(** The cleaned text of a number: the commas go, the dot and the two
    digits stay. *)
Lemma ReplaceAll_number body d1 d2 :
  isDigit d1 = true -> isDigit d2 = true ->
  ReplaceAll (body ++ "." ++ cents d1 d2)%string "," ""
  = (ReplaceAll body "," "" ++ "." ++ cents d1 d2)%string.
Proof.
  intros H1 H2. rewrite ReplaceAll_comma_app. f_equal.
  change ("." ++ cents d1 d2)%string with (String "." (String d1 (String d2 ""))).
  rewrite !ReplaceAll_comma_cons, (isDigit_not_comma d1 H1), (isDigit_not_comma d2 H2).
  reflexivity.
Qed.

(** ** The accounts built from the matches *)

Lemma accountsFrom_length balances : forall i,
  List.length (accountsFrom i balances) = List.length balances.
Proof. induction balances as [|b more IH]; intros i; simpl; [reflexivity|now rewrite IH]. Qed.

Lemma accountsFrom_nth balances : forall i n balance,
  nth_error balances n = Some balance ->
  nth_error (accountsFrom i balances) n
  = Some {| ID := "account_" ++ itoa (i + n + 1);
            Name := "NAB Account " ++ itoa (i + n + 1);
            Type_ := AccountTypeSavings;
            Balance := {| Amount := ReplaceAll (TrimPrefix balance "$") "," "" |};
            AvailableBalance :=
              Some {| Amount := ReplaceAll (TrimPrefix balance "$") "," "" |};
            AccountNumber := None;
            BSB := None;
            LastUpdated := None |}.
Proof.
  induction balances as [|b more IH]; intros i n balance; [destruct n; discriminate|].
  destruct n as [|n]; simpl.
  - intros H. injection H as ->. now rewrite Nat.add_0_r.
  - intros H. rewrite (IH (S i) n balance H).
    replace (S i + n + 1) with (i + S n + 1) by lia. reflexivity.
Qed.

Lemma accountsFrom_placeholders balances : forall i,
  Forall (fun a => Type_ a = AccountTypeSavings /\
                   AvailableBalance a = Some (Balance a) /\
                   AccountNumber a = None /\ BSB a = None /\ LastUpdated a = None)
         (accountsFrom i balances) /\
  map Name (accountsFrom i balances)
  = map (fun n => ("NAB Account " ++ itoa n)%string) (seq (i + 1) (List.length balances)).
Proof.
  induction balances as [|b more IH]; intros i; simpl; [split; constructor|].
  destruct (IH (S i)) as [Hall Hnames]. split.
  - constructor; [repeat split|exact Hall].
  - f_equal. rewrite Hnames. now replace (S i + 1) with (S (i + 1)) by lia.
Qed.

End Patterns.

(* ===================================================================== *)
(** * Text extraction: the accounts of a page and the balance of a text *)
(* ===================================================================== *)

Section Extraction.
Import Strings Regexp Browser.

Local Arguments inClass : simpl never.
Local Arguments Ascii.eqb : simpl never.

(** ** C4 *)

(** ** C10 *)

Lemma task_keeps_accounts (m : M (option error)) accounts w :
  snd (fst (task m accounts w)) = accounts.
Proof. unfold task, bind, ret. destruct (m w). reflexivity. Qed.

Lemma scrapeAccounts_sourced c accounts w :
  exists html, snd (fst (scrapeAccounts c accounts w)) = accountsOfSource html.
Proof.
  destruct (scrapeAccounts_spec c accounts w) as (html & new & Hy & _).
  exists html. unfold yields in Hy. now rewrite Hy.
Qed.

Lemma runTasks_sourced (tasks : list Task) :
  Forall (fun t => forall accounts w,
              (exists html, accounts = accountsOfSource html) ->
              exists html, snd (fst (t accounts w)) = accountsOfSource html) tasks ->
  forall accounts w,
    (exists html, accounts = accountsOfSource html) ->
    exists html, snd (fst (runTasks tasks accounts w)) = accountsOfSource html.
Proof.
  induction 1 as [|t more Ht _ IH]; intros accounts w Hacc; [exact Hacc|].
  simpl. unfold bind. specialize (Ht accounts w Hacc).
  destruct (t accounts w) as [[err accounts'] w1]. simpl in *.
  destruct err; [exact Ht|]. apply IH. destruct Ht as [html ->]. eauto.
Qed.

Lemma Run_sourced c (tasks : list Task) w :
  Forall (fun t => forall accounts w,
              (exists html, accounts = accountsOfSource html) ->
              exists html, snd (fst (t accounts w)) = accountsOfSource html) tasks ->
  exists html, snd (fst (Run c tasks [] w)) = accountsOfSource html.
Proof.
  intros Htasks. unfold Run, bind.
  destruct (do _ w) as [err w1]. destruct err as [e|].
  - exists "". reflexivity.
  - apply runTasks_sourced; [exact Htasks|]. exists "". reflexivity.
Qed.

(** Whatever [GetAccounts] returns with no error was extracted from some
    page source by [extractAccountsGeneric]. *)
Lemma GetAccounts_sourced c w :
  match fst (Browser.GetAccounts c w) with
  | Ok accounts => exists html, accounts = accountsOfSource html
  | Err _ => True
  end.
Proof.
  unfold Browser.GetAccounts. unfold bind at 1. unfold logf, emit.
  unfold bind at 1.
  match goal with
  | |- context [Run c ?ts [] ?w1] =>
      destruct (Run_sourced c ts w1) as [html Hsrc];
        [|destruct (Run c ts [] w1) as [[err accounts] w2]]
  end.
  { repeat constructor;
      try (intros accounts w' Hacc; rewrite task_keeps_accounts; exact Hacc).
    intros accounts w' _. apply scrapeAccounts_sourced. }
  cbn [fst snd] in *. destruct err as [e|]; unfold bind.
  - destruct (takeScreenshot _ _ _). destruct (deferred _). exact I.
  - destruct (deferred _). cbn [fst ret]. eauto.
Qed.

(** C10. Whatever the page says, every account of the generic extractor
    is a savings account whose available balance is its balance, with no
    account number, no BSB and no timestamp, and the n-th one (from 1) is
    named NAB Account n; every list that [GetAccounts] returns is such a
    list. The account-type classifier and the account-number and BSB
    extractors take no part: on a page they would read as a credit
    account with number ****1234 and BSB 084001, the account is still the
    placeholder savings account. *)
Theorem generic_accounts_are_placeholders :
  forall (page : string),
    Forall (fun a => Type_ a = AccountTypeSavings /\
                     AvailableBalance a = Some (Balance a) /\
                     AccountNumber a = None /\ BSB a = None /\ LastUpdated a = None)
           (accountsOfSource page) /\
    map Name (accountsOfSource page)
    = map (fun n => ("NAB Account " ++ itoa n)%string)
          (seq 1 (List.length (accountsOfSource page))) /\
    (forall c w,
        match fst (Browser.GetAccounts c w) with
        | Ok accounts => exists html, accounts = accountsOfSource html
        | Err _ => True
        end) /\
    (let sample := "Credit Card ****1234 BSB 084-001 $5.00" in
     extractAccountType (fun s => s) sample = AccountTypeCredit /\
     extractAccountNumber sample = "****1234" /\
     extractBSB sample = "084001" /\
     accountsOfSource sample
     = [ {| ID := "account_1"; Name := "NAB Account 1"; Type_ := AccountTypeSavings;
            Balance := {| Amount := "5.00" |};
            AvailableBalance := Some {| Amount := "5.00" |};
            AccountNumber := None; BSB := None; LastUpdated := None |} ]).
Proof.
  intros page. unfold accountsOfSource at 1 2 3.
  destruct (accountsFrom_placeholders (FindAllString balanceRegex page) 0)
    as [Hall Hnames].
  split; [exact Hall|]. split.
  - rewrite Hnames, accountsFrom_length. reflexivity.
  - split; [apply GetAccounts_sourced|]. vm_compute. repeat split.
Qed.


(** ** C6 *)

Lemma search_here r s m : matchAt r s = Some m -> search r s = Some ("", m).
Proof. intros H. destruct s; simpl; now rewrite H. Qed.

(** What the balance pattern finds at the start of a text: its group is
    a number, with or without a dollar sign before it. *)
Lemma matchAt_amount_some s m :
  matchAt amountRegex s = Some m ->
  exists n post, groups m = [n] /\
                 (numberAt s = Some (n, post) \/
                  exists t, s = String "$" t /\ numberAt t = Some (n, post)).
Proof.
  unfold matchAt. rewrite run_amountRegex.
  destruct s as [|c t].
  - destruct (numberAt "") as [[n post]|] eqn:En; cbn [app hd_error];
      [|discriminate].
    intros H. injection H as <-. exists n, post. auto.
  - destruct (Ascii.eqb_spec "$"%char c) as [<-|_].
    + destruct (numberAt t) as [[n post]|] eqn:En; cbn [app hd_error].
      * intros H. injection H as <-. exists n, post. split; [reflexivity|].
        right. eauto.
      * destruct (numberAt (String "$" t)) as [[n post]|] eqn:En';
          cbn [hd_error]; [|discriminate].
        intros H. injection H as <-. exists n, post. auto.
    + destruct (numberAt (String c t)) as [[n post]|] eqn:En; cbn [app hd_error];
        [|discriminate].
      intros H. injection H as <-. exists n, post. auto.
Qed.

(** The balance of a text, when there is one, is digits, a dot and two
    digits. *)
Lemma extractBalance_shape text :
  extractBalance text = "" \/
  exists body d1 d2,
    extractBalance text = (body ++ "." ++ cents d1 d2)%string /\
    allBytes isDigit body = true /\ isDigit d1 = true /\ isDigit d2 = true.
Proof.
  unfold extractBalance, FindStringSubmatch.
  destruct (search amountRegex text) as [[pre m]|] eqn:Es; [|now left].
  destruct (search_some _ _ _ _ Es) as (t & _ & Hm & _).
  destruct (matchAt_amount_some _ _ Hm) as (n & post & Hg & Hn).
  rewrite Hg. cbn [List.length Nat.ltb Nat.leb nth]. right.
  assert (Hsound : exists body d1 d2,
             n = (body ++ "." ++ cents d1 d2)%string /\
             allBytes isDigitOrComma body = true /\
             isDigit d1 = true /\ isDigit d2 = true).
  { destruct Hn as [Hn|(t' & _ & Hn)];
      destruct (numberAt_sound _ _ _ Hn) as (_ & body & d1 & d2 & H & _ & Hb & H1 & H2);
      exists body, d1, d2; auto. }
  destruct Hsound as (body & d1 & d2 & -> & Hb & H1 & H2).
  exists (ReplaceAll body "," ""), d1, d2.
  rewrite (ReplaceAll_number body d1 d2 H1 H2).
  repeat split; auto. now apply ReplaceAll_body.
Qed.

(** A text that starts with a normalized amount: the amount is the
    balance extracted. *)
Lemma extractBalance_normalized body d1 d2 post :
  body <> "" -> allBytes isDigit body = true ->
  isDigit d1 = true -> isDigit d2 = true ->
  extractBalance (body ++ "." ++ cents d1 d2 ++ post)%string
  = (body ++ "." ++ cents d1 d2)%string.
Proof.
  intros Hne Hbody H1 H2.
  assert (Hn := numberAt_complete body d1 d2 post Hne
                  (allBytes_digits_class _ Hbody) H1 H2).
  assert (Hm : matchAt amountRegex (body ++ "." ++ cents d1 d2 ++ post)%string
               = Some (Found (body ++ "." ++ cents d1 d2)%string
                             [(body ++ "." ++ cents d1 d2)%string] post)).
  { unfold matchAt. rewrite run_amountRegex, Hn.
    destruct body as [|c body]; [congruence|].
    cbn [allBytes] in Hbody. apply andb_true_iff in Hbody as [Hc _].
    change (String c body ++ "." ++ cents d1 d2 ++ post)%string
      with (String c (body ++ "." ++ cents d1 d2 ++ post)%string).
    cbv iota. rewrite (isDigit_not_dollar c Hc). reflexivity. }
  unfold extractBalance, FindStringSubmatch. rewrite (search_here _ _ _ Hm).
  cbn [whole groups List.length Nat.ltb Nat.leb nth].
  rewrite (ReplaceAll_number body d1 d2 H1 H2), (ReplaceAll_digits body Hbody).
  reflexivity.
Qed.

(** C6 (as stated, refuted). The balance extracted from ",.12" is ".12",
    a text with no currency symbol, no separator and two fraction
    digits, and extracting again from ".12" finds nothing; and the page
    scan finds no amount at all in the normalized text "2543.67",
    because its pattern requires the dollar sign. *)
Lemma extraction_not_idempotent :
  extractBalance ",.12" = ".12" /\
  extractBalance (extractBalance ",.12") = "" /\
  map (fun a => Amount (Balance a)) (accountsOfSource "$2,543.67") = ["2543.67"] /\
  map (fun a => Amount (Balance a)) (accountsOfSource "2543.67") = [].
Proof. vm_compute. repeat split. Qed.

(** C6 (amended). The balance extracted from a text is empty or a
    normalized amount: digits, a dot and two digits. [extractBalance]
    returns a normalized amount with at least one digit before the dot
    unchanged, also when more text follows it; so extracting again from
    an extracted balance gives the same balance whenever that balance
    does not start with the dot. *)
Theorem extractBalance_idempotent_on_amounts :
  (forall body d1 d2 post,
      body <> "" -> allBytes isDigit body = true ->
      isDigit d1 = true -> isDigit d2 = true ->
      extractBalance (body ++ "." ++ cents d1 d2 ++ post)%string
      = (body ++ "." ++ cents d1 d2)%string) /\
  (forall text,
      extractBalance text = "" \/
      exists body d1 d2,
        extractBalance text = (body ++ "." ++ cents d1 d2)%string /\
        allBytes isDigit body = true /\ isDigit d1 = true /\ isDigit d2 = true) /\
  (forall text,
      HasPrefix (extractBalance text) "." = false ->
      extractBalance (extractBalance text) = extractBalance text).
Proof.
  split; [exact extractBalance_normalized|].
  split; [exact extractBalance_shape|].
  intros text Hdot.
  destruct (extractBalance_shape text) as [->|(body & d1 & d2 & Heq & Hb & H1 & H2)];
    [reflexivity|].
  rewrite Heq in *. destruct body as [|c body]; [discriminate Hdot|].
  assert (Hfix := extractBalance_normalized (String c body) d1 d2 ""
                    ltac:(discriminate) Hb H1 H2).
  exact Hfix.
Qed.

Lemma extractBalance_idempotent_on_amounts_witness :
  extractBalance "2543.67 available" = "2543.67" /\
  extractBalance (extractBalance "Balance: $1,234.56 CR")
  = extractBalance "Balance: $1,234.56 CR".
Proof.
  split.
  - apply (proj1 extractBalance_idempotent_on_amounts "2543" "6"%char "7"%char " available");
      [discriminate|reflexivity..].
  - apply (proj2 (proj2 extractBalance_idempotent_on_amounts) "Balance: $1,234.56 CR").
    reflexivity.
Defined.

End Extraction.

(* ===================================================================== *)
(** * More on the account service and the handlers *)
(* ===================================================================== *)

Section ServiceMore.
Import Service Handler.

Lemma findTarget_first (accounts : list Account) (accountID : string) :
  (exists a, In a accounts /\ ID a = accountID) ->
  exists before a after_a,
    accounts = before ++ a :: after_a /\ ID a = accountID /\
    (forall b, In b before -> ID b <> accountID) /\
    findTarget accounts accountID = Some a.
Proof.
  induction accounts as [|x more IH]; intros (a & Hin & Hid); [destruct Hin|].
  simpl. destruct (String.eqb_spec (ID x) accountID) as [Hx|Hx].
  - exists [], x, more. split; [reflexivity|]. split; [exact Hx|].
    split; [intros b []|reflexivity].
  - destruct IH as (before & y & after_y & -> & Hy & Hbefore & Hfind).
    { destruct Hin as [->|Hin]; [contradiction|eauto]. }
    exists (x :: before), y, after_y. split; [reflexivity|]. split; [exact Hy|].
    split; [|exact Hfind]. intros b [<-|Hb]; auto.
Qed.

Lemma findTarget_some (accounts : list Account) (accountID : string) a :
  findTarget accounts accountID = Some a -> In a accounts /\ ID a = accountID.
Proof.
  induction accounts as [|x more IH]; simpl; [discriminate|].
  destruct (String.eqb_spec (ID x) accountID) as [Hx|Hx].
  - intros H. injection H as <-. auto.
  - intros H. destruct (IH H). auto.
Qed.

(** X1. When the listing succeeds and holds the requested identifier,
    and the transactions are fetched, the details are those of the first
    listed account with that identifier, stamped with the time read
    after the fetch, with the fetched transactions and their number. *)
Theorem details_of_first_listed_account :
  forall (C : Type) `{NABClient C} (c : C) (accountID : string)
         (accounts : list Account) (transactions : list Transaction)
         (w w1 w2 : World),
    GetAccounts c w = (Ok accounts, w1) ->
    (exists a, In a accounts /\ ID a = accountID) ->
    GetAccountTransactions c accountID w1 = (Ok transactions, w2) ->
    exists before a after_a,
      accounts = before ++ a :: after_a /\ ID a = accountID /\
      (forall b, In b before -> ID b <> accountID) /\
      GetAccountDetails (NewAccountService c) accountID w
      = (Ok {| DetailsAccount := withLastUpdated a (clock w2 (trace w2));
               Transactions := transactions;
               RecentTransactionCount := List.length transactions |},
         after w2 [Now (clock w2 (trace w2))]).
Proof.
  intros C HC c accountID accounts transactions w w1 w2 Hlist Hin Htx.
  destruct (findTarget_first accounts accountID Hin)
    as (before & a & after_a & Heq & Hid & Hbefore & Hfind).
  exists before, a, after_a. repeat split; auto.
  simpl. unfold accountService_GetAccountDetails, bind. simpl.
  rewrite Hlist, Hfind, Htx. reflexivity.
Qed.

Lemma details_of_first_listed_account_witness :
  exists details w',
    GetAccountDetails (NewAccountService NewMockNABClient) "11223344"
                      (Sample.world (Sample.site ""))
    = (Ok details, w') /\
    Name (DetailsAccount details) = "NAB Reward Saver" /\
    RecentTransactionCount details = 3.
Proof.
  edestruct (details_of_first_listed_account MockNABClient NewMockNABClient "11223344")
    as (before & a & after_a & Heq & Hid & Hbefore & Hdetails);
    [reflexivity
    |eexists; split; [right; right; left; reflexivity|reflexivity]
    |reflexivity
    |].
  eexists. eexists. split; [exact Hdetails|].
  destruct before as [|b1 [|b2 [|b3 before]]]; simpl in Heq.
  - injection Heq as <- _. exfalso. discriminate Hid.
  - injection Heq as _ <- _. exfalso. discriminate Hid.
  - injection Heq as _ _ <- _. split; reflexivity.
  - exfalso. injection Heq as _ _ _ Heq. destruct before; discriminate.
Defined.


(** X2. When the listing succeeds, [ListAccounts] answers 200 with the
    listed accounts in their order, all stamped with one and the same
    time, and a count equal to their number. *)
Theorem list_accounts_keeps_the_listing :
  forall (C : Type) `{NABClient C} (c : C) (req : Request)
         (accounts : list Account) (w w1 : World),
    GetAccounts c (after w [Log "ListAccounts: %s %s"
                                [LStr (Method req); LStr (Path req)]])
    = (Ok accounts, w1) ->
    exists t1 t2,
      fst (ListAccounts (NewAccountsHandler (NewAccountService c)) req w)
      = {| StatusCode := 200;
           Data := AccountsResponse (map (fun a => withLastUpdated a t1) accounts) t2
                                    (List.length accounts) |} /\
      map ID (map (fun a => withLastUpdated a t1) accounts) = map ID accounts /\
      map Balance (map (fun a => withLastUpdated a t1) accounts) = map Balance accounts.
Proof.
  intros C HC c req accounts w w1 Hlist.
  exists (clock w1 (trace w1)). eexists. split; [|split].
  - unfold ListAccounts. unfold bind at 1. unfold logf, emit.
    fold (after w [Log "ListAccounts: %s %s" [LStr (Method req); LStr (Path req)]]).
    unfold bind at 1. simpl GetAllAccounts.
    unfold accountService_GetAllAccounts, bind. simpl nabClient.
    rewrite Hlist. simpl. rewrite length_map. reflexivity.
  - rewrite map_map. reflexivity.
  - rewrite map_map. reflexivity.
Qed.

Lemma list_accounts_keeps_the_listing_witness :
  exists t1 t2 accounts,
    fst (ListAccounts Sample.mockHandler (Sample.request "") (Sample.world (Sample.site "")))
    = {| StatusCode := 200;
         Data := AccountsResponse (map (fun a => withLastUpdated a t1) accounts) t2 3 |} /\
    map ID (map (fun a => withLastUpdated a t1) accounts)
    = ["12345678"; "87654321"; "11223344"].
Proof.
  edestruct (list_accounts_keeps_the_listing MockNABClient NewMockNABClient
               (Sample.request ""))
    with (w := Sample.world (Sample.site ""))
    as (t1 & t2 & Hresp & Hids & _); [reflexivity|].
  exists t1, t2. eexists. split; [exact Hresp|exact Hids].
Defined.

Local Arguments String.eqb : simpl never.

(** X3. The server on the mock provider: a request with no account
    identifier is answered 400; one for 12345678, 87654321 or 11223344 is
    answered 200 with that account and three transactions named after
    it; any other identifier is answered 404 with the not-found label. *)
Theorem mock_server_answers :
  forall (req : Request) (w : World),
    let id := accountId req in
    let resp := fst (GetAccount Sample.mockHandler req w) in
    (id = "" -> StatusCode resp = 400) /\
    (In id ["12345678"; "87654321"; "11223344"] ->
     exists details,
       resp = {| StatusCode := 200; Data := AccountDetailsResponse details |} /\
       ID (DetailsAccount details) = id /\
       map TxID (Transactions details)
       = [("txn_001_" ++ id)%string; ("txn_002_" ++ id)%string;
          ("txn_003_" ++ id)%string]) /\
    (id <> "" -> ~ In id ["12345678"; "87654321"; "11223344"] ->
     exists t,
       resp = {| StatusCode := 404;
                 Data := ErrorResponse ErrorTypeAccountNotFound
                                       "Account not found" None t |}).
Proof.
  intros req w id resp. subst resp. unfold GetAccount. fold id.
  unfold bind at 1. unfold logf, emit. split; [|split].
  - intros ->. reflexivity.
  - intros Hin. simpl in Hin.
    destruct Hin as [Hid|[Hid|[Hid|[]]]]; rewrite <- Hid;
      eexists; (split; [reflexivity|split; reflexivity]).
  - intros Hne Hnot. apply String.eqb_neq in Hne. rewrite Hne.
    unfold bind at 1. simpl GetAccountDetails.
    unfold accountService_GetAccountDetails, bind. simpl.
    destruct (String.eqb_spec "12345678" id) as [H1|_];
      [exfalso; apply Hnot; simpl; auto|].
    destruct (String.eqb_spec "87654321" id) as [H2|_];
      [exfalso; apply Hnot; simpl; auto|].
    destruct (String.eqb_spec "11223344" id) as [H3|_];
      [exfalso; apply Hnot; simpl; auto|].
    eexists. reflexivity.
Qed.

Lemma mock_server_answers_witness :
  StatusCode (fst (GetAccount Sample.mockHandler (Sample.request "")
                              (Sample.world (Sample.site "")))) = 400 /\
  (exists details,
      fst (GetAccount Sample.mockHandler (Sample.request "12345678")
                      (Sample.world (Sample.site "")))
      = {| StatusCode := 200; Data := AccountDetailsResponse details |} /\
      ID (DetailsAccount details) = "12345678" /\
      map TxID (Transactions details)
      = ["txn_001_12345678"; "txn_002_12345678"; "txn_003_12345678"]) /\
  (exists t,
      fst (GetAccount Sample.mockHandler (Sample.request "doesnotexist")
                      (Sample.world (Sample.site "")))
      = {| StatusCode := 404;
           Data := ErrorResponse ErrorTypeAccountNotFound "Account not found" None t |}).
Proof.
  split; [|split].
  - apply (proj1 (mock_server_answers (Sample.request "") (Sample.world (Sample.site "")))).
    reflexivity.
  - apply (proj1 (proj2 (mock_server_answers (Sample.request "12345678")
                                             (Sample.world (Sample.site ""))))).
    left. reflexivity.
  - apply (proj2 (proj2 (mock_server_answers (Sample.request "doesnotexist")
                                             (Sample.world (Sample.site ""))))).
    + discriminate.
    + simpl. intros [H|[H|[H|[]]]]; discriminate H.
Defined.

Local Existing Instance Browser.NABClient_NABClient.

(** X4. With the scraping client behind the service, the details of an
    account, whenever they are returned, have no transactions and a
    transaction count of zero, and the account is a placeholder of the
    generic extractor: the requested identifier, type savings, no account
    number and no BSB. *)
Theorem scraped_details_have_no_transactions :
  forall (c : Browser.NABClient) (accountID : string) (details : AccountDetails)
         (w w' : World),
    GetAccountDetails (NewAccountService c) accountID w = (Ok details, w') ->
    Transactions details = [] /\
    RecentTransactionCount details = 0 /\
    ID (DetailsAccount details) = accountID /\
    Type_ (DetailsAccount details) = AccountTypeSavings /\
    AccountNumber (DetailsAccount details) = None /\
    BSB (DetailsAccount details) = None.
Proof.
  intros c accountID details w w'.
  simpl GetAccountDetails. unfold accountService_GetAccountDetails. unfold bind at 1.
  simpl nabClient. simpl GetAccounts.
  pose proof (GetAccounts_sourced c w) as Hsrc.
  destruct (Browser.GetAccounts c w) as [[accounts|e] w1]; [|discriminate].
  cbn [fst] in Hsrc. destruct Hsrc as [html ->].
  destruct (findTarget (Browser.accountsOfSource html) accountID) as [a|] eqn:Hfind;
    [|discriminate].
  destruct (findTarget_some _ _ _ Hfind) as [Hin Hid].
  destruct (accountsFrom_placeholders
              (Regexp.FindAllString Browser.balanceRegex html) 0) as [Hall _].
  rewrite Forall_forall in Hall.
  destruct (Hall a Hin) as (Ht & _ & Hn & Hb & _).
  intros H. injection H as <- _. simpl. repeat split; assumption.
Qed.

Lemma scraped_details_have_no_transactions_witness :
  exists details,
    fst (GetAccountDetails (NewAccountService Sample.client) "account_2"
                           (Sample.world (Sample.site "Everyday $10.00, Saver $2,500.00")))
    = Ok details /\
    Transactions details = [] /\ RecentTransactionCount details = 0 /\
    ID (DetailsAccount details) = "account_2" /\
    Type_ (DetailsAccount details) = AccountTypeSavings.
Proof.
  set (w := Sample.world (Sample.site "Everyday $10.00, Saver $2,500.00")).
  set (r := GetAccountDetails (NewAccountService Sample.client) "account_2" w).
  assert (Hr : exists details, r = (Ok details, snd r)).
  { vm_compute. eexists. reflexivity. }
  destruct Hr as [details Hr]. exists details.
  destruct (scraped_details_have_no_transactions Sample.client "account_2" details
              w (snd r) Hr) as (H1 & H2 & H3 & H4 & _).
  rewrite Hr. auto.
Defined.

End ServiceMore.

(* ===================================================================== *)
(** * What the scraping call never does *)
(* ===================================================================== *)

Section Invariants.
Import Browser.

Variable P : event -> Prop.

Lemma always_ret {A} (a : A) : always P (ret a).
Proof. intros w. exists a, []. split; [apply yields_ret|constructor]. Qed.

Lemma always_bind {A B} (m : M A) (k : A -> M B) :
  always P m -> (forall a, always P (k a)) -> always P (bind m k).
Proof.
  intros Hm Hk w. destruct (Hm w) as (a & n1 & Hy1 & H1).
  destruct (Hk a (after w n1)) as (b & n2 & Hy2 & H2).
  exists b, (n1 ++ n2). split; [eapply yields_bind; eassumption|].
  apply Forall_app. auto.
Qed.

Lemma always_emit e : P e -> always P (emit e).
Proof. intros He w. exists tt, [e]. split; [apply yields_emit|auto]. Qed.

Lemma always_perform a : (forall r, P (Did a r)) -> always P (perform a).
Proof. intros Ha w. eexists. eexists. split; [apply yields_perform|auto]. Qed.

Lemma always_do a : (forall r, P (Did a r)) -> always P (do a).
Proof. intros Ha w. eexists. eexists. split; [apply yields_do|auto]. Qed.

Lemma always_timeNow : (forall t, P (Now t)) -> always P timeNow.
Proof. intros Ht w. eexists. eexists. split; [apply yields_timeNow|auto]. Qed.

(** What the scraping client does is made of engine requests, clock
    readings and log lines about selectors and screenshots. *)
Variable ok : action -> Prop.
Hypothesis P_did : forall a r, ok a -> P (Did a r).
Hypothesis ok_probe : forall sel, ok (WaitVisible sel).
Hypothesis ok_click : forall sel, ok (Click sel).
Hypothesis ok_keys : forall sel v, ok (SendKeys sel v).
Hypothesis ok_capture : ok CaptureScreenshot.
Hypothesis P_now : forall t, P (Now t).
Variable allowed : list string.
Hypothesis P_log : forall format args, incl (strings args) allowed -> P (Log format args).

Lemma always_request a : ok a -> always P (do a).
Proof. intros Ha. apply always_do. intros r. now apply P_did. Qed.

Lemma always_logf format args : incl (strings args) allowed -> always P (logf format args).
Proof. intros H. apply always_emit, P_log, H. Qed.

Lemma always_firstVisible selectors : always P (firstVisible selectors).
Proof.
  induction selectors as [|sel more IH]; simpl; [apply always_ret|].
  apply always_bind; [apply always_request; auto|].
  intros [e|]; [exact IH|apply always_ret].
Qed.

Lemma always_clickFirstVisible found failed selectors :
  incl selectors allowed -> always P (clickFirstVisible found failed selectors).
Proof.
  induction selectors as [|sel more IH]; intros Hincl; simpl; [apply always_ret|].
  assert (Hsel : In sel allowed) by (apply Hincl; now left).
  apply always_bind; [apply always_request; auto|].
  intros [e|].
  - apply always_bind.
    + apply always_logf. intros s [<-|[]]. exact Hsel.
    + intros _. apply IH. intros s Hs. apply Hincl. now right.
  - apply always_bind.
    + apply always_logf. intros s [<-|[]]. exact Hsel.
    + intros _. apply always_bind; [apply always_request; auto|].
      intros r. apply always_ret.
Qed.

Lemma always_takeScreenshot c suffix :
  In (ScreenshotPath (config c)) allowed -> In suffix allowed ->
  always P (takeScreenshot c suffix).
Proof.
  intros Hpath Htag. unfold takeScreenshot.
  apply always_bind; [apply always_timeNow, P_now|]. intros t.
  apply always_bind; [apply always_request; auto|].
  intros [e|]; [apply always_ret|].
  apply always_logf. intros s [<-|[<-|[]]]; assumption.
Qed.

Lemma always_doAll actions : Forall ok actions -> always P (doAll actions).
Proof.
  induction 1 as [|a more Ha _ IH]; simpl; [apply always_ret|].
  apply always_bind; [apply always_request, Ha|].
  intros [e|]; [apply always_ret|exact IH].
Qed.

Lemma always_performLogin c : always P (performLogin c).
Proof.
  unfold performLogin.
  apply always_bind; [apply always_firstVisible|]. intros u.
  destruct (String.eqb u ""); [apply always_ret|].
  apply always_bind; [apply always_firstVisible|]. intros p.
  destruct (String.eqb p ""); [apply always_ret|].
  apply always_bind; [apply always_firstVisible|]. intros b.
  destruct (String.eqb b ""); [apply always_ret|].
  apply always_doAll. repeat constructor; auto.
Qed.

Lemma always_task (m : M (option error)) accounts : always P m -> always P (task m accounts).
Proof.
  intros Hm. unfold task. apply always_bind; [exact Hm|].
  intros err. apply always_ret.
Qed.

Lemma always_runTasks (tasks : list Task) :
  Forall (fun t => forall accounts, always P (t accounts)) tasks ->
  forall accounts, always P (runTasks tasks accounts).
Proof.
  induction 1 as [|t more Ht _ IH]; intros accounts; simpl; [apply always_ret|].
  apply always_bind; [apply Ht|].
  intros [[e|] accounts']; simpl; [apply always_ret|apply IH].
Qed.

End Invariants.

Section Scraping.
Import Browser.

Lemma loggable_login c : incl loginButtonSelectors (loggable c).
Proof. intros s Hs. unfold loggable. apply in_or_app. now left. Qed.

Lemma loggable_banking c : incl internetBankingSelectors (loggable c).
Proof.
  intros s Hs. unfold loggable. apply in_or_app. right. apply in_or_app. now left.
Qed.

Lemma loggable_tags c s :
  In s [ScreenshotPath (config c); "login_button_not_found";
        "internet_banking_not_found"; "error"] ->
  In s (loggable c).
Proof.
  intros Hs. unfold loggable. apply in_or_app. right. apply in_or_app. now right.
Qed.

Lemma deferred_exact w :
  yields deferred w tt [Cancel "timeoutCtx"; Cancel "browserCtx"; Cancel "allocCtx"].
Proof. unfold yields, deferred, bind, emit, after. simpl. now rewrite <- !app_assoc. Qed.

Section Body.
Variable P : event -> Prop.
Variable c : NABClient.
Hypothesis P_did : forall a r, scrapingRequest c a -> P (Did a r).
Hypothesis P_now : forall t, P (Now t).
Hypothesis P_log :
  forall format args, incl (strings args) (loggable c) -> P (Log format args).

Lemma always_scripted a : scrapingRequest c a -> always P (do a).
Proof. intros Ha. apply always_do. intros r. now apply P_did. Qed.

Lemma always_logged format args :
  incl (strings args) (loggable c) -> always P (logf format args).
Proof. intros H. apply always_emit, P_log, H. Qed.

Lemma always_probe_and_click found failed selectors :
  incl selectors (loggable c) -> always P (clickFirstVisible found failed selectors).
Proof.
  apply always_clickFirstVisible with (ok := scrapingRequest c);
    first [exact P_did|exact P_log|intros; exact I].
Qed.

Lemma always_screenshot tag :
  In tag ["login_button_not_found"; "internet_banking_not_found"; "error"] ->
  always P (takeScreenshot c tag).
Proof.
  intros Htag.
  apply always_takeScreenshot with (ok := scrapingRequest c) (allowed := loggable c);
    first [exact P_did|exact P_log|exact P_now|exact I|idtac].
  - apply loggable_tags. now left.
  - apply loggable_tags. now right.
Qed.

Lemma always_clickLoginButton : always P (clickLoginButton c).
Proof.
  unfold clickLoginButton.
  apply always_bind; [apply always_logged; intros s []|].
  intros _. apply always_bind.
  - apply always_probe_and_click, loggable_login.
  - intros [res|]; [apply always_ret|].
    apply always_bind; [|intros _; apply always_ret].
    apply always_screenshot; simpl; auto.
Qed.

Lemma always_selectInternetBanking : always P (selectInternetBanking c).
Proof.
  unfold selectInternetBanking.
  apply always_bind; [apply always_logged; intros s []|].
  intros _. apply always_bind; [apply always_scripted; now left|].
  intros _. apply always_bind.
  - apply always_probe_and_click, loggable_banking.
  - intros [res|]; [apply always_ret|].
    apply always_bind; [|intros _; apply always_ret].
    apply always_screenshot; simpl; auto.
Qed.

Lemma always_scrapeAccounts accounts : always P (scrapeAccounts c accounts).
Proof.
  unfold scrapeAccounts.
  apply always_bind; [apply always_scripted; now right|].
  intros _. apply always_bind; [apply always_logged; intros s []|].
  intros _. apply always_bind; [|intros found; apply always_ret].
  unfold extractAccountsGeneric.
  apply always_bind; [|intros r; apply always_ret].
  apply always_perform. intros r. now apply P_did.
Qed.

Lemma always_Run accounts :
  always P (Run c [ task (do (Navigate (BaseURL (config c))));
                    task (do (WaitVisible "body"));
                    task (clickLoginButton c);
                    task (selectInternetBanking c);
                    task (performLogin c);
                    task (do (WaitVisible "body"));
                    task (do (Sleep 3));
                    scrapeAccounts c ] accounts).
Proof.
  unfold Run. apply always_bind; [apply always_scripted; now split|].
  intros [e|]; [apply always_ret|].
  apply always_runTasks.
  repeat constructor; intros accounts';
    try (apply always_task, always_scripted; first [reflexivity|exact I|now right]).
  - apply always_task, always_clickLoginButton.
  - apply always_task, always_selectInternetBanking.
  - apply always_task.
    apply always_performLogin with (ok := scrapingRequest c);
      first [exact P_did|intros; exact I].
  - apply always_scrapeAccounts.
Qed.

(** Every call of [GetAccounts] ends with the three deferred cancels;
    what comes before them is the sequence and, on an error, the
    screenshot. *)
Lemma GetAccounts_then_cancels w : exists r before,
  yields (GetAccounts c) w r
         (before ++ [Cancel "timeoutCtx"; Cancel "browserCtx"; Cancel "allocCtx"]) /\
  Forall P before.
Proof.
  set (e0 := Log "Starting NAB account scraping..." []).
  assert (H0 : P e0) by (apply P_log; intros s []).
  destruct (always_Run [] (after w [e0])) as (r & n1 & Hy1 & H1).
  destruct (fst r) as [err|] eqn:E.
  - destruct (always_screenshot "error" ltac:(simpl; auto) (after (after w [e0]) n1))
      as ([] & n2 & Hy2 & H2).
    exists (Err (ErrorfW "failed to scrape NAB accounts: %w" err)), ([e0] ++ n1 ++ n2).
    split; [|constructor; [exact H0|apply Forall_app; split; assumption]].
    replace (([e0] ++ n1 ++ n2)
             ++ [Cancel "timeoutCtx"; Cancel "browserCtx"; Cancel "allocCtx"])
      with ([e0] ++ n1 ++ n2
            ++ [Cancel "timeoutCtx"; Cancel "browserCtx"; Cancel "allocCtx"] ++ [])
      by (rewrite app_nil_r, <- !app_assoc; reflexivity).
    unfold GetAccounts. eapply yields_bind; [apply yields_logf|].
    eapply yields_bind; [exact Hy1|]. rewrite E.
    eapply yields_bind; [exact Hy2|].
    eapply yields_bind; [apply deferred_exact|apply yields_ret].
  - set (e1 := Log "Successfully scraped %d accounts" [LInt (List.length (snd r))]).
    assert (He1 : P e1) by (apply P_log; intros s []).
    exists (Ok (snd r)), ([e0] ++ n1 ++ [e1]).
    split; [|constructor; [exact H0|apply Forall_app; split; [assumption|]];
             constructor; [exact He1|constructor]].
    replace (([e0] ++ n1 ++ [e1])
             ++ [Cancel "timeoutCtx"; Cancel "browserCtx"; Cancel "allocCtx"])
      with ([e0] ++ n1 ++ [e1]
            ++ [Cancel "timeoutCtx"; Cancel "browserCtx"; Cancel "allocCtx"] ++ [])
      by (rewrite app_nil_r, <- !app_assoc; reflexivity).
    unfold GetAccounts. eapply yields_bind; [apply yields_logf|].
    eapply yields_bind; [exact Hy1|]. rewrite E.
    eapply yields_bind; [apply yields_logf|].
    eapply yields_bind; [apply deferred_exact|apply yields_ret].
Qed.

End Body.

(** X5. Whatever the site does, every string [GetAccounts] gives to its
    logger is a candidate selector of the login button or of the
    Internet Banking link, a tag of a screenshot or the screenshot path
    (besides strings it logs only errors of the engine, a time stamp and
    a count): the user name and the password of the configuration are
    not handed to the logger. *)
Theorem scraping_logs_no_credentials :
  forall (c : NABClient) (w : World),
    exists r new,
      yields (GetAccounts c) w r new /\
      Forall (logsOnly (loggable c)) new /\
      forall format args s,
        In (Log format args) new -> In (LStr s) args -> In s (loggable c).
Proof.
  intros c w.
  destruct (GetAccounts_then_cancels (logsOnly (loggable c)) c
              ltac:(intros a r _ s [])
              ltac:(intros t s [])
              ltac:(intros format args H; exact H) w)
    as (r & before & Hy & Hbefore).
  assert (Hall : Forall (logsOnly (loggable c))
                   (before ++ [Cancel "timeoutCtx"; Cancel "browserCtx";
                               Cancel "allocCtx"])).
  { apply Forall_app. split; [exact Hbefore|].
    repeat (apply Forall_cons; [intros s []|]). apply Forall_nil. }
  exists r, (before ++ [Cancel "timeoutCtx"; Cancel "browserCtx"; Cancel "allocCtx"]).
  split; [exact Hy|]. split; [exact Hall|].
  intros format args s Hlog Harg. rewrite Forall_forall in Hall.
  apply (Hall _ Hlog). simpl. unfold strings.
  clear -Harg. induction args as [|a args IH]; [destruct Harg|].
  destruct Harg as [->|Harg]; simpl; [now left|].
  destruct a; simpl; auto.
Qed.

(** X6. Every call of [GetAccounts], failed or not, ends by cancelling
    its three contexts, the timeout context first and the allocator
    last; nothing is cancelled before that, and nothing is asked of the
    engine afterwards. *)
Theorem scraping_ends_with_teardown :
  forall (c : NABClient) (w : World),
    exists r before,
      yields (GetAccounts c) w r
             (before ++ [Cancel "timeoutCtx"; Cancel "browserCtx"; Cancel "allocCtx"]) /\
      Forall (fun e => isCancel e = false) before.
Proof.
  intros c w.
  apply (GetAccounts_then_cancels (fun e => isCancel e = false)); reflexivity.
Qed.

(** X23. Whatever the site does, every request [GetAccounts] sends to the
    engine is one of its script: starting the browser with the headless
    flag and the user agent of the configuration, loading the base URL,
    probing, clicking or typing into a selector, sleeping one or three
    seconds, reading the markup of the [html] element and capturing a
    screenshot. In particular no URL but the base URL is ever loaded:
    the login URL and the accounts URL of the configuration are not
    used. *)
Theorem scraping_requests_are_the_scripted_ones :
  forall (c : NABClient) (w : World),
    exists r new,
      yields (GetAccounts c) w r new /\
      Forall (scrapingRequest c) (requests new) /\
      forall url, In (Navigate url) (requests new) -> url = BaseURL (config c).
Proof.
  intros c w.
  destruct (GetAccounts_then_cancels
              (fun e => match isRequest e with
                        | Some a => scrapingRequest c a
                        | None => True
                        end) c
              ltac:(intros a r Ha; exact Ha)
              ltac:(intros t; exact I)
              ltac:(intros format args _; exact I) w)
    as (r & before & Hy & Hbefore).
  assert (Hall : Forall (scrapingRequest c)
                   (requests (before ++ [Cancel "timeoutCtx"; Cancel "browserCtx";
                                         Cancel "allocCtx"]))).
  { rewrite requests_app. change (requests [Cancel "timeoutCtx"; Cancel "browserCtx";
                                            Cancel "allocCtx"]) with (@nil action).
    rewrite app_nil_r. clear Hy.
    induction Hbefore as [|e before He _ IH]; [constructor|].
    destruct e as [a rep| | |]; try exact IH. constructor; [exact He|exact IH]. }
  exists r, (before ++ [Cancel "timeoutCtx"; Cancel "browserCtx"; Cancel "allocCtx"]).
  split; [exact Hy|]. split; [exact Hall|].
  intros url Hin. rewrite Forall_forall in Hall. exact (Hall _ Hin).
Qed.

End Scraping.

Section Sequence.
Import Browser.

Lemma typed_app l1 l2 : typed (l1 ++ l2) = typed l1 ++ typed l2.
Proof. apply collect_app. Qed.

(** The keys typed are read off the engine requests. *)
Lemma typed_requests tr :
  typed tr
  = collect (fun a => match a with SendKeys sel v => Some (sel, v) | _ => None end)
            (requests tr).
Proof.
  induction tr as [|e tr IH]; [reflexivity|].
  destruct e as [a r| | |]; simpl; try exact IH.
  unfold typed, requests in *. simpl. destruct a; simpl; rewrite <- IH; reflexivity.
Qed.

Lemma typed_probes (selectors : list string) tr :
  requests tr = map WaitVisible selectors -> typed tr = [].
Proof.
  intros H. rewrite typed_requests, H. clear H.
  induction selectors as [|sel more IH]; [reflexivity|exact IH].
Qed.

(** X7. When the browser cannot be started the call fails with the
    start error wrapped, and the only other thing asked of the engine is
    the screenshot: nothing is navigated to, probed, clicked or typed. *)
Theorem no_browser_no_navigation :
  forall (c : NABClient) (w : World) (e : error),
    engine w (trace w ++ [Log "Starting NAB account scraping..." []])
           (Allocate (BrowserHeadless (config c)) (UserAgent (config c)))
    = Failed e ->
    exists new,
      yields (GetAccounts c) w
             (Err (ErrorfW "failed to scrape NAB accounts: %w" e)) new /\
      requests new = [Allocate (BrowserHeadless (config c)) (UserAgent (config c));
                      CaptureScreenshot].
Proof.
  intros c w e He.
  set (e0 := Log "Starting NAB account scraping..." []).
  set (a := Allocate (BrowserHeadless (config c)) (UserAgent (config c))).
  destruct (takeScreenshot_spec c "error" (after (after w [e0]) [Did a (Failed e)]))
    as (n2 & Hy2 & _ & _ & Hr2).
  exists ([e0] ++ [Did a (Failed e)]
          ++ n2 ++ [Cancel "timeoutCtx"; Cancel "browserCtx"; Cancel "allocCtx"] ++ []).
  split.
  - unfold GetAccounts. eapply yields_bind; [apply yields_logf|].
    eapply yields_bind.
    { unfold Run. rewrite <- (app_nil_r [Did a (Failed e)]).
      eapply yields_bind.
      - pose proof (yields_do a (after w [e0])) as Hdo.
        cbn [after engine trace] in Hdo. unfold a, e0 in Hdo.
        rewrite He in Hdo. exact Hdo.
      - apply yields_ret. }
    simpl fst. cbv iota.
    eapply yields_bind; [exact Hy2|].
    eapply yields_bind; [apply deferred_exact|apply yields_ret].
  - rewrite !requests_app, Hr2. reflexivity.
Qed.

Lemma no_browser_no_navigation_witness :
  exists new,
    yields (GetAccounts Sample.client) (Sample.world Sample.noBrowser)
           (Err (ErrorfW "failed to scrape NAB accounts: %w"
                         (External "exec: chrome not found"))) new /\
    requests new = [Allocate true "Mozilla/5.0"; CaptureScreenshot].
Proof.
  apply (no_browser_no_navigation Sample.client (Sample.world Sample.noBrowser)).
  reflexivity.
Defined.

End Sequence.

Section Success.
Import Browser.

Lemma doAll_done (actions : list action) : forall w,
  Forall (alwaysDone w) actions -> ~ In CaptureScreenshot actions ->
  exists new, yields (doAll actions) w None new /\ captures new = 0.
Proof.
  induction actions as [|a more IH]; intros w Hall Hno.
  - exists []. split; [apply yields_ret|reflexivity].
  - inversion Hall as [|? ? Ha Hmore]; subst.
    destruct (do_done a w Ha) as (p & Hy1).
    destruct (IH (after w [Did a (Succeeded p)]) Hmore) as (new & Hy2 & Hc2).
    { intros Hin. apply Hno. now right. }
    exists ([Did a (Succeeded p)] ++ new). split.
    + simpl doAll. eapply yields_bind; [exact Hy1|exact Hy2].
    + rewrite captures_app, Hc2. unfold captures. simpl.
      destruct a; try reflexivity. exfalso. apply Hno. now left.
Qed.

Lemma performLogin_shown c w :
  shows w loginSelectors -> shows w passwordSelectors -> shows w submitSelectors ->
  (forall sel v, alwaysDone w (SendKeys sel v)) -> (forall sel, alwaysDone w (Click sel)) ->
  exists new, yields (performLogin c) w None new /\ captures new = 0.
Proof.
  intros Hu Hp Hb Hkeys Hclick. unfold performLogin.
  destruct (firstVisible_shown loginSelectors w Hu) as (u & n1 & Hy1 & Hin1 & Hc1).
  destruct (firstVisible_shown passwordSelectors (after w n1) Hp) as (p & n2 & Hy2 & Hin2 & Hc2).
  destruct (firstVisible_shown submitSelectors (after (after w n1) n2) Hb)
    as (b & n3 & Hy3 & Hin3 & Hc3).
  assert (Hne : forall s l, In s l -> ~ In "" l -> String.eqb s "" = false).
  { intros s l Hin Hno. apply String.eqb_neq. intros ->. contradiction. }
  assert (Hu0 : String.eqb u "" = false).
  { apply (Hne _ _ Hin1). vm_compute. intuition discriminate. }
  assert (Hp0 : String.eqb p "" = false).
  { apply (Hne _ _ Hin2). vm_compute. intuition discriminate. }
  assert (Hb0 : String.eqb b "" = false).
  { apply (Hne _ _ Hin3). vm_compute. intuition discriminate. }
  destruct (doAll_done [SendKeys u (Username (config c));
                        SendKeys p (Password (config c)); Click b]
              (after (after (after w n1) n2) n3)) as (n4 & Hy4 & Hc4).
  { repeat constructor; [apply Hkeys|apply Hkeys|apply Hclick]. }
  { simpl. intuition discriminate. }
  exists (n1 ++ n2 ++ n3 ++ n4). split.
  - eapply yields_bind; [exact Hy1|]. rewrite Hu0.
    eapply yields_bind; [exact Hy2|]. rewrite Hp0.
    eapply yields_bind; [exact Hy3|]. rewrite Hb0. exact Hy4.
  - rewrite !captures_app. lia.
Qed.

Lemma runTasks_then (t : Task) more accounts w r k :
  (exists new, yields (t accounts) w (None, accounts) new /\ captures new = 0) ->
  (forall pre, exists new,
      yields (runTasks more accounts) (after w pre) r new /\ captures new = k) ->
  exists new, yields (runTasks (t :: more) accounts) w r new /\ captures new = k.
Proof.
  intros (n1 & Hy1 & Hc1) Hrest. destruct (Hrest n1) as (n2 & Hy2 & Hc2).
  exists (n1 ++ n2). split.
  - simpl runTasks. eapply yields_bind; [exact Hy1|exact Hy2].
  - rewrite captures_app. lia.
Qed.

Lemma runTasks_last (t : Task) accounts w found :
  (exists new, yields (t accounts) w (None, found) new /\ captures new = 0) ->
  exists new, yields (runTasks [t] accounts) w (None, found) new /\ captures new = 0.
Proof.
  intros (n1 & Hy1 & Hc1). exists (n1 ++ []). split.
  - simpl runTasks. eapply yields_bind; [exact Hy1|apply yields_ret].
  - now rewrite app_nil_r.
Qed.

(** On a cooperative site the whole sequence goes through, and what it
    returns is what its last action, [scrapeAccounts], found. *)
Lemma GetAccounts_through c w found :
  cooperative w c ->
  (forall pre accounts, exists new,
      yields (scrapeAccounts c accounts) (after w pre) (None, found) new /\
      captures new = 0) ->
  exists new, yields (GetAccounts c) w (Ok found) new /\ captures new = 0.
Proof.
  intros ((Halloc & Hnav & Hbody & Hclick) & Hlb & Hib & Hu & Hp & Hb & Hkeys & Hsleep) Hlast.
  set (e0 := Log "Starting NAB account scraping..." []).
  destruct (do_done _ (after w [e0]) Halloc) as (p0 & Hy0).
  set (e1 := Did (Allocate (BrowserHeadless (config c)) (UserAgent (config c))) (Succeeded p0)).
  assert (Htasks : exists new,
    yields (runTasks [ task (do (Navigate (BaseURL (config c))));
                       task (do (WaitVisible "body"));
                       task (clickLoginButton c);
                       task (selectInternetBanking c);
                       task (performLogin c);
                       task (do (WaitVisible "body"));
                       task (do (Sleep 3));
                       scrapeAccounts c ] [])
           (after (after w [e0]) [e1]) (None, found) new /\ captures new = 0).
  { apply runTasks_then; [apply do_passes; [exact Hnav|discriminate]|]. intros q1.
    apply runTasks_then; [apply do_passes; [exact Hbody|discriminate]|]. intros q2.
    apply runTasks_then;
      [apply task_passes; apply clickLoginButton_shown; [exact Hlb|exact Hclick]|].
    intros q3.
    apply runTasks_then;
      [apply task_passes; apply selectInternetBanking_shown; [exact Hib|exact Hclick]|].
    intros q4.
    apply runTasks_then;
      [apply task_passes; apply performLogin_shown; assumption|].
    intros q5.
    apply runTasks_then; [apply do_passes; [exact Hbody|discriminate]|]. intros q6.
    apply runTasks_then; [apply do_passes; [exact Hsleep|discriminate]|]. intros q7.
    apply runTasks_last. rewrite !after_after. apply Hlast. }
  destruct Htasks as (n1 & Hy1 & Hc1).
  set (e2 := Log "Successfully scraped %d accounts" [LInt (List.length found)]).
  exists ([e0] ++ ([e1] ++ n1) ++ [e2]
          ++ [Cancel "timeoutCtx"; Cancel "browserCtx"; Cancel "allocCtx"] ++ []).
  split.
  - unfold GetAccounts. eapply yields_bind; [apply yields_logf|].
    eapply yields_bind.
    { unfold Run. eapply yields_bind; [exact Hy0|exact Hy1]. }
    simpl fst. simpl snd. cbv iota.
    eapply yields_bind; [apply yields_logf|].
    eapply yields_bind; [apply deferred_exact|apply yields_ret].
  - rewrite !captures_app, Hc1. reflexivity.
Qed.

Lemma cooperative_site html : cooperative (Sample.world (Sample.site html)) Sample.client.
Proof.
  assert (Hall : forall a, alwaysDone (Sample.world (Sample.site html)) a).
  { intros a tr. unfold Sample.world, Sample.site. simpl. destruct a; eexists; reflexivity. }
  assert (Hshow : forall sel l, In sel l -> shows (Sample.world (Sample.site html)) l).
  { intros sel l Hin. exists sel. split; [exact Hin|apply Hall]. }
  unfold cooperative, reachable.
  repeat match goal with |- _ /\ _ => split end;
    try (intros; apply Hall); (eapply Hshow; left; reflexivity).
Qed.

(** X9. On a site that lets every step of the login through, a call of
    [GetAccounts] succeeds, captures no screenshot, and returns exactly
    the accounts that the generic extraction reads from the markup the
    engine hands over for the [html] element. *)
Theorem cooperative_site_gives_the_page_accounts :
  forall (c : NABClient) (w : World) (page : string),
    cooperative w c ->
    (forall tr, engine w tr (OuterHTML "html") = Succeeded page) ->
    exists new,
      yields (GetAccounts c) w (Ok (accountsOfSource page)) new /\
      captures new = 0.
Proof.
  intros c w page Hco Hpage. apply GetAccounts_through; [exact Hco|].
  intros pre accounts.
  destruct (scrapeAccounts_spec c accounts (after w pre)) as (html & new & Hy & Hc & Hsrc).
  exists new. split; [|exact Hc].
  destruct Hsrc as [Hs|(_ & e & He)]; simpl in *.
  - rewrite Hpage in Hs. injection Hs as <-. exact Hy.
  - rewrite Hpage in He. discriminate.
Qed.

Lemma cooperative_site_gives_the_page_accounts_witness :
  exists new,
    yields (GetAccounts Sample.client) (Sample.world (Sample.site "Savings $1,234.56"))
           (Ok (accountsOfSource "Savings $1,234.56")) new /\
    captures new = 0.
Proof.
  apply (cooperative_site_gives_the_page_accounts Sample.client
           (Sample.world (Sample.site "Savings $1,234.56")) "Savings $1,234.56").
  - apply cooperative_site.
  - intros tr. reflexivity.
Defined.

Lemma cooperative_unreadable : cooperative (Sample.world Sample.unreadable) Sample.client.
Proof.
  assert (Hall : forall a, (forall s, a <> OuterHTML s) ->
                           alwaysDone (Sample.world Sample.unreadable) a).
  { intros a Ha tr. unfold Sample.world, Sample.unreadable. simpl.
    destruct a; try (eexists; reflexivity). exfalso. eapply Ha. reflexivity. }
  assert (Hshow : forall sel l, In sel l -> shows (Sample.world Sample.unreadable) l).
  { intros sel l Hin. exists sel. split; [exact Hin|apply Hall; discriminate]. }
  unfold cooperative, reachable.
  repeat match goal with |- _ /\ _ => split end;
    try (intros; apply Hall; discriminate); (eapply Hshow; left; reflexivity).
Qed.

(** X10. When the login goes through but the markup cannot be read, the
    read error is lost: [GetAccounts] still succeeds, with an empty list
    of accounts and no screenshot. *)
Theorem unreadable_markup_is_an_empty_listing :
  forall (c : NABClient) (w : World),
    cooperative w c ->
    (forall tr, exists e, engine w tr (OuterHTML "html") = Failed e) ->
    exists new,
      yields (GetAccounts c) w (Ok []) new /\ captures new = 0.
Proof.
  intros c w Hco Hfail. apply GetAccounts_through; [exact Hco|].
  intros pre accounts.
  destruct (scrapeAccounts_spec c accounts (after w pre)) as (html & new & Hy & Hc & Hsrc).
  exists new. split; [|exact Hc].
  destruct Hsrc as [Hs|(-> & _)]; simpl in *.
  - destruct (Hfail (trace w ++ pre ++ removelast new)) as (e & He).
    rewrite <- app_assoc in Hs. rewrite He in Hs. discriminate.
  - exact Hy.
Qed.

Lemma unreadable_markup_is_an_empty_listing_witness :
  exists new,
    yields (GetAccounts Sample.client) (Sample.world Sample.unreadable) (Ok []) new /\
    captures new = 0.
Proof.
  apply (unreadable_markup_is_an_empty_listing Sample.client
           (Sample.world Sample.unreadable)).
  - apply cooperative_unreadable.
  - intros tr. eexists. reflexivity.
Defined.

End Success.

(* ===================================================================== *)
(** * The text extractors *)
(* ===================================================================== *)

Section TextExtractors.
Import Strings Regexp Browser.
Local Arguments inClass : simpl never.
Local Arguments Ascii.eqb : simpl never.

Lemma exactly_some n cl : forall s a b,
  exactly n cl s = Some (a, b) ->
  s = (a ++ b)%string /\ String.length a = n /\ allBytes (inClass cl) a = true.
Proof.
  induction n as [|n IH]; intros s a b H; simpl in H.
  - injection H as <- <-. auto.
  - destruct s as [|c t]; [discriminate|].
    destruct (inClass cl c) eqn:Ec; [|discriminate].
    destruct (exactly n cl t) as [[a' b']|] eqn:E; [|discriminate].
    injection H as <- <-. destruct (IH _ _ _ E) as (-> & Hlen & Hall).
    simpl. rewrite Ec, Hall, Hlen. auto.
Qed.

Lemma exactly_complete cl : forall a b,
  allBytes (inClass cl) a = true ->
  exactly (String.length a) cl (a ++ b) = Some (a, b).
Proof.
  induction a as [|c a IH]; intros b H; simpl in *; [reflexivity|].
  apply andb_prop in H as [Hc Ha]. now rewrite Hc, IH.
Qed.

Lemma exactly_shorter k cl : forall n s a b,
  exactly (n + k) cl s = Some (a, b) -> exists a' b', exactly n cl s = Some (a', b').
Proof.
  induction n as [|n IH]; intros s a b H; simpl in *; [eauto|].
  destruct s as [|c t]; [discriminate|].
  destruct (inClass cl c); [|discriminate].
  destruct (exactly (n + k) cl t) as [[a1 b1]|] eqn:E; [|discriminate].
  destruct (IH _ _ _ E) as (a' & b' & ->). eauto.
Qed.

Lemma matchAt_repeat n cl s :
  matchAt (Repeat n cl) s
  = match exactly n cl s with Some (a, b) => Some (Found a [] b) | None => None end.
Proof. unfold matchAt. simpl. destruct (exactly n cl s) as [[a b]|]; reflexivity. Qed.

Lemma search_weaker r1 r2 :
  (forall s, matchAt r1 s = None -> matchAt r2 s = None) ->
  forall s, search r1 s = None -> search r2 s = None.
Proof.
  intros H s. induction s as [|c t IH]; simpl; intros Hs.
  - destruct (matchAt r1 "") eqn:E; [discriminate|]. now rewrite (H _ E).
  - destruct (matchAt r1 (String c t)) eqn:E; [discriminate|]. rewrite (H _ E).
    destruct (search r1 t) as [[p m]|]; [discriminate|]. now rewrite IH.
Qed.

Lemma FindString_none r s : search r s = None -> FindString r s = "".
Proof. unfold FindString. now intros ->. Qed.

(** What [Regexp.FindString] returns when it finds something: the text of
    a match at the leftmost position that has one. *)
Lemma FindString_some r s :
  FindString r s <> "" ->
  exists pre m, s = (pre ++ whole m ++ rest m)%string /\ In m (run r (whole m ++ rest m)) /\
                FindString r s = whole m.
Proof.
  unfold FindString. destruct (search r s) as [[pre m]|] eqn:E; [|congruence].
  intros _. destruct (search_some _ _ _ _ E) as (t & -> & Hm & _).
  exists pre, m.
  assert (Hin : In m (run r t)).
  { unfold matchAt in Hm. destruct (run r t); [discriminate|]. injection Hm as ->. now left. }
  assert (Ht : t = (whole m ++ rest m)%string); [|rewrite <- Ht; auto].
  clear -Hin. revert t m Hin.
  induction r; intros t m Hin; simpl in Hin.
  - destruct t as [|c' t]; [destruct Hin|]. destruct (Ascii.eqb c c'); [|destruct Hin].
    destruct Hin as [<-|[]]. reflexivity.
  - apply in_flat_map in Hin as (m1 & H1 & H2). apply in_map_iff in H2 as (m2 & <- & H2).
    simpl. rewrite (IHr1 _ _ H1) at 1. rewrite (IHr2 _ _ H2) at 1.
    now rewrite string_app_assoc.
  - apply in_map_iff in Hin as ([a b] & <- & Hin). simpl.
    revert a b Hin. induction t as [|c t IHt]; intros a b Hin; simpl in Hin; [destruct Hin|].
    destruct (inClass cl c); [|destruct Hin].
    apply in_app_or in Hin as [Hin|[Hin|[]]].
    + apply in_map_iff in Hin as ([a' b'] & Heq & Hin). injection Heq as <- <-.
      simpl. f_equal. now apply IHt.
    + injection Hin as <- <-. reflexivity.
  - destruct (exactly n cl t) as [[a b]|] eqn:E; [|destruct Hin].
    destruct Hin as [<-|[]]. simpl. now destruct (exactly_some _ _ _ _ _ E).
  - apply in_app_or in Hin as [Hin|[<-|[]]]; [now apply IHr|reflexivity].
  - apply in_map_iff in Hin as (m1 & <- & Hin). simpl. now apply IHr.
Qed.

Lemma digit_class_star c : inClass [("*", "*")]%char c = true -> c = "*"%char.
Proof.
  unfold inClass. cbn [existsb fst snd]. rewrite orb_false_r. intros H.
  apply andb_true_iff in H as [H1 H2]. apply Nat.leb_le in H1, H2.
  change (nat_of_ascii "*") with 42 in *.
  assert (Hc : nat_of_ascii c = 42) by lia.
  rewrite <- (ascii_nat_embedding c), Hc. reflexivity.
Qed.

Lemma stars_four a :
  String.length a = 4 -> allBytes (inClass [("*", "*")]%char) a = true -> a = "****".
Proof.
  destruct a as [|c1 [|c2 [|c3 [|c4 [|c5 a]]]]]; try discriminate. intros _ H. simpl in H.
  repeat (apply andb_prop in H as [?%digit_class_star H]). now subst.
Qed.

(** The matches of [\*{4}(\d{4})] at the start of a text. *)
Lemma run_maskedRegex s :
  run maskedRegex s
  = match exactly 4 [("*", "*")]%char s with
    | Some (a, b) =>
        match exactly 4 digits b with
        | Some (d, post) => [Found (a ++ d) [d] post]
        | None => []
        end
    | None => []
    end.
Proof.
  unfold maskedRegex. cbn [run].
  destruct (exactly 4 [("*", "*")]%char s) as [[a b]|]; [|reflexivity].
  cbn [flat_map rest whole groups map app].
  destruct (exactly 4 digits b) as [[d post]|]; reflexivity.
Qed.

Lemma matchAt_masked_some s m :
  matchAt maskedRegex s = Some m ->
  exists d, digitsOf 4 d /\ groups m = [d] /\ s = ("****" ++ d ++ rest m)%string.
Proof.
  unfold matchAt. rewrite run_maskedRegex.
  destruct (exactly 4 [("*", "*")]%char s) as [[a b]|] eqn:Ea; [|discriminate].
  destruct (exactly 4 digits b) as [[d post]|] eqn:Ed; [|discriminate].
  intros H. injection H as <-.
  destruct (exactly_some _ _ _ _ _ Ea) as (-> & Hla & Ha).
  destruct (exactly_some _ _ _ _ _ Ed) as (-> & Hld & Hd).
  exists d. rewrite (stars_four a Hla Ha). repeat split; auto.
Qed.

Lemma matchAt_masked_none s :
  matchAt maskedRegex s = None ->
  forall d post, digitsOf 4 d -> s <> ("****" ++ d ++ post)%string.
Proof.
  unfold matchAt. rewrite run_maskedRegex. intros H d post [Hlen Hd] ->.
  assert (Hs : exactly 4 [("*", "*")]%char ("****" ++ d ++ post)
               = Some ("****", (d ++ post)%string))
    by (apply (exactly_complete [("*", "*")]%char "****" (d ++ post)); reflexivity).
  rewrite Hs in H.
  pose proof (exactly_complete digits d post Hd) as Hc. rewrite Hlen in Hc.
  rewrite Hc in H. discriminate.
Qed.

(** X11. [extractAccountNumber] returns the leftmost masked number of the
    text, four asterisks and four digits, as it stands there; it returns
    the empty string exactly when the text has no masked number. *)
Theorem masked_number_is_copied_from_the_text :
  forall text : string,
    (extractAccountNumber text = "" /\
     forall d, digitsOf 4 d -> ~ occursIn ("****" ++ d) text) \/
    (exists pre d post,
        digitsOf 4 d /\ text = (pre ++ ("****" ++ d) ++ post)%string /\
        extractAccountNumber text = ("****" ++ d)%string /\
        forall pre1 pre2 d' post',
          pre = (pre1 ++ pre2)%string -> pre2 <> "" -> digitsOf 4 d' ->
          (pre2 ++ ("****" ++ d) ++ post)%string <> ("****" ++ d' ++ post')%string).
Proof.
  intros text. unfold extractAccountNumber, FindStringSubmatch.
  destruct (search maskedRegex text) as [[pre m]|] eqn:E.
  - right. destruct (search_some _ _ _ _ E) as (t & -> & Hm & Hleft).
    destruct (matchAt_masked_some _ _ Hm) as (d & Hd & Hg & ->).
    exists pre, d, (rest m). split; [exact Hd|]. split.
    { now rewrite <- !string_app_assoc. }
    split; [now rewrite Hg|].
    intros pre1 pre2 d' post' Hpre Hne Hd' Heq.
    apply (matchAt_masked_none _ (Hleft pre1 pre2 Hpre Hne) d' post' Hd').
    rewrite <- Heq. now rewrite <- !string_app_assoc.
  - left. split; [reflexivity|]. intros d Hd (pre & post & ->).
    apply (matchAt_masked_none _ (search_none _ _ E pre _ eq_refl) d post Hd).
    now rewrite <- !string_app_assoc.
Qed.

Lemma exactly_digits n a b : digitsOf n a -> exactly n digits (a ++ b) = Some (a, b).
Proof. intros [<- H]. now apply exactly_complete. Qed.

Lemma exactly_digitsOf n s a b :
  exactly n digits s = Some (a, b) -> digitsOf n a /\ s = (a ++ b)%string.
Proof. intros H. destruct (exactly_some _ _ _ _ _ H) as (-> & Hl & Ha). repeat split; auto. Qed.

(** The matches of [-?(\d{3})] at the start of a text: with the hyphen
    first, without it second. *)
Lemma run_bsb_tail b :
  run (Cat (Quest (Lit "-")) (Capture (Repeat 3 digits))) b
  = match b with
    | String c t =>
        if Ascii.eqb "-" c then
          match exactly 3 digits t with
          | Some (d, post) => [Found (String c d) [d] post]
          | None => []
          end
        else []
    | EmptyString => []
    end
    ++ match exactly 3 digits b with
       | Some (d, post) => [Found d [d] post]
       | None => []
       end.
Proof.
  cbn [run]. rewrite flat_map_app. f_equal.
  - destruct b as [|c t]; [reflexivity|].
    destruct (Ascii.eqb "-" c); [|reflexivity].
    cbn [flat_map rest whole groups map app].
    destruct (exactly 3 digits t) as [[d post]|]; reflexivity.
  - cbn [flat_map rest whole groups map app].
    destruct (exactly 3 digits b) as [[d post]|]; reflexivity.
Qed.

Lemma run_bsbRegex s :
  run bsbRegex s
  = match exactly 3 digits s with
    | Some (a, b) =>
        map (fun m2 => Found (a ++ whole m2) (a :: groups m2) (rest m2))
            (run (Cat (Quest (Lit "-")) (Capture (Repeat 3 digits))) b)
    | None => []
    end.
Proof.
  unfold bsbRegex. cbn [run].
  destruct (exactly 3 digits s) as [[a b]|]; [|reflexivity].
  cbn [map flat_map rest whole groups app]. now rewrite app_nil_r.
Qed.

Lemma matchAt_bsb_some s m :
  matchAt bsbRegex s = Some m ->
  exists a b, digitsOf 3 a /\ digitsOf 3 b /\ groups m = [a; b] /\
              (s = (a ++ b ++ rest m)%string \/ s = (a ++ "-" ++ b ++ rest m)%string).
Proof.
  unfold matchAt. rewrite run_bsbRegex.
  destruct (exactly 3 digits s) as [[a b]|] eqn:Ea; [|discriminate].
  destruct (exactly_digitsOf _ _ _ _ Ea) as (Ha & ->).
  rewrite run_bsb_tail. intros H.
  destruct b as [|c t].
  - simpl in H. discriminate.
  - destruct (Ascii.eqb_spec "-"%char c) as [<-|Hc].
    + destruct (exactly 3 digits t) as [[d post]|] eqn:Ed.
      * injection H as <-. destruct (exactly_digitsOf _ _ _ _ Ed) as (Hd & ->).
        exists a, d. repeat split; try apply Ha; try apply Hd. now right.
      * cbn [app] in H.
        destruct (exactly 3 digits (String "-" t)) as [[d post]|] eqn:Ed'; [|discriminate].
        injection H as <-. destruct (exactly_digitsOf _ _ _ _ Ed') as (Hd & Heq).
        exists a, d. repeat split; try apply Ha; try apply Hd. left. cbn [rest]. now rewrite Heq.
    + cbn [app] in H.
      destruct (exactly 3 digits (String c t)) as [[d post]|] eqn:Ed'; [|discriminate].
      injection H as <-. destruct (exactly_digitsOf _ _ _ _ Ed') as (Hd & Heq).
      exists a, d. repeat split; try apply Ha; try apply Hd. left. cbn [rest]. now rewrite Heq.
Qed.

Lemma matchAt_bsb_none s :
  matchAt bsbRegex s = None ->
  forall a b post, digitsOf 3 a -> digitsOf 3 b ->
    s <> (a ++ b ++ post)%string /\ s <> (a ++ "-" ++ b ++ post)%string.
Proof.
  unfold matchAt. rewrite run_bsbRegex. intros H a b post Ha Hb. split; intros ->.
  - rewrite (exactly_digits 3 a _ Ha), run_bsb_tail, (exactly_digits 3 b _ Hb) in H.
    destruct (b ++ post)%string as [|c t]; [discriminate|].
    destruct (Ascii.eqb "-" c); [|discriminate].
    destruct (exactly 3 digits t) as [[d p]|]; discriminate.
  - change (a ++ "-" ++ b ++ post)%string with (a ++ String "-" (b ++ post))%string in H.
    rewrite (exactly_digits 3 a _ Ha), run_bsb_tail in H. cbv beta iota in H.
    rewrite Ascii.eqb_refl, (exactly_digits 3 b _ Hb) in H. discriminate.
Qed.

(** X12. [extractBSB] returns six digits or nothing: two groups of
    three digits that stand in the text side by side or with one hyphen
    between them, joined without the hyphen; the empty string exactly
    when the text has no such groups. *)
Theorem bsb_is_six_digits_or_empty :
  forall text : string,
    (extractBSB text = "" /\
     forall a b, digitsOf 3 a -> digitsOf 3 b ->
                 ~ occursIn (a ++ b) text /\ ~ occursIn (a ++ "-" ++ b) text) \/
    (exists a b,
        digitsOf 3 a /\ digitsOf 3 b /\
        extractBSB text = (a ++ b)%string /\
        digitsOf 6 (extractBSB text) /\
        (occursIn (a ++ b) text \/ occursIn (a ++ "-" ++ b) text)).
Proof.
  intros text. unfold extractBSB, FindStringSubmatch.
  destruct (search bsbRegex text) as [[pre m]|] eqn:E.
  - right. destruct (search_some _ _ _ _ E) as (t & -> & Hm & _).
    destruct (matchAt_bsb_some _ _ Hm) as (a & b & Ha & Hb & Hg & Ht).
    exists a, b. rewrite Hg. cbn [List.length Nat.ltb Nat.leb nth].
    split; [exact Ha|]. split; [exact Hb|]. split; [reflexivity|]. split.
    + destruct Ha as [Hla Ha], Hb as [Hlb Hb]. split.
      * rewrite string_length_app. lia.
      * clear -Ha Hb. induction a as [|c a IH]; simpl in *; [exact Hb|].
        apply andb_prop in Ha as [-> Ha]. now apply IH.
    + destruct Ht as [->| ->]; [left|right]; exists pre, (rest m);
        now rewrite <- !string_app_assoc.
  - left. split; [reflexivity|]. intros a b Ha Hb.
    split; intros (pre & post & ->);
      destruct (matchAt_bsb_none _ (search_none _ _ E pre _ eq_refl) a b post Ha Hb)
        as [H1 H2]; [apply H1|apply H2]; now rewrite <- !string_app_assoc.
Qed.

Lemma In_run_repeat n cl t m :
  In m (run (Repeat n cl) t) -> exactly n cl t = Some (whole m, rest m).
Proof.
  cbn [run]. destruct (exactly n cl t) as [[a b]|]; [|intros []].
  intros [<-|[]]. reflexivity.
Qed.

Lemma In_run_lit c t m : In m (run (Lit c) t) -> whole m = String c "".
Proof.
  destruct t as [|c' t]; [intros []|]. rewrite run_lit.
  destruct (Ascii.eqb_spec c c') as [<-|]; [|intros []]. intros [<-|[]]. reflexivity.
Qed.

Lemma In_run_cat r1 r2 t m :
  In m (run (Cat r1 r2) t) ->
  exists m1 m2, In m1 (run r1 t) /\ In m2 (run r2 (rest m1)) /\
                whole m = (whole m1 ++ whole m2)%string.
Proof.
  cbn [run]. intros H. apply in_flat_map in H as (m1 & H1 & H2).
  apply in_map_iff in H2 as (m2 & <- & H2). exists m1, m2. auto.
Qed.

(** A match of [\d{6}-\d{8}]. *)
Lemma In_run_nabFormat t m :
  In m (run (Cat (Repeat 6 digits) (Cat (Lit "-") (Repeat 8 digits))) t) ->
  exists a b, digitsOf 6 a /\ digitsOf 8 b /\ whole m = (a ++ "-" ++ b)%string.
Proof.
  intros H. apply In_run_cat in H as (m1 & m2 & H1 & H2 & ->).
  apply In_run_cat in H2 as (m3 & m4 & H3 & H4 & ->).
  apply In_run_repeat, exactly_digitsOf in H1 as [Ha _].
  apply In_run_repeat, exactly_digitsOf in H4 as [Hb _].
  rewrite (In_run_lit _ _ _ H3). eauto.
Qed.

Lemma FindString_empty_repeat n cl s :
  FindString (Repeat (S n) cl) s = "" -> search (Repeat (S n) cl) s = None.
Proof.
  unfold FindString. destruct (search (Repeat (S n) cl) s) as [[pre m]|] eqn:E; [|reflexivity].
  intros Hw. destruct (search_some _ _ _ _ E) as (t & _ & Hm & _).
  rewrite matchAt_repeat in Hm.
  destruct (exactly (S n) cl t) as [[a b]|] eqn:Ea; [|discriminate].
  injection Hm as <-. simpl in Hw. subst a.
  destruct (exactly_some _ _ _ _ _ Ea) as (_ & Hl & _). discriminate.
Qed.

(** X13. [extractAccountID] returns the fallback, or eight digits, or six
    digits, a hyphen and eight digits, taken from the text. Its third
    pattern, ten digits, never decides: wherever it would match, the
    eight-digit pattern has matched already, so a ten-digit number is
    cut to its first eight digits. *)
Theorem account_id_is_eight_digits_or_nab_format :
  forall text fallback : string,
    extractAccountID text fallback
    = firstPatternMatch (firstn 2 accountIDPatterns) text fallback /\
    (extractAccountID text fallback = fallback \/
     exists id,
       extractAccountID text fallback = id /\ occursIn id text /\
       (digitsOf 8 id \/
        exists a b, digitsOf 6 a /\ digitsOf 8 b /\ id = (a ++ "-" ++ b)%string)).
Proof.
  intros text fallback. unfold extractAccountID, accountIDPatterns.
  cbn [firstn firstPatternMatch].
  set (p1 := Cat (Repeat 6 digits) (Cat (Lit "-") (Repeat 8 digits))).
  destruct (String.eqb_spec (FindString p1 text) "") as [E1|E1]; cbn [negb].
  - destruct (String.eqb_spec (FindString (Repeat 8 digits) text) "") as [E2|E2]; cbn [negb].
    + apply FindString_empty_repeat in E2.
      assert (E3 : search (Repeat 10 digits) text = None).
      { revert E2. apply search_weaker. intros s. rewrite !matchAt_repeat.
        destruct (exactly 10 digits s) as [[a b]|] eqn:E10; [|reflexivity].
        destruct (exactly_shorter 2 digits 8 s a b E10) as (a' & b' & ->). discriminate. }
      rewrite (FindString_none _ _ E3). cbn [String.eqb negb]. auto.
    + split; [reflexivity|]. right.
      destruct (FindString_some _ _ E2) as (pre & m & Ht & Hin & Hw).
      exists (whole m). split; [exact Hw|]. split; [now exists pre, (rest m)|]. left.
      now apply In_run_repeat, exactly_digitsOf in Hin as [Hd _].
  - split; [reflexivity|]. right.
    destruct (FindString_some _ _ E1) as (pre & m & Ht & Hin & Hw).
    exists (whole m). split; [exact Hw|]. split; [now exists pre, (rest m)|]. right.
    exact (In_run_nabFormat _ _ Hin).
Qed.

Lemma search_cons r c t :
  search r (String c t)
  = match matchAt r (String c t) with
    | Some m => Some ("", m)
    | None =>
        match search r t with
        | Some (skipped, m) => Some (String c skipped, m)
        | None => None
        end
    end.
Proof. reflexivity. Qed.

Lemma firstNumber_here s n post : numberAt s = Some (n, post) -> firstNumber s = Some n.
Proof. intros H. destruct s; cbn [firstNumber]; now rewrite H. Qed.

Lemma firstNumber_later c t :
  numberAt (String c t) = None -> firstNumber (String c t) = firstNumber t.
Proof. intros H. cbn [firstNumber]. now rewrite H. Qed.

Lemma matchAt_amount_none s : matchAt amountRegex s = None -> numberAt s = None.
Proof.
  unfold matchAt. rewrite run_amountRegex.
  destruct (numberAt s) as [[n post]|]; [|reflexivity].
  intros H. exfalso. revert H.
  match goal with |- hd_error (?l ++ _) = None -> _ => destruct l end; discriminate.
Qed.

(** The search for [\$?([\d,]+\.[\d]{2})] finds the first number. *)
Lemma search_amount_firstNumber s :
  match search amountRegex s with
  | Some (_, m) => exists n, groups m = [n] /\ firstNumber s = Some n
  | None => firstNumber s = None
  end.
Proof.
  induction s as [|c t IH].
  - reflexivity.
  - rewrite search_cons. destruct (matchAt amountRegex (String c t)) as [m|] eqn:Em.
    + destruct (matchAt_amount_some _ _ Em) as (n & post & Hg & [Hn|(t' & Heq & Hn)]).
      * exists n. split; [exact Hg|]. exact (firstNumber_here _ _ _ Hn).
      * injection Heq as -> ->. exists n. split; [exact Hg|].
        rewrite firstNumber_later by reflexivity. exact (firstNumber_here _ _ _ Hn).
    + rewrite (firstNumber_later _ _ (matchAt_amount_none _ Em)).
      destruct (search amountRegex t) as [[pre m]|]; exact IH.
Qed.

(** X14. [extractBalance] returns the first number of the text (digits
    or commas, a dot, two digits) without its commas, and the empty
    string when the text has no number: the dollar sign of the pattern
    plays no part in what is found. *)
Theorem balance_is_the_first_number :
  forall text : string,
    extractBalance text
    = match firstNumber text with
      | Some n => ReplaceAll n "," ""
      | None => ""
      end.
Proof.
  intros text. unfold extractBalance, FindStringSubmatch.
  pose proof (search_amount_firstNumber text) as H.
  destruct (search amountRegex text) as [[pre m]|].
  - destruct H as (n & -> & ->). reflexivity.
  - now rewrite H.
Qed.

Section Names.
Variable unicodeLower : string -> string.
Variables unicodeTrim unicodeTrimRight : string -> string.

Lemma knownName_in names textLower name :
  knownName unicodeLower names textLower = Some name ->
  In name names /\ Contains textLower (ToLower unicodeLower name) = true.
Proof.
  induction names as [|n more IH]; simpl; [discriminate|].
  destruct (Contains textLower (ToLower unicodeLower n)) eqn:E.
  - intros H. injection H as <-. auto.
  - intros H. destruct (IH H). auto.
Qed.

Lemma accountLine_some lines name :
  accountLine unicodeLower unicodeTrim unicodeTrimRight lines = Some name ->
  exists line, In line lines /\ name = TrimSpace unicodeTrim unicodeTrimRight line /\
               5 < String.length name < 50 /\
               Contains (ToLower unicodeLower name) "account" = true.
Proof.
  induction lines as [|l more IH]; cbn [accountLine]; [discriminate|].
  set (line := TrimSpace unicodeTrim unicodeTrimRight l).
  destruct ((5 <? String.length line)%nat && (String.length line <? 50)%nat
            && Contains (ToLower unicodeLower line) "account") eqn:E.
  - intros H. injection H as <-. exists l.
    apply andb_prop in E as [E E3]. apply andb_prop in E as [E1 E2].
    apply Nat.ltb_lt in E1, E2. repeat split; auto. now left.
  - intros H. destruct (IH H) as (l' & Hin & Hrest). exists l'. split; [now right|exact Hrest].
Qed.

End Names.

(** X15. [extractAccountName] never returns a blank name: the result has
    more than 5 and fewer than 50 bytes, and is a name of the catalogue
    in the catalogue's spelling, or a trimmed line of the text that
    mentions an account, or the default name. *)
Theorem account_name_is_never_blank :
  forall (unicodeLower unicodeTrim unicodeTrimRight : string -> string) (text : string),
    let name := extractAccountName unicodeLower unicodeTrim unicodeTrimRight text in
    5 < String.length name < 50 /\
    (In name accountNames \/
     (exists line, In line (Split text newline) /\
                   name = TrimSpace unicodeTrim unicodeTrimRight line /\
                   Contains (ToLower unicodeLower name) "account" = true) \/
     name = "NAB Account").
Proof.
  intros ul ut utr text name. subst name. unfold extractAccountName.
  destruct (knownName ul accountNames (ToLower ul text)) as [name|] eqn:Ek.
  - apply knownName_in in Ek as [Hin _]. split; [|now left].
    unfold accountNames in Hin. simpl in Hin.
    repeat (destruct Hin as [<-|Hin]; [simpl; lia|]). destruct Hin.
  - destruct (accountLine ul ut utr (Split text newline)) as [name|] eqn:El.
    + apply accountLine_some in El as (line & Hin & Heq & Hlen & Hc).
      split; [exact Hlen|]. right. left. exists line. auto.
    + split; [simpl; lia|]. right. now right.
Qed.

End TextExtractors.

(* ===================================================================== *)
(** * Identifiers of the scraped accounts *)
(* ===================================================================== *)

Section Identifiers.
Import Service Browser.
Local Arguments String.eqb : simpl never.

Lemma itoa_inj n m : itoa n = itoa m -> n = m.
Proof.
  unfold itoa. intros H.
  apply (f_equal NilEmpty.uint_of_string) in H. rewrite !NilEmpty.usu in H.
  injection H as H. apply (f_equal Nat.of_uint) in H.
  now rewrite !DecimalNat.Unsigned.of_to in H.
Qed.

Lemma accountsFrom_ids balances : forall i,
  map ID (accountsFrom i balances)
  = map (fun k => ("account_" ++ itoa k)%string) (seq (i + 1) (List.length balances)).
Proof.
  induction balances as [|b more IH]; intros i; simpl; [reflexivity|].
  rewrite IH. replace (S i + 1) with (S (i + 1)) by lia. reflexivity.
Qed.

Lemma NoDup_map_injective {A B} (f : A -> B) (l : list A) :
  (forall x y, f x = f y -> x = y) -> NoDup l -> NoDup (map f l).
Proof.
  intros Hf. induction 1 as [|x l Hx _ IH]; simpl; constructor; [|exact IH].
  intros Hin. apply in_map_iff in Hin as (y & Heq & Hy). apply Hf in Heq. now subst.
Qed.

Lemma findTarget_own (accounts : list Account) :
  NoDup (map ID accounts) ->
  forall a, In a accounts -> findTarget accounts (ID a) = Some a.
Proof.
  induction accounts as [|x more IH]; intros Hnd a Hin; [destruct Hin|].
  simpl in *. inversion Hnd as [|? ? Hx Hmore]; subst.
  destruct Hin as [->|Hin]; [now rewrite String.eqb_refl|].
  destruct (String.eqb_spec (ID x) (ID a)) as [E|_]; [|now apply IH].
  exfalso. apply Hx. rewrite E. now apply in_map.
Qed.

(** X16. The accounts read from a page have pairwise different
    identifiers, so each of them is the one the lookup of
    [GetAccountDetails] finds under its identifier. *)
Theorem scraped_accounts_are_found_by_their_ids :
  forall page : string,
    NoDup (map ID (accountsOfSource page)) /\
    forall a, In a (accountsOfSource page) ->
              findTarget (accountsOfSource page) (ID a) = Some a.
Proof.
  intros page.
  assert (Hnd : NoDup (map ID (accountsOfSource page))).
  { unfold accountsOfSource. rewrite accountsFrom_ids.
    apply NoDup_map_injective; [|apply seq_NoDup].
    intros n m H. apply itoa_inj. simpl in H. now injection H. }
  split; [exact Hnd|]. now apply findTarget_own.
Qed.

End Identifiers.

(* ===================================================================== *)
(** * Configuration and start of the server *)
(* ===================================================================== *)

Section Startup.
Import Service Handler Main.
Local Arguments String.eqb : simpl never.

Lemma getEnvOrDefault_nonempty Getenv key defaultValue :
  defaultValue <> "" -> getEnvOrDefault Getenv key defaultValue <> "".
Proof.
  intros Hd. unfold getEnvOrDefault.
  destruct (String.eqb_spec (Getenv key) "") as [E|E]; cbn [negb]; auto.
Qed.

(** X17. [LoadConfig] succeeds exactly when NAB_USERNAME and
    NAB_PASSWORD are both non-empty, and reports the user name first
    when both are missing. A loaded configuration carries these
    credentials as they are, and none of its port, URLs, screenshot path
    and user agent is empty: a variable set to the empty string counts
    as unset. *)
Theorem loaded_configuration_is_complete :
  forall (Getenv : Environment) (ParseDuration : string -> option nat),
    match LoadConfig Getenv ParseDuration with
    | Ok config =>
        Getenv "NAB_USERNAME" <> "" /\ Getenv "NAB_PASSWORD" <> "" /\
        Username (NAB config) = Getenv "NAB_USERNAME" /\
        Password (NAB config) = Getenv "NAB_PASSWORD" /\
        Port (Server config) <> "" /\ BaseURL (NAB config) <> "" /\
        LoginURL (NAB config) <> "" /\ AccountsURL (NAB config) <> "" /\
        ScreenshotPath (NAB config) <> "" /\ UserAgent (NAB config) <> ""
    | Err e =>
        (Getenv "NAB_USERNAME" = "" /\
         e = Errorf "NAB_USERNAME environment variable is required") \/
        (Getenv "NAB_USERNAME" <> "" /\ Getenv "NAB_PASSWORD" = "" /\
         e = Errorf "NAB_PASSWORD environment variable is required")
    end.
Proof.
  intros Getenv ParseDuration. unfold LoadConfig. cbv zeta.
  cbn [NAB Server Username Password].
  destruct (String.eqb_spec (Getenv "NAB_USERNAME") "") as [Eu|Eu]; [now left|].
  destruct (String.eqb_spec (Getenv "NAB_PASSWORD") "") as [Ep|Ep]; [right; auto|].
  cbn [NAB Server Username Password Port BaseURL LoginURL AccountsURL ScreenshotPath
       UserAgent].
  repeat split; auto; apply getEnvOrDefault_nonempty; discriminate.
Qed.

Lemma ParseBool_false value :
  ParseBool value = Some false <->
  In value ["0"; "f"; "F"; "FALSE"; "false"; "False"].
Proof.
  unfold ParseBool.
  destruct (existsb (String.eqb value) ["1"; "t"; "T"; "TRUE"; "true"; "True"]) eqn:Et.
  - split; [discriminate|]. intros Hin. exfalso.
    apply existsb_exists in Et as (x & Hx & Heq). apply String.eqb_eq in Heq. subst x.
    simpl in Hx, Hin.
    repeat (destruct Hx as [<-|Hx];
            [repeat (destruct Hin as [Hin|Hin]; [discriminate Hin|]); destruct Hin|]).
    destruct Hx.
  - destruct (existsb (String.eqb value) ["0"; "f"; "F"; "FALSE"; "false"; "False"]) eqn:Ef.
    + split; [intros _|reflexivity].
      apply existsb_exists in Ef as (x & Hx & Heq). apply String.eqb_eq in Heq. now subst x.
    + split; [discriminate|]. intros Hin. exfalso.
      assert (Ht : existsb (String.eqb value) ["0"; "f"; "F"; "FALSE"; "false"; "False"]
                   = true).
      { apply existsb_exists. exists value. split; [exact Hin|apply String.eqb_refl]. }
      congruence.
Qed.

(** X18. The browser of a loaded configuration runs headless unless
    BROWSER_HEADLESS is one of 0, f, F, FALSE, false and False: any other
    value, such as no or off, leaves it headless. *)
Theorem headless_unless_a_false_literal :
  forall (Getenv : Environment) (ParseDuration : string -> option nat) (config : Config),
    LoadConfig Getenv ParseDuration = Ok config ->
    (BrowserHeadless (NAB config) = false <->
     In (Getenv "BROWSER_HEADLESS") ["0"; "f"; "F"; "FALSE"; "false"; "False"]).
Proof.
  intros Getenv ParseDuration config. unfold LoadConfig. cbv zeta.
  cbn [NAB Server Username Password].
  destruct (String.eqb (Getenv "NAB_USERNAME") ""); [discriminate|].
  destruct (String.eqb (Getenv "NAB_PASSWORD") ""); [discriminate|].
  intros H.
  apply (f_equal (fun r => match r with
                           | Ok c => BrowserHeadless (NAB c)
                           | Err _ => true
                           end)) in H.
  cbn [NAB BrowserHeadless] in H. rewrite <- H.
  unfold parseBoolOrDefault. rewrite <- ParseBool_false.
  destruct (String.eqb_spec (Getenv "BROWSER_HEADLESS") "") as [E|E]; cbn [negb].
  - rewrite E. split; discriminate.
  - destruct (ParseBool (Getenv "BROWSER_HEADLESS")) as [[|]|]; split; congruence.
Qed.

Lemma headless_unless_a_false_literal_witness :
  exists config,
    LoadConfig (sampleEnv "off") noDuration = Ok config /\
    (BrowserHeadless (NAB config) = false <->
     In (sampleEnv "off" "BROWSER_HEADLESS") ["0"; "f"; "F"; "FALSE"; "false"; "False"]).
Proof.
  eexists. split; [reflexivity|].
  apply (headless_unless_a_false_literal (sampleEnv "off") noDuration). reflexivity.
Defined.

Lemma chooseClient_spec cfg w : exists c,
  yields (chooseClient cfg) w c
         [Log (if String.eqb (Username (NAB cfg)) "test"
                  && String.eqb (Password (NAB cfg)) "test"
               then "Using mock NAB client for testing"
               else "Using real NAB browser client") []] /\
  match c with
  | UseMock _ => Username (NAB cfg) = "test" /\ Password (NAB cfg) = "test"
  | UseBrowser b =>
      (Username (NAB cfg) <> "test" \/ Password (NAB cfg) <> "test") /\
      Browser.config b = NAB cfg
  end.
Proof.
  unfold chooseClient.
  destruct (String.eqb_spec (Username (NAB cfg)) "test") as [Eu|Eu]; cbn [andb].
  - destruct (String.eqb_spec (Password (NAB cfg)) "test") as [Ep|Ep].
    + exists (UseMock NewMockNABClient). split; [|split; assumption].
      change [Log "Using mock NAB client for testing" []]
        with ([Log "Using mock NAB client for testing" []] ++ []).
      eapply yields_bind; [apply yields_logf|apply yields_ret].
    + exists (UseBrowser (Browser.NewNABClient (NAB cfg))).
      split; [|split; [right; assumption|reflexivity]].
      change [Log "Using real NAB browser client" []]
        with ([Log "Using real NAB browser client" []] ++ []).
      eapply yields_bind; [apply yields_logf|apply yields_ret].
  - exists (UseBrowser (Browser.NewNABClient (NAB cfg))).
    split; [|split; [left; assumption|reflexivity]].
    change [Log "Using real NAB browser client" []]
      with ([Log "Using real NAB browser client" []] ++ []).
    eapply yields_bind; [apply yields_logf|apply yields_ret].
Qed.

(** X19. The start of the server asks nothing of the browser engine. It
    ends the program when a credential is missing; it builds the
    handlers on the mock exactly when NAB_USERNAME and NAB_PASSWORD are
    both test, and otherwise on the scraping client, configured with
    the credentials of the environment. *)
Theorem startup_selects_the_client :
  forall (Getenv : Environment) (ParseDuration : string -> option nat) (w : World),
    exists r new,
      yields (startup Getenv ParseDuration) w r new /\
      requests new = [] /\
      match r with
      | Err _ => Getenv "NAB_USERNAME" = "" \/ Getenv "NAB_PASSWORD" = ""
      | Ok h =>
          match nabClient (accountService h) with
          | UseMock _ =>
              Getenv "NAB_USERNAME" = "test" /\ Getenv "NAB_PASSWORD" = "test"
          | UseBrowser b =>
              (Getenv "NAB_USERNAME" <> "test" \/ Getenv "NAB_PASSWORD" <> "test") /\
              Getenv "NAB_USERNAME" <> "" /\ Getenv "NAB_PASSWORD" <> "" /\
              Username (Browser.config b) = Getenv "NAB_USERNAME" /\
              Password (Browser.config b) = Getenv "NAB_PASSWORD"
          end
      end.
Proof.
  intros Getenv ParseDuration w. unfold startup, LoadConfig. cbv zeta.
  cbn [NAB Server Username Password].
  destruct (String.eqb_spec (Getenv "NAB_USERNAME") "") as [Hu|Hu];
    [|destruct (String.eqb_spec (Getenv "NAB_PASSWORD") "") as [Hp|Hp]].
  - eexists. eexists.
    split; [eapply yields_bind; [apply yields_logf|apply yields_ret]|].
    split; [reflexivity|now left].
  - eexists. eexists.
    split; [eapply yields_bind; [apply yields_logf|apply yields_ret]|].
    split; [reflexivity|now right].
  - match goal with
    | |- context [chooseClient ?cfg] => destruct (chooseClient_spec cfg w) as (c & Hy & Hc)
    end.
    cbn [NAB Username Password] in Hc.
    eexists. eexists. split; [|split].
    + eapply yields_bind; [exact Hy|].
      eapply yields_bind; [apply yields_logf|].
      eapply yields_bind; [apply yields_logf|].
      eapply yields_bind; [apply yields_logf|].
      eapply yields_bind; [apply yields_logf|].
      eapply yields_bind; [apply yields_logf|]. apply yields_ret.
    + rewrite !requests_app. reflexivity.
    + cbn [accountService nabClient NewAccountsHandler NewAccountService].
      destruct c as [m|b]; [exact Hc|].
      destruct Hc as (Hc & ->). cbn [Username Password]. auto.
Qed.

Section HandlerEvents.
Context {C : Type} `{NABClient C}.
Variable c : C.
Variable P : event -> Prop.
Hypothesis P_log : forall format args, P (Log format args).
Hypothesis P_now : forall t, P (Now t).
Hypothesis P_accounts : always P (GetAccounts c).
Hypothesis P_transactions : forall accountID, always P (GetAccountTransactions c accountID).

Lemma always_log format args : always P (logf format args).
Proof. apply always_emit, P_log. Qed.

Lemma always_writeErrorResponse statusCode errorType message details :
  always P (writeErrorResponse statusCode errorType message details).
Proof.
  unfold writeErrorResponse. apply always_bind; [apply always_timeNow, P_now|].
  intros t. apply always_ret.
Qed.

Lemma always_GetAllAccounts : always P (GetAllAccounts (NewAccountService c)).
Proof.
  simpl. unfold accountService_GetAllAccounts.
  apply always_bind; [exact P_accounts|].
  intros [accounts|e]; [|apply always_ret].
  apply always_bind; [apply always_timeNow, P_now|]. intros t. apply always_ret.
Qed.

Lemma always_GetAccountDetails accountID :
  always P (GetAccountDetails (NewAccountService c) accountID).
Proof.
  simpl. unfold accountService_GetAccountDetails.
  apply always_bind; [exact P_accounts|].
  intros [accounts|e]; [|apply always_ret].
  destruct (findTarget accounts accountID); [|apply always_ret].
  apply always_bind; [apply P_transactions|].
  intros [transactions|e]; [|apply always_ret].
  apply always_bind; [apply always_timeNow, P_now|]. intros t. apply always_ret.
Qed.

Lemma always_ListAccounts req :
  always P (ListAccounts (NewAccountsHandler (NewAccountService c)) req).
Proof.
  unfold ListAccounts. apply always_bind; [apply always_log|]. intros _.
  apply always_bind; [apply always_GetAllAccounts|].
  intros [accounts|e].
  - apply always_bind; [apply always_timeNow, P_now|]. intros t. apply always_ret.
  - apply always_bind; [apply always_log|]. intros _. apply always_writeErrorResponse.
Qed.

Lemma always_GetAccount req :
  always P (GetAccount (NewAccountsHandler (NewAccountService c)) req).
Proof.
  unfold GetAccount. apply always_bind; [apply always_log|]. intros _.
  destruct (String.eqb (accountId req) ""); [apply always_writeErrorResponse|].
  apply always_bind; [apply always_GetAccountDetails|].
  intros [details|e]; [apply always_ret|].
  destruct e; try apply always_writeErrorResponse;
    (apply always_bind; [apply always_log|]; intros _; apply always_writeErrorResponse).
Qed.

End HandlerEvents.

(** X20. The handlers add only log lines and clock readings to what the
    provider does: a property that holds of every log line, of every
    clock reading and of every event of the provider's two calls holds
    of every event of [ListAccounts] and of [GetAccount], whatever the
    request. *)
Theorem handlers_add_only_logs_and_clock_readings :
  forall (C : Type) `{NABClient C} (c : C) (P : event -> Prop),
    (forall format args, P (Log format args)) ->
    (forall t, P (Now t)) ->
    always P (GetAccounts c) ->
    (forall accountID, always P (GetAccountTransactions c accountID)) ->
    forall req : Request,
      always P (ListAccounts (NewAccountsHandler (NewAccountService c)) req) /\
      always P (GetAccount (NewAccountsHandler (NewAccountService c)) req).
Proof.
  intros C HC c P Hlog Hnow Hacc Htx req. split.
  - now apply always_ListAccounts.
  - now apply always_GetAccount.
Qed.

(** The server on the mock asks nothing of the browser engine. *)
Lemma handlers_add_only_logs_and_clock_readings_witness :
  always noRequest (ListAccounts Sample.mockHandler (Sample.request "12345678")) /\
  always noRequest (GetAccount Sample.mockHandler (Sample.request "12345678")).
Proof.
  apply (handlers_add_only_logs_and_clock_readings MockNABClient NewMockNABClient noRequest).
  - reflexivity.
  - reflexivity.
  - intros w. eexists. eexists. split; [apply yields_ret|constructor].
  - intros accountID. simpl. unfold MockNABClient_GetAccountTransactions.
    repeat (apply always_bind; [apply always_timeNow; reflexivity|]; intros ?).
    apply always_ret.
Defined.

End Startup.

(* ===================================================================== *)
(** * When the credentials are typed *)
(* ===================================================================== *)

Section Order.
Import Browser.

Lemma passes_do a (H : list event -> Prop) :
  (forall sel v, a <> SendKeys sel v) ->
  (forall p, H [Did a (Succeeded p)]) ->
  passes (task (do a)) H.
Proof.
  intros Ha HH accounts w. eexists. eexists. split.
  - unfold task. eapply yields_bind; [apply yields_do|apply yields_ret].
  - rewrite app_nil_r. split.
    + destruct a; try reflexivity. exfalso. eapply Ha. reflexivity.
    + cbn [fst]. destruct (engine w (trace w) a) as [p|e]; [intros _; apply HH|discriminate].
Qed.

Lemma clickFirstVisible_clicked found failed selectors : forall w, exists r new,
  yields (clickFirstVisible found failed selectors) w r new /\
  typed new = [] /\ (r = Some None -> clicked selectors new).
Proof.
  induction selectors as [|sel more IH]; intros w.
  - exists None, []. split; [apply yields_ret|]. split; [reflexivity|discriminate].
  - cbn [clickFirstVisible].
    set (e1 := Did (WaitVisible sel) (engine w (trace w) (WaitVisible sel))).
    destruct (errorOf (engine w (trace w) (WaitVisible sel))) as [err|] eqn:E.
    + set (e2 := Log failed [LStr sel; LErr err]).
      destruct (IH (after (after w [e1]) [e2])) as (r & new & Hy & Ht & Hc).
      exists r, ([e1] ++ [e2] ++ new). split; [|split].
      * eapply yields_bind; [apply yields_do|]. rewrite E.
        eapply yields_bind; [apply yields_logf|exact Hy].
      * rewrite !typed_app, Ht. reflexivity.
      * intros Hr. destruct (Hc Hr) as (s & p & Hs & Hin).
        exists s, p. split; [now right|]. right. right. exact Hin.
    + set (e2 := Log found [LStr sel]).
      set (w2 := after (after w [e1]) [e2]).
      set (rep := engine w2 (trace w2) (Click sel)).
      exists (Some (errorOf rep)), ([e1] ++ [e2] ++ [Did (Click sel) rep] ++ []).
      split; [|split].
      * eapply yields_bind; [apply yields_do|]. rewrite E.
        eapply yields_bind; [apply yields_logf|].
        eapply yields_bind; [apply yields_do|apply yields_ret].
      * reflexivity.
      * intros Hr. destruct rep as [p|e] eqn:Erep; [|discriminate].
        exists sel, p. split; [now left|]. right. right. now left.
Qed.

Lemma click_step_passes found failed selectors c tag msg pre :
  (forall w, exists new, yields pre w tt new /\ typed new = []) ->
  passes (task (pre ;;;
                r0 <- clickFirstVisible found failed selectors ;;
                match r0 with
                | Some res => ret res
                | None => takeScreenshot c tag ;;; ret (Some (Errorf msg))
                end))
         (clicked selectors).
Proof.
  intros Hpre accounts w. destruct (Hpre w) as (n0 & Hy0 & Ht0).
  destruct (clickFirstVisible_clicked found failed selectors (after w n0))
    as (r0 & n1 & Hy1 & Ht1 & Hc1).
  destruct r0 as [res|].
  - exists (res, accounts), ((n0 ++ n1 ++ []) ++ []). split; [|split].
    + unfold task. eapply yields_bind; [|apply yields_ret].
      eapply yields_bind; [exact Hy0|].
      eapply yields_bind; [exact Hy1|apply yields_ret].
    + rewrite !app_nil_r, typed_app, Ht0, Ht1. reflexivity.
    + cbn [fst]. intros ->. destruct (Hc1 eq_refl) as (s & p & Hs & Hin).
      exists s, p. split; [exact Hs|]. rewrite !app_nil_r. apply in_or_app. now right.
  - destruct (takeScreenshot_spec c tag (after (after w n0) n1)) as (n2 & Hy2 & _ & _ & Hr2).
    exists (Some (Errorf msg), accounts), ((n0 ++ n1 ++ n2 ++ []) ++ []). split; [|split].
    + unfold task. eapply yields_bind; [|apply yields_ret].
      eapply yields_bind; [exact Hy0|].
      eapply yields_bind; [exact Hy1|].
      eapply yields_bind; [exact Hy2|apply yields_ret].
    + rewrite !app_nil_r, !typed_app, Ht0, Ht1, (typed_requests n2), Hr2. reflexivity.
    + discriminate.
Qed.

Lemma clickLoginButton_passes c :
  passes (task (clickLoginButton c)) (clicked loginButtonSelectors).
Proof.
  apply (click_step_passes _ _ _ c "login_button_not_found" "could not find login button"
           (logf "Clicking Login button..." [])).
  intros w. eexists. split; [apply yields_logf|reflexivity].
Qed.

Lemma selectInternetBanking_passes c :
  passes (task (selectInternetBanking c)) (clicked internetBankingSelectors).
Proof.
  intros accounts w.
  destruct (click_step_passes "Found Internet Banking link with selector: %s"
              "Internet Banking selector failed: %s - %v" internetBankingSelectors
              c "internet_banking_not_found"
              "could not find Internet Banking link in dropdown"
              (logf "Selecting Internet Banking from dropdown..." [] ;;; do (Sleep 1) ;;; ret tt)
              ) with (accounts := accounts) (w := w) as (r & new & Hy & Hrest).
  { intros w'. eexists. split.
    - eapply yields_bind; [apply yields_logf|].
      eapply yields_bind; [apply yields_do|apply yields_ret].
    - reflexivity. }
  exists r, new. split; [|exact Hrest].
  unfold yields in *. rewrite <- Hy. reflexivity.
Qed.

Lemma typedAfter_step (t : Task) more (H G : list event -> Prop) :
  passes t H ->
  (forall accounts w, exists r new,
      yields (runTasks more accounts) w r new /\ typedAfter G new) ->
  forall accounts w, exists r new,
    yields (runTasks (t :: more) accounts) w r new /\
    typedAfter (fun before => exists n1 n2, before = n1 ++ n2 /\ H n1 /\ G n2) new.
Proof.
  intros Ht Hmore accounts w. destruct (Ht accounts w) as (r1 & n1 & Hy1 & Ht1 & HH).
  destruct (fst r1) as [e|] eqn:E.
  - exists (Some e, snd r1), (n1 ++ []). split.
    + cbn [runTasks]. eapply yields_bind; [exact Hy1|]. rewrite E. apply yields_ret.
    + left. now rewrite app_nil_r.
  - destruct (Hmore (snd r1) (after w n1)) as (r & n2 & Hy2 & Hafter).
    exists r, (n1 ++ n2). split.
    + cbn [runTasks]. eapply yields_bind; [exact Hy1|]. rewrite E. exact Hy2.
    + destruct Hafter as [Ht2|(before & login & rest & -> & Hb & Hr & HG)].
      * left. now rewrite typed_app, Ht1, Ht2.
      * right. exists (n1 ++ before), login, rest.
        split; [now rewrite <- app_assoc|]. split; [now rewrite typed_app, Ht1, Hb|].
        split; [exact Hr|]. exists n1, before. auto.
Qed.

Lemma untyped_runTasks (tasks : list Task) :
  Forall (fun t => passes t (fun _ => True)) tasks ->
  forall accounts w, exists r new,
    yields (runTasks tasks accounts) w r new /\ typed new = [].
Proof.
  induction 1 as [|t more Ht _ IH]; intros accounts w.
  - eexists. exists []. split; [apply yields_ret|reflexivity].
  - destruct (Ht accounts w) as (r1 & n1 & Hy1 & Ht1 & _).
    destruct (fst r1) as [e|] eqn:E.
    + exists (Some e, snd r1), (n1 ++ []). split; [|now rewrite app_nil_r].
      cbn [runTasks]. eapply yields_bind; [exact Hy1|]. rewrite E. apply yields_ret.
    + destruct (IH (snd r1) (after w n1)) as (r & n2 & Hy2 & Ht2).
      exists r, (n1 ++ n2). split; [|now rewrite typed_app, Ht1, Ht2].
      cbn [runTasks]. eapply yields_bind; [exact Hy1|]. rewrite E. exact Hy2.
Qed.

Lemma scrapeAccounts_passes c : passes (scrapeAccounts c) (fun _ => True).
Proof.
  intros accounts w. eexists. eexists. split; [|split; [|auto]].
  - unfold scrapeAccounts, extractAccountsGeneric.
    eapply yields_bind; [apply yields_do|].
    eapply yields_bind; [apply yields_logf|].
    eapply yields_bind; [|apply yields_ret].
    eapply yields_bind; [apply yields_perform|apply yields_ret].
  - reflexivity.
Qed.

(** From [performLogin] on: the typing is in the login step. *)
Lemma typedAfter_login c accounts w : exists r new,
  yields (runTasks [ task (performLogin c);
                     task (do (WaitVisible "body"));
                     task (do (Sleep 3));
                     scrapeAccounts c ] accounts) w r new /\
  typedAfter (fun _ => True) new.
Proof.
  destruct (performLogin_spec c w) as (r1 & n1 & Hy1 & _).
  assert (Hrest : forall accounts w, exists r new,
             yields (runTasks [ task (do (WaitVisible "body"));
                                task (do (Sleep 3));
                                scrapeAccounts c ] accounts) w r new /\ typed new = []).
  { apply untyped_runTasks. repeat constructor.
    - apply passes_do; [discriminate|auto].
    - apply passes_do; [discriminate|auto].
    - apply scrapeAccounts_passes. }
  assert (Htask : yields (task (performLogin c) accounts) w (r1, accounts) (n1 ++ [])).
  { unfold task. eapply yields_bind; [exact Hy1|apply yields_ret]. }
  destruct r1 as [e|].
  - exists (Some e, accounts), ((n1 ++ []) ++ []). split.
    + cbn [runTasks]. eapply yields_bind; [exact Htask|apply yields_ret].
    + right. exists [], n1, []. rewrite !app_nil_r. auto.
  - destruct (Hrest accounts (after w (n1 ++ []))) as (r & n2 & Hy2 & Ht2).
    exists r, ((n1 ++ []) ++ n2). split.
    + cbn [runTasks]. eapply yields_bind; [exact Htask|exact Hy2].
    + right. exists [], n1, n2. rewrite !app_nil_r. auto.
Qed.

(** X21. In every call of [GetAccounts] all the typing is done in one
    stretch of the trace, and before that stretch the base URL of the
    configuration was loaded, a login-button candidate was clicked and
    an Internet Banking candidate was clicked, all three with success:
    the credentials are typed nowhere unless the site was reached
    through these steps. *)
Theorem credentials_typed_only_after_the_menu :
  forall (c : NABClient) (w : World),
    exists r new,
      yields (GetAccounts c) w r new /\
      typedAfter (fun before =>
                    navigated (BaseURL (config c)) before /\
                    clicked loginButtonSelectors before /\
                    clicked internetBankingSelectors before) new.
Proof.
  intros c w.
  set (e0 := Log "Starting NAB account scraping..." []).
  set (a := Allocate (BrowserHeadless (config c)) (UserAgent (config c))).
  set (w1 := after w [e0]).
  set (e1 := Did a (engine w1 (trace w1) a)).
  assert (Hseq : forall accounts w, exists r new,
    yields (runTasks [ task (do (Navigate (BaseURL (config c))));
                       task (do (WaitVisible "body"));
                       task (clickLoginButton c);
                       task (selectInternetBanking c);
                       task (performLogin c);
                       task (do (WaitVisible "body"));
                       task (do (Sleep 3));
                       scrapeAccounts c ] accounts) w r new /\
    typedAfter (fun before =>
                  navigated (BaseURL (config c)) before /\
                  clicked loginButtonSelectors before /\
                  clicked internetBankingSelectors before) new).
  { intros accounts w'.
    pose proof (typedAfter_step _ _ _ _
                  (passes_do (Navigate (BaseURL (config c)))
                             (navigated (BaseURL (config c)))
                             ltac:(discriminate)
                             ltac:(intros p; exists p; now left))
                  (typedAfter_step _ _ _ _
                     (passes_do (WaitVisible "body") (fun _ => True)
                                ltac:(discriminate) (fun _ => I))
                     (typedAfter_step _ _ _ _ (clickLoginButton_passes c)
                        (typedAfter_step _ _ _ _ (selectInternetBanking_passes c)
                           (typedAfter_login c))))) as Hall.
    destruct (Hall accounts w') as (r & new & Hy & Hafter).
    exists r, new. split; [exact Hy|].
    destruct Hafter as [Ht|(before & login & rest & -> & Hb & Hr & HG)]; [now left|].
    right. exists before, login, rest. repeat split; auto;
      destruct HG as (n1 & b1 & -> & Hnav & n2 & b2 & -> & _ & n3 & b3 & -> & Hlb
                      & n4 & b4 & -> & Hib & _).
    - destruct Hnav as (p & Hin). exists p. apply in_or_app. now left.
    - destruct Hlb as (s & p & Hs & Hin). exists s, p. split; [exact Hs|].
      apply in_or_app. right. apply in_or_app. right. apply in_or_app. now left.
    - destruct Hib as (s & p & Hs & Hin). exists s, p. split; [exact Hs|].
      do 3 (apply in_or_app; right). apply in_or_app. now left. }
  destruct (errorOf (engine w1 (trace w1) a)) as [err|] eqn:Ealloc.
  - destruct (takeScreenshot_spec c "error" (after w1 [e1])) as (n2 & Hy2 & _ & _ & Hr2).
    eexists. exists ([e0] ++ ([e1] ++ []) ++ n2
                     ++ [Cancel "timeoutCtx"; Cancel "browserCtx"; Cancel "allocCtx"] ++ []).
    split.
    + unfold GetAccounts. eapply yields_bind; [apply yields_logf|].
      eapply yields_bind.
      { unfold Run. eapply yields_bind; [apply yields_do|].
        fold w1 a. rewrite Ealloc. apply yields_ret. }
      cbn [fst]. eapply yields_bind; [exact Hy2|].
      eapply yields_bind; [apply deferred_exact|apply yields_ret].
    + left. rewrite !typed_app, (typed_requests n2), Hr2. reflexivity.
  - destruct (Hseq [] (after w1 [e1])) as (r & n1 & Hy1 & Hafter).
    assert (Hrun : yields (Run c [ task (do (Navigate (BaseURL (config c))));
                                   task (do (WaitVisible "body"));
                                   task (clickLoginButton c);
                                   task (selectInternetBanking c);
                                   task (performLogin c);
                                   task (do (WaitVisible "body"));
                                   task (do (Sleep 3));
                                   scrapeAccounts c ] [])
                          w1 r ([e1] ++ n1)).
    { unfold Run. eapply yields_bind; [apply yields_do|].
      fold w1 a. rewrite Ealloc. exact Hy1. }
    assert (Htail : exists res tail,
               yields (GetAccounts c) w res ([e0] ++ ([e1] ++ n1) ++ tail) /\
               typed tail = []).
    { destruct (fst r) as [err|] eqn:Er.
      - destruct (takeScreenshot_spec c "error" (after w1 ([e1] ++ n1)))
          as (n2 & Hy2 & _ & _ & Hr2).
        eexists. exists (n2 ++ [Cancel "timeoutCtx"; Cancel "browserCtx"; Cancel "allocCtx"]
                         ++ []).
        split.
        + unfold GetAccounts. eapply yields_bind; [apply yields_logf|].
          eapply yields_bind; [exact Hrun|]. rewrite Er.
          eapply yields_bind; [exact Hy2|].
          eapply yields_bind; [apply deferred_exact|apply yields_ret].
        + rewrite typed_app, (typed_requests n2), Hr2. reflexivity.
      - eexists. exists ([Log "Successfully scraped %d accounts"
                              [LInt (List.length (snd r))]]
                         ++ [Cancel "timeoutCtx"; Cancel "browserCtx"; Cancel "allocCtx"]
                         ++ []).
        split.
        + unfold GetAccounts. eapply yields_bind; [apply yields_logf|].
          eapply yields_bind; [exact Hrun|]. rewrite Er.
          eapply yields_bind; [apply yields_logf|].
          eapply yields_bind; [apply deferred_exact|apply yields_ret].
        + reflexivity. }
    destruct Htail as (res & tail & Hy & Htail).
    exists res, ([e0] ++ ([e1] ++ n1) ++ tail). split; [exact Hy|].
    destruct Hafter as [Ht|(before & login & rest & -> & Hb & Hr & Hnav & Hlb & Hib)].
    + left. rewrite !typed_app, Ht, Htail. reflexivity.
    + right. exists ([e0] ++ [e1] ++ before), login, (rest ++ tail).
      split; [now rewrite <- !app_assoc|].
      split; [rewrite !typed_app, Hb; reflexivity|].
      split; [now rewrite typed_app, Hr, Htail|].
      destruct Hnav as (p & Hin), Hlb as (s1 & p1 & Hs1 & Hin1), Hib as (s2 & p2 & Hs2 & Hin2).
      split; [|split].
      * exists p. right. right. exact Hin.
      * exists s1, p1. split; [exact Hs1|]. right. right. exact Hin1.
      * exists s2, p2. split; [exact Hs2|]. right. right. exact Hin2.
Qed.

End Order.

(* ===================================================================== *)
(** * Answers of the server on the scraping client *)
(* ===================================================================== *)

Section Answers.
Import Service Handler.
Local Arguments String.eqb : simpl never.
Local Existing Instance Browser.NABClient_NABClient.

Lemma bind_run {A B} (m : M A) (k : A -> M B) w a w' :
  m w = (a, w') -> bind m k w = k a w'.
Proof. unfold bind. now intros ->. Qed.

Lemma GetAccounts_error_wrapped c w e w' :
  Browser.GetAccounts c w = (Err e, w') ->
  exists cause, e = ErrorfW "failed to scrape NAB accounts: %w" cause.
Proof.
  intros H. destruct (GetAccounts_spec c w) as (r & new & Hy & Hr).
  unfold yields in Hy. rewrite H in Hy. injection Hy as <- _. apply Hr.
Qed.

(** The errors of [GetAccountDetails] on the scraping client. *)
Lemma scraped_details_errors c accountID w e w' :
  GetAccountDetails (NewAccountService c) accountID w = (Err e, w') ->
  e = ErrAccountNotFound \/ exists cause, e = ErrorfW "failed to scrape NAB accounts: %w" cause.
Proof.
  simpl GetAccountDetails. unfold accountService_GetAccountDetails. unfold bind at 1.
  simpl nabClient. simpl GetAccounts.
  destruct (Browser.GetAccounts c w) as [[accounts|e0] w1] eqn:E.
  - destruct (findTarget accounts accountID) as [a|].
    + simpl. discriminate.
    + unfold ret. intros H. injection H as <- _. now left.
  - unfold ret. intros H. injection H as <- _. right.
    exact (GetAccounts_error_wrapped _ _ _ _ E).
Qed.

(** X22. The answers of the server on the scraping client: [ListAccounts]
    answers 200 or 500; [GetAccount] answers 400 exactly when the
    request has no account identifier, and otherwise 200, 404 or 500.
    The answers 401 and 503 of [GetAccount] are never given. *)
Theorem scraping_server_status_codes :
  forall (c : Browser.NABClient) (req : Request) (w : World),
    let h := NewAccountsHandler (NewAccountService c) in
    In (StatusCode (fst (ListAccounts h req w))) [200; 500] /\
    In (StatusCode (fst (GetAccount h req w))) [200; 400; 404; 500] /\
    (StatusCode (fst (GetAccount h req w)) = 400 <-> accountId req = "").
Proof.
  intros c req w h. subst h. split; [|].
  - unfold ListAccounts. unfold bind at 1. unfold logf, emit.
    set (w0 := {| engine := _; clock := _; trace := _ |}).
    unfold bind at 1. simpl GetAllAccounts. unfold accountService_GetAllAccounts.
    unfold bind at 1. simpl nabClient. simpl GetAccounts.
    destruct (Browser.GetAccounts c w0) as [[accounts|e] w1].
    + now left.
    + right. now left.
  - assert (Hcases :
      (accountId req = "" /\ StatusCode (fst (GetAccount (NewAccountsHandler (NewAccountService c)) req w)) = 400) \/
      (accountId req <> "" /\
       In (StatusCode (fst (GetAccount (NewAccountsHandler (NewAccountService c)) req w)))
          [200; 404; 500])).
    { set (entry := Log "GetAccount: %s %s (ID: %s)"
                        [LStr (Method req); LStr (Path req); LStr (accountId req)]).
      destruct (String.eqb_spec (accountId req) "") as [E|E]; [left|right];
        (split; [exact E|]);
        unfold GetAccount; unfold bind at 1; unfold logf, emit;
        fold entry; fold (after w [entry]).
      - rewrite E. reflexivity.
      - apply String.eqb_neq in E. rewrite E. simpl accountService.
        destruct (GetAccountDetails (NewAccountService c) (accountId req) (after w [entry]))
          as [[details|e] w1] eqn:Ed; rewrite (bind_run _ _ _ _ _ Ed).
        + left. reflexivity.
        + destruct (scraped_details_errors _ _ _ _ _ Ed) as [->|(cause & ->)].
          * right. left. reflexivity.
          * right. right. left. reflexivity. }
    destruct Hcases as [[E H4]|[E H]].
    + rewrite H4. split; [simpl; auto|]. split; auto.
    + split.
      * simpl in H |- *. intuition.
      * split; [|contradiction]. intros H4. rewrite H4 in H. simpl in H.
        intuition discriminate.
Qed.

End Answers.

(* ===================================================================== *)
(** * The two ways of cleaning an amount *)
(* ===================================================================== *)

Section Cleaning.
Import Strings Regexp Browser.
Local Arguments inClass : simpl never.
Local Arguments Ascii.eqb : simpl never.

(** X24. On every amount the page scan finds (the dollar sign, digits or
    commas, a dot, two digits), [extractBalance] gives what the loop of
    [extractAccountsGeneric] makes of it by stripping the dollar sign
    and the commas: the two ways of cleaning agree. *)
Theorem both_cleanings_agree_on_amounts :
  forall m : string,
    isAmount m ->
    extractBalance m = ReplaceAll (TrimPrefix m "$") "," "".
Proof.
  intros m (body & d1 & d2 & -> & Hne & Hbody & H1 & H2).
  change ("$" ++ body ++ "." ++ cents d1 d2)%string
    with (String "$" (body ++ "." ++ cents d1 d2)).
  set (n := (body ++ "." ++ cents d1 d2)%string).
  rewrite TrimPrefix_dollar.
  unfold extractBalance, FindStringSubmatch.
  pose proof (search_amount_firstNumber (String "$" n)) as Hs.
  assert (Hn : numberAt n = Some (n, "")).
  { pose proof (numberAt_complete body d1 d2 "" Hne Hbody H1 H2) as Hc.
    replace (cents d1 d2 ++ "")%string with (cents d1 d2) in Hc by reflexivity.
    exact Hc. }
  assert (Hf : firstNumber (String "$" n) = Some n).
  { rewrite firstNumber_later by reflexivity. exact (firstNumber_here _ _ _ Hn). }
  destruct (search amountRegex (String "$" n)) as [[pre fm]|].
  - destruct Hs as (n' & -> & Hn'). rewrite Hf in Hn'. injection Hn' as <-. reflexivity.
  - rewrite Hf in Hs. discriminate.
Qed.

Lemma both_cleanings_agree_on_amounts_witness :
  extractBalance "$1,234.56" = ReplaceAll (TrimPrefix "$1,234.56" "$") "," "".
Proof.
  apply (both_cleanings_agree_on_amounts "$1,234.56").
  exists "1,234", "5"%char, "6"%char. repeat split; try reflexivity. discriminate.
Defined.

End Cleaning.

(* ===================================================================== *)
(** * The five roles *)
(* ===================================================================== *)

Section FiveRoles.
Import Browser.
Local Arguments String.eqb : simpl never.

Lemma outcomes_app l1 l2 : outcomes (l1 ++ l2) = outcomes l1 ++ outcomes l2.
Proof. apply collect_app. Qed.

Lemma requests_outcomes tr : requests tr = map fst (outcomes tr).
Proof.
  induction tr as [|e tr IH]; [reflexivity|].
  destruct e as [a [p|err]| | |]; simpl; try exact IH;
    unfold requests, outcomes in *; simpl; now rewrite IH.
Qed.

Lemma probes_outcomes tr :
  (forall sel b, ~ In (WaitVisible sel, b) (outcomes tr)) -> probes tr = [].
Proof.
  induction tr as [|e tr IH]; intros H; [reflexivity|].
  destruct e as [a [p|err]| | |]; unfold probes, outcomes in *; simpl in *;
    try (apply IH; exact H);
    (destruct a; try (apply IH; intros s0 b0 Hin; apply (H s0 b0); now right));
    exfalso; eapply H; left; reflexivity.
Qed.

Lemma clicks_outcomes tr :
  clicks tr
  = collect (fun o => match fst o with Click sel => Some sel | _ => None end) (outcomes tr).
Proof.
  induction tr as [|e tr IH]; [reflexivity|].
  destruct e as [a [p|err]| | |]; unfold clicks, outcomes in *; simpl; try exact IH;
    destruct a; simpl; now rewrite IH.
Qed.

(** [chromedp.Tasks.Do] stops at the first action that fails. *)
Lemma doAll_trace (actions : list action) : forall w, exists m new r,
  yields (doAll actions) w r new /\
  m <= List.length actions /\
  outcomes new = attempts actions m /\
  (r = None <-> m = List.length actions).
Proof.
  induction actions as [|a more IH]; intros w.
  - exists 0, [], None. split; [apply yields_ret|]. repeat split; auto.
  - destruct (engine w (trace w) a) as [p|err] eqn:E.
    + destruct (IH (after w [Did a (Succeeded p)])) as (m & new & r & Hy & Hm & Ho & Hr).
      exists (S m), ([Did a (Succeeded p)] ++ new), r. split; [|split; [|split]].
      * pose proof (yields_do a w) as Hdo. rewrite E in Hdo.
        cbn [doAll]. eapply yields_bind; [exact Hdo|exact Hy].
      * simpl. lia.
      * rewrite outcomes_app, Ho. reflexivity.
      * rewrite Hr. simpl. lia.
    + exists 0, ([Did a (Failed err)] ++ []), (Some err). split; [|split; [|split]].
      * pose proof (yields_do a w) as Hdo. rewrite E in Hdo.
        cbn [doAll]. eapply yields_bind; [exact Hdo|apply yields_ret].
      * simpl. lia.
      * reflexivity.
      * split; [discriminate|]. simpl. lia.
Qed.

(** A step that probes the candidates of a role and clicks the first
    one that shows, after the preliminaries [pre]. *)
Lemma click_step_trace found failed selectors c tag msg (pre : M unit) preRequests :
  (forall w, exists new,
      yields pre w tt new /\ requests new = preRequests /\ probes new = []) ->
  forall w, exists n new r,
    yields (pre ;;;
            r0 <- clickFirstVisible found failed selectors ;;
            match r0 with
            | Some res => ret res
            | None => takeScreenshot c tag ;;; ret (Some (Errorf msg))
            end) w r new /\
    n <= List.length selectors /\
    probes new = resolution selectors n /\
    requests new = preRequests ++ map WaitVisible (firstn (S n) selectors)
                   ++ match candidate selectors n with
                      | Some s => [Click s]
                      | None => [CaptureScreenshot]
                      end /\
    (candidate selectors n = None -> r = Some (Errorf msg)).
Proof.
  intros Hpre w. destruct (Hpre w) as (n0 & Hy0 & Hr0 & Hp0).
  destruct (clickFirstVisible_spec found failed selectors (after w n0))
    as (n & n1 & r0 & Hy1 & [Hn Hp1] & Hr1 & Hnone & _).
  destruct r0 as [res|].
  - destruct (candidate selectors n) as [s|] eqn:Ec;
      [|exfalso; destruct Hnone as [_ H]; specialize (H eq_refl); discriminate].
    exists n, (n0 ++ n1 ++ []), res. split; [|split; [exact Hn|split; [|split]]].
    + eapply yields_bind; [exact Hy0|].
      eapply yields_bind; [exact Hy1|apply yields_ret].
    + rewrite app_nil_r, probes_app, Hp0, Hp1. unfold resolution. now rewrite Ec.
    + rewrite app_nil_r, requests_app, Hr0, Hr1, Ec. reflexivity.
    + rewrite Ec. discriminate.
  - assert (Ec : candidate selectors n = None) by (now apply Hnone).
    destruct (takeScreenshot_spec c tag (after (after w n0) n1))
      as (n2 & Hy2 & _ & Hp2 & Hr2).
    exists n, (n0 ++ n1 ++ n2 ++ []), (Some (Errorf msg)).
    split; [|split; [exact Hn|split; [|split]]].
    + eapply yields_bind; [exact Hy0|].
      eapply yields_bind; [exact Hy1|].
      eapply yields_bind; [exact Hy2|apply yields_ret].
    + rewrite app_nil_r, !probes_app, Hp0, Hp1, Hp2, app_nil_r. unfold resolution.
      now rewrite Ec.
    + rewrite app_nil_r, !requests_app, Hr0, Hr1, Hr2, Ec, app_nil_r. reflexivity.
    + reflexivity.
Qed.

Lemma clickLoginButton_trace c w : exists n new r,
  yields (clickLoginButton c) w r new /\
  n <= List.length loginButtonSelectors /\
  probes new = resolution loginButtonSelectors n /\
  requests new = map WaitVisible (firstn (S n) loginButtonSelectors)
                 ++ match candidate loginButtonSelectors n with
                    | Some s => [Click s]
                    | None => [CaptureScreenshot]
                    end /\
  (candidate loginButtonSelectors n = None ->
   r = Some (Errorf "could not find login button")).
Proof.
  apply (click_step_trace "Found login button with selector: %s"
           "Selector failed: %s - %v" loginButtonSelectors c "login_button_not_found"
           "could not find login button" (logf "Clicking Login button..." []) []).
  intros w'. eexists. split; [apply yields_logf|]. split; reflexivity.
Qed.

Lemma selectInternetBanking_trace c w : exists n new r,
  yields (selectInternetBanking c) w r new /\
  n <= List.length internetBankingSelectors /\
  probes new = resolution internetBankingSelectors n /\
  requests new = Sleep 1 :: map WaitVisible (firstn (S n) internetBankingSelectors)
                 ++ match candidate internetBankingSelectors n with
                    | Some s => [Click s]
                    | None => [CaptureScreenshot]
                    end /\
  (candidate internetBankingSelectors n = None ->
   r = Some (Errorf "could not find Internet Banking link in dropdown")).
Proof.
  destruct (click_step_trace "Found Internet Banking link with selector: %s"
              "Internet Banking selector failed: %s - %v" internetBankingSelectors
              c "internet_banking_not_found"
              "could not find Internet Banking link in dropdown"
              (logf "Selecting Internet Banking from dropdown..." [] ;;;
               do (Sleep 1) ;;; ret tt)
              [Sleep 1]) with (w := w) as (n & new & r & Hy & Hrest).
  { intros w'. eexists. split; [|split].
    - eapply yields_bind; [apply yields_logf|].
      eapply yields_bind; [apply yields_do|apply yields_ret].
    - reflexivity.
    - reflexivity. }
  exists n, new, r. split; [|exact Hrest].
  unfold yields in *. rewrite <- Hy. reflexivity.
Qed.

Lemma candidate_nonempty (selectors : list string) n s :
  forallb (fun s => negb (String.eqb s "")) selectors = true ->
  candidate selectors n = Some s -> String.eqb s "" = false.
Proof.
  intros Hall Hc. apply (nonempty_selector selectors s Hall).
  eapply nth_error_In. exact Hc.
Qed.

(** The parts of the trace of [performLogin]: the three resolutions, each
    begun only when the one before found its candidate, and then the
    typing and the click on the candidates found. *)
Lemma performLogin_parts c w : exists i j k n1 n2 n3 n4 r,
  yields (performLogin c) w r (n1 ++ n2 ++ n3 ++ n4) /\
  i <= List.length loginSelectors /\
  probes n1 = resolution loginSelectors i /\
  requests n1 = map WaitVisible (firstn (S i) loginSelectors) /\
  match candidate loginSelectors i with
  | None => n2 = [] /\ n3 = [] /\ n4 = [] /\
            r = Some (Errorf "could not find username input field")
  | Some u =>
      j <= List.length passwordSelectors /\
      probes n2 = resolution passwordSelectors j /\
      requests n2 = map WaitVisible (firstn (S j) passwordSelectors) /\
      match candidate passwordSelectors j with
      | None => n3 = [] /\ n4 = [] /\
                r = Some (Errorf "could not find password input field")
      | Some p =>
          k <= List.length submitSelectors /\
          probes n3 = resolution submitSelectors k /\
          requests n3 = map WaitVisible (firstn (S k) submitSelectors) /\
          match candidate submitSelectors k with
          | None => n4 = [] /\ r = Some (Errorf "could not find submit button")
          | Some b =>
              exists m, m <= 3 /\
                outcomes n4 = attempts [SendKeys u (Username (config c));
                                        SendKeys p (Password (config c));
                                        Click b] m /\
                (r = None <-> m = 3)
          end
      end
  end.
Proof.
  unfold performLogin.
  destruct (firstVisible_spec loginSelectors w) as (i & n1 & Hy1 & [Hi Hq1] & Hr1 & _).
  assert (Hp1 : probes n1 = resolution loginSelectors i) by exact Hq1. clear Hq1.
  destruct (candidate loginSelectors i) as [u|] eqn:Eu.
  2:{ exists i, 0, 0, n1, [], [], [], (Some (Errorf "could not find username input field")).
      rewrite Eu. split; [|repeat split; auto].
      eapply yields_bind; [exact Hy1|]. apply yields_ret. }
  pose proof (candidate_nonempty loginSelectors i u eq_refl Eu) as Hu.
  destruct (firstVisible_spec passwordSelectors (after w n1))
    as (j & n2 & Hy2 & [Hj Hq2] & Hr2 & _).
  assert (Hp2 : probes n2 = resolution passwordSelectors j) by exact Hq2. clear Hq2.
  destruct (candidate passwordSelectors j) as [p|] eqn:Ep.
  2:{ exists i, j, 0, n1, n2, [], [], (Some (Errorf "could not find password input field")).
      rewrite Eu, Ep. split; [|repeat split; auto].
      eapply yields_bind; [exact Hy1|]. rewrite Hu.
      eapply yields_bind; [exact Hy2|]. apply yields_ret. }
  pose proof (candidate_nonempty passwordSelectors j p eq_refl Ep) as Hp.
  destruct (firstVisible_spec submitSelectors (after (after w n1) n2))
    as (k & n3 & Hy3 & [Hk Hq3] & Hr3 & _).
  assert (Hp3 : probes n3 = resolution submitSelectors k) by exact Hq3. clear Hq3.
  destruct (candidate submitSelectors k) as [b|] eqn:Eb.
  2:{ exists i, j, k, n1, n2, n3, [], (Some (Errorf "could not find submit button")).
      rewrite Eu, Ep, Eb. split; [|repeat split; auto].
      eapply yields_bind; [exact Hy1|]. rewrite Hu.
      eapply yields_bind; [exact Hy2|]. rewrite Hp.
      eapply yields_bind; [exact Hy3|]. apply yields_ret. }
  pose proof (candidate_nonempty submitSelectors k b eq_refl Eb) as Hb.
  destruct (doAll_trace [SendKeys u (Username (config c));
                         SendKeys p (Password (config c)); Click b]
              (after (after (after w n1) n2) n3)) as (m & n4 & r & Hy4 & Hm & Ho & Hr).
  exists i, j, k, n1, n2, n3, n4, r. rewrite Eu, Ep, Eb.
  split; [|repeat split; auto; exists m; auto].
  eapply yields_bind; [exact Hy1|]. rewrite Hu.
  eapply yields_bind; [exact Hy2|]. rewrite Hp.
  eapply yields_bind; [exact Hy3|]. rewrite Hb. exact Hy4.
Qed.

Lemma clicks_requests tr :
  clicks tr
  = collect (fun a => match a with Click sel => Some sel | _ => None end) (requests tr).
Proof.
  induction tr as [|e tr IH]; [reflexivity|].
  destruct e as [a r| | |]; simpl; try exact IH.
  unfold clicks, requests in *. simpl. destruct a; simpl; rewrite <- IH; reflexivity.
Qed.

Lemma clicks_probes (selectors : list string) tr :
  requests tr = map WaitVisible selectors -> clicks tr = [].
Proof.
  intros H. rewrite clicks_requests, H. clear H.
  induction selectors as [|sel more IH]; [reflexivity|exact IH].
Qed.

(** What the typing part of [performLogin] leaves in the trace. *)
Lemma typing_cases u p b (U P : string) m n4 :
  m <= 3 ->
  outcomes n4 = attempts [SendKeys u U; SendKeys p P; Click b] m ->
  probes n4 = [] /\
  (exists q, 1 <= q <= 3 /\ requests n4 = firstn q [SendKeys u U; SendKeys p P; Click b]) /\
  ((typed n4 = [(u, U)] /\ In (SendKeys u U, false) (outcomes n4) /\ clicks n4 = []) \/
   (typed n4 = [(u, U); (p, P)] /\ In (SendKeys u U, true) (outcomes n4) /\
    (clicks n4 = [] \/ clicks n4 = [b] /\ In (SendKeys p P, true) (outcomes n4)))).
Proof.
  intros Hm Ho.
  assert (Hr : requests n4 = map fst (attempts [SendKeys u U; SendKeys p P; Click b] m))
    by (now rewrite requests_outcomes, Ho).
  split; [|split].
  - apply probes_outcomes. intros sel o Hin. rewrite Ho in Hin.
    destruct m as [|[|[|[|m]]]]; [| | | |lia]; simpl in Hin;
      repeat (destruct Hin as [Hin|Hin]; [discriminate Hin|]); destruct Hin.
  - destruct m as [|[|[|[|m]]]]; [exists 1|exists 2|exists 3|exists 3|lia];
      (split; [lia|exact Hr]).
  - rewrite typed_requests, clicks_requests, Hr, Ho.
    destruct m as [|[|[|[|m]]]]; [left|right|right|right|lia]; simpl; auto 10.
Qed.

(** C1. Each of the five roles is resolved by probing its candidates in
    the order listed and stopping at the first one whose probe succeeds.
    Both resolution loops, over any list of candidates: the requests are
    the probes of the candidates up to that one (and, in the clicking
    loop, the click on it), every earlier probe failed, no later
    candidate is probed, and the candidate reported or clicked is that
    first success; when every probe fails, all candidates were probed
    once, in order. [clickLoginButton] and [selectInternetBanking] are
    that clicking loop on their own candidates, followed by the
    screenshot when none shows. [performLogin] is the selecting loop on
    the username, password and submit candidates in turn, each begun
    only when the one before found its candidate, and it types into and
    clicks the three candidates found. *)
Theorem resolution_first_listed_first_matched :
  forall (c : NABClient) (w : World),
    (forall selectors : list string,
        (exists n new,
            yields (firstVisible selectors) w
                   (match candidate selectors n with Some s => s | None => "" end) new /\
            n <= List.length selectors /\
            requests new = map WaitVisible (firstn (S n) selectors) /\
            probes new = resolution selectors n)
        /\
        (forall found failed, exists n new r,
            yields (clickFirstVisible found failed selectors) w r new /\
            n <= List.length selectors /\
            requests new = map WaitVisible (firstn (S n) selectors)
                           ++ match candidate selectors n with
                              | Some s => [Click s]
                              | None => []
                              end /\
            probes new = resolution selectors n /\
            (r = None <-> candidate selectors n = None)))
    /\
    (exists n new r,
        yields (clickLoginButton c) w r new /\
        n <= List.length loginButtonSelectors /\
        probes new = resolution loginButtonSelectors n /\
        requests new = map WaitVisible (firstn (S n) loginButtonSelectors)
                       ++ match candidate loginButtonSelectors n with
                          | Some s => [Click s]
                          | None => [CaptureScreenshot]
                          end /\
        (candidate loginButtonSelectors n = None ->
         r = Some (Errorf "could not find login button")))
    /\
    (exists n new r,
        yields (selectInternetBanking c) w r new /\
        n <= List.length internetBankingSelectors /\
        probes new = resolution internetBankingSelectors n /\
        requests new = Sleep 1 :: map WaitVisible (firstn (S n) internetBankingSelectors)
                       ++ match candidate internetBankingSelectors n with
                          | Some s => [Click s]
                          | None => [CaptureScreenshot]
                          end /\
        (candidate internetBankingSelectors n = None ->
         r = Some (Errorf "could not find Internet Banking link in dropdown")))
    /\
    (exists i j k new r,
        yields (performLogin c) w r new /\
        i <= List.length loginSelectors /\
        match candidate loginSelectors i with
        | None =>
            probes new = resolution loginSelectors i /\
            requests new = map WaitVisible (firstn (S i) loginSelectors) /\
            r = Some (Errorf "could not find username input field")
        | Some u =>
            j <= List.length passwordSelectors /\
            match candidate passwordSelectors j with
            | None =>
                probes new = resolution loginSelectors i
                             ++ resolution passwordSelectors j /\
                requests new = map WaitVisible (firstn (S i) loginSelectors
                                                ++ firstn (S j) passwordSelectors) /\
                r = Some (Errorf "could not find password input field")
            | Some p =>
                k <= List.length submitSelectors /\
                probes new = resolution loginSelectors i
                             ++ resolution passwordSelectors j
                             ++ resolution submitSelectors k /\
                match candidate submitSelectors k with
                | None =>
                    requests new = map WaitVisible (firstn (S i) loginSelectors
                                                    ++ firstn (S j) passwordSelectors
                                                    ++ firstn (S k) submitSelectors) /\
                    r = Some (Errorf "could not find submit button")
                | Some b =>
                    exists q, 1 <= q <= 3 /\
                      requests new
                      = map WaitVisible (firstn (S i) loginSelectors
                                         ++ firstn (S j) passwordSelectors
                                         ++ firstn (S k) submitSelectors)
                        ++ firstn q [SendKeys u (Username (config c));
                                     SendKeys p (Password (config c));
                                     Click b]
                end
            end
        end).
Proof.
  intros c w. split; [|split; [|split]].
  - intros selectors. split.
    + destruct (firstVisible_spec selectors w) as (n & new & Hy & [Hn Hp] & Hr & _).
      exists n, new. auto.
    + intros found failed.
      destruct (clickFirstVisible_spec found failed selectors w)
        as (n & new & r & Hy & [Hn Hp] & Hr & Hnone & _).
      exists n, new, r. auto.
  - apply clickLoginButton_trace.
  - apply selectInternetBanking_trace.
  - destruct (performLogin_parts c w)
      as (i & j & k & n1 & n2 & n3 & n4 & r & Hy & Hi & Hp1 & Hr1 & Hrest).
    exists i, j, k, (n1 ++ n2 ++ n3 ++ n4), r. split; [exact Hy|]. split; [exact Hi|].
    rewrite !probes_app, !requests_app, Hp1, Hr1.
    destruct (candidate loginSelectors i) as [u|].
    2:{ destruct Hrest as (-> & -> & -> & ->). rewrite !app_nil_r. auto. }
    destruct Hrest as (Hj & Hp2 & Hr2 & Hrest). split; [exact Hj|]. rewrite Hp2, Hr2.
    destruct (candidate passwordSelectors j) as [p|].
    2:{ destruct Hrest as (-> & -> & ->). rewrite !app_nil_r, map_app. auto. }
    destruct Hrest as (Hk & Hp3 & Hr3 & Hrest). split; [exact Hk|]. rewrite Hp3, Hr3.
    destruct (candidate submitSelectors k) as [b|].
    2:{ destruct Hrest as (-> & ->). rewrite !app_nil_r, !map_app. auto. }
    destruct Hrest as (m & Hm & Ho & _).
    destruct (typing_cases u p b _ _ m n4 Hm Ho) as (Hp4 & (q & Hq & Hr4) & _).
    rewrite Hp4, Hr4, !app_nil_r. split; [reflexivity|].
    exists q. split; [exact Hq|]. now rewrite !map_app, <- !app_assoc.
Qed.

(** X8. Whatever the site does, [performLogin] types and clicks nothing
    unless the username field, the password field and the submit control
    were all found, each as the first candidate of its list whose probe
    succeeded. When they were, the user name is typed into the username
    candidate found; the password is typed only when that went through,
    into the password candidate found and nowhere else; and the click,
    if any, is on the submit candidate found, after both went through. *)
Theorem password_only_into_password_field :
  forall (c : NABClient) (w : World),
    exists i j k new r,
      yields (performLogin c) w r new /\
      probes new
      = resolution loginSelectors i
        ++ match candidate loginSelectors i with
           | None => []
           | Some _ =>
               resolution passwordSelectors j
               ++ match candidate passwordSelectors j with
                  | None => []
                  | Some _ => resolution submitSelectors k
                  end
           end /\
      match candidate loginSelectors i, candidate passwordSelectors j,
            candidate submitSelectors k with
      | Some u, Some p, Some b =>
          (typed new = [(u, Username (config c))] /\
           In (SendKeys u (Username (config c)), false) (outcomes new) /\
           clicks new = []) \/
          (typed new = [(u, Username (config c)); (p, Password (config c))] /\
           In (SendKeys u (Username (config c)), true) (outcomes new) /\
           (clicks new = [] \/
            clicks new = [b] /\
            In (SendKeys p (Password (config c)), true) (outcomes new)))
      | _, _, _ => typed new = [] /\ clicks new = []
      end.
Proof.
  intros c w.
  destruct (performLogin_parts c w)
    as (i & j & k & n1 & n2 & n3 & n4 & r & Hy & Hi & Hp1 & Hr1 & Hrest).
  assert (Ht1 : typed n1 = []) by exact (typed_probes _ _ Hr1).
  assert (Hc1 : clicks n1 = []) by exact (clicks_probes _ _ Hr1).
  destruct (candidate loginSelectors i) as [u|] eqn:Eu.
  2:{ destruct Hrest as (-> & -> & -> & ->).
      exists i, j, k, (n1 ++ [] ++ [] ++ []). eexists. split; [exact Hy|].
      rewrite Eu, !app_nil_r, Hp1, Ht1, Hc1. auto. }
  destruct Hrest as (Hj & Hp2 & Hr2 & Hrest).
  assert (Ht2 : typed n2 = []) by exact (typed_probes _ _ Hr2).
  assert (Hc2 : clicks n2 = []) by exact (clicks_probes _ _ Hr2).
  destruct (candidate passwordSelectors j) as [p|] eqn:Ep.
  2:{ destruct Hrest as (-> & -> & ->).
      exists i, j, k, (n1 ++ n2 ++ [] ++ []). eexists. split; [exact Hy|].
      rewrite Eu, Ep, !app_nil_r, probes_app, typed_app, clicks_app,
        Hp1, Hp2, Ht1, Ht2, Hc1, Hc2. auto. }
  destruct Hrest as (Hk & Hp3 & Hr3 & Hrest).
  assert (Ht3 : typed n3 = []) by exact (typed_probes _ _ Hr3).
  assert (Hc3 : clicks n3 = []) by exact (clicks_probes _ _ Hr3).
  destruct (candidate submitSelectors k) as [b|] eqn:Eb.
  2:{ destruct Hrest as (-> & ->).
      exists i, j, k, (n1 ++ n2 ++ n3 ++ []). eexists. split; [exact Hy|].
      rewrite Eu, Ep, Eb, !app_nil_r, !probes_app, !typed_app, !clicks_app,
        Hp1, Hp2, Hp3, Ht1, Ht2, Ht3, Hc1, Hc2, Hc3. auto. }
  destruct Hrest as (m & Hm & Ho & _).
  destruct (typing_cases u p b _ _ m n4 Hm Ho) as (Hp4 & _ & Hcases).
  exists i, j, k, (n1 ++ n2 ++ n3 ++ n4), r. split; [exact Hy|].
  rewrite Eu, Ep, Eb, !probes_app, !typed_app, !clicks_app, !outcomes_app,
    Hp1, Hp2, Hp3, Hp4, Ht1, Ht2, Ht3, Hc1, Hc2, Hc3, !app_nil_r.
  split; [reflexivity|]. cbn [app].
  destruct Hcases as [(Ht & Hin & Hc)|(Ht & Hin & Hc)]; [left|right];
    (split; [exact Ht|]); (split; [do 3 (apply in_or_app; right); exact Hin|]).
  - exact Hc.
  - destruct Hc as [Hc|[Hc Hin2]]; [now left|right].
    split; [exact Hc|]. do 3 (apply in_or_app; right). exact Hin2.
Qed.

End FiveRoles.

(* ===================================================================== *)
(** * The accounts of the page handed over by the engine *)
(* ===================================================================== *)

Section PageAccounts.
Import Strings Regexp Browser.
Local Arguments inClass : simpl never.
Local Arguments Ascii.eqb : simpl never.

Lemma ReplaceAll_comma_empty s :
  ReplaceAll s "," "" = "" <-> allBytes (Ascii.eqb ",") s = true.
Proof.
  induction s as [|ch t IH]; [split; reflexivity|].
  rewrite ReplaceAll_comma_cons. cbn [allBytes].
  destruct (Ascii.eqb "," ch); cbn [andb]; [exact IH|].
  split; discriminate.
Qed.

(** C4. The page text of the generic extractor is the markup the engine
    hands over for the [html] element, and the empty text when reading it
    fails. For every page text the extractor makes one account per
    occurrence of the pattern (dollar sign, digits or commas, dot, two
    digits), the occurrences being taken leftmost first and one after
    the other. The n-th account (from 1) is named account_n and its
    balance is the text of the n-th occurrence without the dollar sign
    and the commas: digits, the dot and the two digits, where the digits
    before the dot are none exactly when the occurrence has only commas
    there. With no occurrence the list is empty, and [scrapeAccounts]
    returns the list with no error in every case. *)
Theorem accounts_per_amount_occurrence :
  forall (page : string) (c : NABClient) (w : World),
    let matches := FindAllString balanceRegex page in
    Occurrences page matches /\
    List.length (accountsOfSource page) = List.length matches /\
    (forall n m,
        nth_error matches n = Some m ->
        exists a body d1 d2,
          nth_error (accountsOfSource page) n = Some a /\
          ID a = ("account_" ++ itoa (n + 1))%string /\
          m = ("$" ++ body ++ "." ++ cents d1 d2)%string /\
          body <> "" /\ allBytes isDigitOrComma body = true /\
          Amount (Balance a) = (ReplaceAll body "," "" ++ "." ++ cents d1 d2)%string /\
          allBytes isDigit (ReplaceAll body "," "") = true /\
          (ReplaceAll body "," "" = "" <-> allBytes (Ascii.eqb ",") body = true) /\
          isDigit d1 = true /\ isDigit d2 = true) /\
    (matches = [] -> accountsOfSource page = []) /\
    (let reply := engine w (trace w) (OuterHTML "html") in
     yields (extractAccountsGeneric c) w
            (accountsOfSource match reply with Succeeded html => html | Failed _ => "" end)
            [Did (OuterHTML "html") reply]) /\
    (forall accounts, exists new,
        let reply := engine w (trace w ++ removelast new) (OuterHTML "html") in
        yields (scrapeAccounts c accounts) w
               (None,
                accountsOfSource match reply with Succeeded html => html | Failed _ => "" end)
               new /\
        last new (Now 0) = Did (OuterHTML "html") reply).
Proof.
  intros page c w matches.
  pose proof (FindAllString_occurrences page) as Hocc. fold matches in Hocc.
  split; [exact Hocc|].
  split; [apply accountsFrom_length|].
  split; [|split; [|split]].
  - intros n m Hn.
    pose proof (Occurrences_amounts _ _ Hocc) as Hall.
    rewrite Forall_forall in Hall.
    destruct (Hall m (nth_error_In _ _ Hn))
      as (body & d1 & d2 & Hm & Hne & Hbody & H1 & H2).
    eexists. exists body, d1, d2.
    split; [apply (accountsFrom_nth matches 0 n m Hn)|].
    cbn [ID Balance Amount]. repeat split; auto.
    + rewrite Hm.
      change ("$" ++ body ++ "." ++ cents d1 d2)%string
        with (String "$" (body ++ "." ++ cents d1 d2)%string).
      rewrite TrimPrefix_dollar. now apply ReplaceAll_number.
    + now apply ReplaceAll_body.
    + apply ReplaceAll_comma_empty.
    + apply ReplaceAll_comma_empty.
  - unfold accountsOfSource. fold matches. intros ->. reflexivity.
  - intros reply. unfold extractAccountsGeneric.
    change [Did (OuterHTML "html") reply] with ([Did (OuterHTML "html") reply] ++ []).
    eapply yields_bind; [apply yields_perform|apply yields_ret].
  - intros accounts.
    set (e1 := Did (Sleep 3) (engine w (trace w) (Sleep 3))).
    set (e2 := Log "Extracting accounts from page source..." []).
    exists [e1; e2; Did (OuterHTML "html") (engine w (trace w ++ [e1; e2]) (OuterHTML "html"))].
    cbn [removelast]. cbv zeta. split; [|reflexivity].
    unfold yields, scrapeAccounts, extractAccountsGeneric, bind, do, bind, perform,
      logf, emit, ret. simpl. fold e1. fold e2.
    rewrite <- !app_assoc. simpl. reflexivity.
Qed.

Lemma accounts_per_amount_occurrence_witness :
  FindAllString balanceRegex "Everyday $1,234.56 and Saver $7.00" = ["$1,234.56"; "$7.00"] /\
  exists a body d1 d2,
    nth_error (accountsOfSource "Everyday $1,234.56 and Saver $7.00") 0 = Some a /\
    ID a = ("account_" ++ itoa (0 + 1))%string /\
    "$1,234.56" = ("$" ++ body ++ "." ++ cents d1 d2)%string /\
    body <> "" /\ allBytes isDigitOrComma body = true /\
    Amount (Balance a) = (ReplaceAll body "," "" ++ "." ++ cents d1 d2)%string /\
    allBytes isDigit (ReplaceAll body "," "") = true /\
    (ReplaceAll body "," "" = "" <-> allBytes (Ascii.eqb ",") body = true) /\
    isDigit d1 = true /\ isDigit d2 = true.
Proof.
  split; [reflexivity|].
  apply (proj1 (proj2 (proj2 (accounts_per_amount_occurrence
                                "Everyday $1,234.56 and Saver $7.00"
                                Sample.client (Sample.world (Sample.site "")))))).
  reflexivity.
Defined.

(** An occurrence with only commas before the dot: the balance has no
    digit before the dot, so it is not of the shape digits, dot, two
    digits with at least one digit. *)
Lemma comma_only_amount_has_no_integer_digit :
  FindAllString balanceRegex "Total $,.12 due" = ["$,.12"] /\
  map (fun a => Amount (Balance a)) (accountsOfSource "Total $,.12 due") = [".12"] /\
  ~ (exists body d1 d2,
        ".12" = (body ++ "." ++ cents d1 d2)%string /\
        body <> "" /\ allBytes isDigit body = true).
Proof.
  split; [reflexivity|]. split; [reflexivity|].
  intros (body & d1 & d2 & Heq & Hne & Hd).
  destruct body as [|ch body]; [contradiction|].
  simpl in Heq. injection Heq as <- _. discriminate Hd.
Qed.

End PageAccounts.
